(** * HTTPFileSystem: a shallow embedding of simwrapper's file-access layer

    The development follows [HTTPFileSystem] (the class of the unified
    remote/local file layer) and the wildcard step of the xy-time loader.

    Conventions of the embedding.
    - A JavaScript string is the sequence of its code units; the model uses
      Rocq's [string], so every code unit is below 256.  On such strings the
      helpers of module [JS] compute what the JavaScript methods of the same
      name compute.
    - An [async] method is a function of the program state: it returns the
      value the promise settles with ([Ok v] for a resolved promise,
      [Throw e] for a rejected one) together with the state it leaves.
    - What the host platform provides (network, DOM, URL parser, sort
      comparator, gzip, glob matching, permission prompts) is a field of the
      record [Host]; nothing is assumed about it unless a statement says so.
    - An object used as a map ([CACHE], its partitions, [handles], the four
      maps of [YamlConfigs]) is a [gmap] on its own keys; keys that name a
      property of [Object.prototype] are outside the model.
    - [console.log] lines are not modelled; [console.error] and
      [postMessage] of the loader are. *)

From Equations Require Import Equations.
From stdpp Require Import base option list gmap strings.
From Stdlib Require Import Ascii Strings.Byte ZArith Lia Permutation.

#[local] Set Warnings "-register-all".

Local Open Scope Z_scope.

(** ** JavaScript strings and arrays *)

Module JS.

(** [s.startsWith(p)] *)
Definition startsWith (s p : string) : bool := String.prefix p s.

(** [s.endsWith(p)]: [p] is [s] itself or a suffix of its tail. *)
Fixpoint endsWith (s p : string) : bool :=
  String.eqb s p ||
  match s with
  | EmptyString => false
  | String _ s' => endsWith s' p
  end.

(** [s.slice(n)] for [0 <= n]. *)
Fixpoint sliceFrom (n : nat) (s : string) : string :=
  match n, s with
  | O, _ => s
  | S k, EmptyString => EmptyString
  | S k, String _ s' => sliceFrom k s'
  end.

(** [s.substring(0, n)] for [0 <= n]. *)
Fixpoint take (n : nat) (s : string) : string :=
  match n, s with
  | O, _ => EmptyString
  | S k, EmptyString => EmptyString
  | S k, String c s' => String c (take k s')
  end.

(** [s.substring(0, s.length - 1)] *)
Definition dropLast (s : string) : string := take (String.length s - 1)%nat s.

(** [s.indexOf(pat)], counted from position [i] of the whole string. *)
Fixpoint indexOf_from (pat s : string) (i : Z) : Z :=
  if String.prefix pat s then i
  else match s with
       | EmptyString => -1
       | String _ s' => indexOf_from pat s' (i + 1)
       end.

Definition indexOf (s pat : string) : Z := indexOf_from pat s 0.

(** [s.lastIndexOf(pat)] *)
Fixpoint lastIndexOf_from (pat s : string) (i : Z) : Z :=
  match s with
  | EmptyString => if String.prefix pat s then i else -1
  | String _ s' =>
      let r := lastIndexOf_from pat s' (i + 1) in
      if 0 <=? r then r else if String.prefix pat s then i else -1
  end.

Definition lastIndexOf (s pat : string) : Z := lastIndexOf_from pat s 0.

(** [s.substring(a, b)] on integers: negative bounds count as 0 and the
    bounds are swapped when [b < a], as [String.prototype.substring] does. *)
Definition substring (s : string) (a b : Z) : string :=
  let a' := Z.to_nat (Z.max 0 a) in
  let b' := Z.to_nat (Z.max 0 b) in
  let lo := Nat.min a' b' in
  let hi := Nat.max a' b' in
  take (hi - lo)%nat (sliceFrom lo s).

(** [s.substring(a)] *)
Definition substringFrom (s : string) (a : Z) : string :=
  sliceFrom (Z.to_nat (Z.max 0 a)) s.

(** [s.replaceAll(pat, rep)] for a non-empty [pat]: the occurrences are
    found left to right and do not overlap; [skip] counts the characters of
    a match still to be dropped. *)
Fixpoint replaceAll_go (pat rep : string) (skip : nat) (s : string) : string :=
  match s with
  | EmptyString => EmptyString
  | String c s' =>
      match skip with
      | S k => replaceAll_go pat rep k s'
      | O =>
          if String.prefix pat s
          then rep +:+ replaceAll_go pat rep (String.length pat - 1)%nat s'
          else String c (replaceAll_go pat rep 0%nat s')
      end
  end.

Definition replaceAll (s pat rep : string) : string := replaceAll_go pat rep 0%nat s.

(** [s.replace(pat, rep)] with a string pattern: the first occurrence only. *)
Fixpoint replaceFirst (s pat rep : string) : string :=
  if String.prefix pat s then rep +:+ sliceFrom (String.length pat) s
  else match s with
       | EmptyString => EmptyString
       | String c s' => String c (replaceFirst s' pat rep)
       end.

(** [s.split(sep)] for a non-empty [sep]; [cur] is the piece being read. *)
Fixpoint split_go (sep : string) (skip : nat) (cur s : string) : list string :=
  match s with
  | EmptyString => [cur]
  | String c s' =>
      match skip with
      | S k => split_go sep k cur s'
      | O =>
          if String.prefix sep s
          then cur :: split_go sep (String.length sep - 1)%nat EmptyString s'
          else split_go sep 0%nat (cur +:+ String c EmptyString) s'
      end
  end.

Definition split (s sep : string) : list string := split_go sep 0%nat EmptyString s.

(** [arr.join(sep)] *)
Definition join (sep : string) (l : list string) : string := String.concat sep l.

(** Truthiness of a string: [!!s]. *)
Definition truthy (s : string) : bool := negb (String.eqb s EmptyString).

(** Lower-casing of one code unit below 256: the letters [A] to [Z], and
    the capital letters from U+00C0 to U+00DE (U+00D7 is the times sign). *)
Definition lowerChar (c : ascii) : ascii :=
  let n := nat_of_ascii c in
  if ((65 <=? n) && (n <=? 90))%nat then ascii_of_nat (n + 32)
  else if ((192 <=? n) && (n <=? 222) && negb (n =? 215))%nat then ascii_of_nat (n + 32)
  else c.

(** [s.toLocaleLowerCase()] in a locale without special casing rules. *)
Fixpoint toLocaleLowerCase (s : string) : string :=
  match s with
  | EmptyString => EmptyString
  | String c s' => String (lowerChar c) (toLocaleLowerCase s')
  end.

(** [arr.indexOf(x)] on an array of strings. *)
Fixpoint arrayIndexOf_from (x : string) (l : list string) (i : Z) : Z :=
  match l with
  | [] => -1
  | y :: l' => if String.eqb y x then i else arrayIndexOf_from x l' (i + 1)
  end.

Definition arrayIndexOf (l : list string) (x : string) : Z := arrayIndexOf_from x l 0.

(** [arr.filter((part, i) => keep i)]: filtering on the index. *)
Fixpoint filterIndex_from {A} (keep : Z -> bool) (l : list A) (i : Z) : list A :=
  match l with
  | [] => []
  | y :: l' =>
      if keep i then y :: filterIndex_from keep l' (i + 1)
      else filterIndex_from keep l' (i + 1)
  end.

Definition filterIndex {A} (keep : Z -> bool) (l : list A) : list A :=
  filterIndex_from keep l 0.

(** [s.slice(start)]: a negative [start] counts from the end. *)
Definition slice (s : string) (start : Z) : string :=
  if start <? 0
  then sliceFrom (Z.to_nat (Z.max 0 (Z.of_nat (String.length s) + start))) s
  else sliceFrom (Z.to_nat start) s.

(** The double quote, as a string. *)
Definition dquote : string := String (ascii_of_nat 34) EmptyString.

(** Line terminators, which [.] of a regular expression does not match. *)
Definition isLineTerminator (c : ascii) : bool :=
  Ascii.eqb c (ascii_of_nat 10) || Ascii.eqb c (ascii_of_nat 13).

(** [(.*?)close] read at the start of [s]: the shortest run without a
    line terminator that [close] follows. *)
Fixpoint lazyUntil (close s : string) : option string :=
  if String.prefix close s then Some EmptyString
  else match s with
       | EmptyString => None
       | String c s' =>
           if isLineTerminator c then None
           else match lazyUntil close s' with
                | Some g => Some (String c g)
                | None => None
                end
       end.

(** Group 1 of [s.match(/open(.*?)close/)]: the leftmost match. *)
Fixpoint matchBetween (open close s : string) : option string :=
  let here :=
    if String.prefix open s
    then lazyUntil close (sliceFrom (String.length open) s)
    else None in
  match here with
  | Some g => Some g
  | None =>
      match s with
      | EmptyString => None
      | String _ s' => matchBetween open close s'
      end
  end.

(** White space and line terminators below 256, which [trim] removes. *)
Definition isTrimmed (c : ascii) : bool :=
  let n := nat_of_ascii c in
  ((9 <=? n) && (n <=? 13) || (n =? 32) || (n =? 160))%nat.

Fixpoint trimStart (s : string) : string :=
  match s with
  | EmptyString => EmptyString
  | String c s' => if isTrimmed c then trimStart s' else s
  end.

Fixpoint trimEnd (s : string) : string :=
  match s with
  | EmptyString => EmptyString
  | String c s' =>
      let r := trimEnd s' in
      if String.eqb r EmptyString && isTrimmed c then EmptyString else String c r
  end.

(** [s.trim()] *)
Definition trim (s : string) : string := trimEnd (trimStart s).

End JS.

(** ** The local-handle adapter: removing [..] segments *)

(** The filter of [eatDots]: [i !== dotdot - 1 && i !== dotdot]. *)
Definition notSpliced (dotdot i : Z) : bool :=
  negb (i =? dotdot - 1) && negb (i =? dotdot).

Lemma filterIndex_from_length {A} (keep : Z -> bool) (l : list A) i :
  (length (JS.filterIndex_from keep l i) <= length l)%nat.
Proof.
  revert i; induction l as [|y l IH]; intros i; simpl; [lia|].
  destruct (keep i); simpl; specialize (IH (i + 1)); lia.
Qed.

Lemma arrayIndexOf_from_range x l i :
  JS.arrayIndexOf_from x l i = -1 \/
  (i <= JS.arrayIndexOf_from x l i < i + Z.of_nat (length l)).
Proof.
  revert i; induction l as [|y l IH]; intros i; simpl; [now left|].
  destruct (String.eqb y x); [right; lia|].
  destruct (IH (i + 1)) as [->|H]; [now left|right; lia].
Qed.

(** Dropping one index that lies inside the array shortens it. *)
Lemma filterIndex_from_drop {A} (l : list A) (d i : Z) :
  i <= d < i + Z.of_nat (length l) ->
  (length (JS.filterIndex_from (notSpliced d) l i) < length l)%nat.
Proof.
  revert i; induction l as [|y l IH]; intros i Hd; simpl in *; [lia|].
  unfold notSpliced at 1.
  destruct (Z.eqb_spec i (d - 1)) as [E1|N1]; simpl.
  - pose proof (filterIndex_from_length (notSpliced d) l (i + 1)); lia.
  - destruct (Z.eqb_spec i d) as [E2|N2]; simpl.
    + pose proof (filterIndex_from_length (notSpliced d) l (i + 1)); lia.
    + assert (i + 1 <= d < i + 1 + Z.of_nat (length l)) as H by lia.
      specialize (IH (i + 1) H). lia.
Qed.

(** Keeps the equation [a = b] while matching on [a]. *)
Definition inspect {A} (a : A) : {b | a = b} := exist _ a eq_refl.

(** [eatDots] of [getDirectoryFromHandle]:
<<
    const dotdot = parts.indexOf('..');
    if (dotdot <= 0) return parts;
    const spliced = parts.filter((part, i) => i !== dotdot - 1 && i !== dotdot);
    return eatDots(spliced);
>> *)
Equations? eatDots (parts : list string) : list string by wf (length parts) lt :=
  eatDots parts with inspect (JS.arrayIndexOf parts "..") => {
    | exist _ dotdot Hd with inspect (dotdot <=? 0) => {
      | exist _ true _ := parts
      | exist _ false Hpos :=
          eatDots (JS.filterIndex (notSpliced dotdot) parts)
      }
  }.
Proof.
  unfold JS.filterIndex. apply filterIndex_from_drop.
  apply Z.leb_gt in Hpos.
  unfold JS.arrayIndexOf in Hd.
  destruct (arrayIndexOf_from_range ".." parts 0) as [E|R]; lia.
Qed.

Example eatDots_abc : eatDots ["a"; "b"; ".."; "c"] = ["a"; "c"].
Proof. reflexivity. Qed.


(** ** Thrown values and settled promises *)

(** What a [throw] carries: an [Error] object (with its [name] and
    [message]), a [Response] (the fetch paths throw the response itself),
    or another value, kept as its string conversion. *)
Inductive Thrown : Type :=
| ErrorObj (name message : string)
| ResponseObj (status : Z) (statusText : string)
| OtherThrown (str : string).

(** [Error(message)] *)
Definition Error (message : string) : Thrown := ErrorObj "Error" message.

(** [TypeError]s raised by the engine; the message is the engine's. *)
Definition TypeError (message : string) : Thrown := ErrorObj "TypeError" message.

(** ['' + e]: [Error.prototype.toString] joins name and message, an object
    without a [toString] of its own prints as [[object Response]]. *)
Definition toStr (e : Thrown) : string :=
  match e with
  | ErrorObj name message =>
      if String.eqb name "" then message
      else if String.eqb message "" then name
      else name +:+ ": " +:+ message
  | ResponseObj _ _ => "[object Response]"
  | OtherThrown str => str
  end.

(** How a call ends: it returns (an [async] function resolves) or throws
    (it rejects). *)
Inductive Completion (A : Type) : Type :=
| Ok (a : A)
| Throw (e : Thrown).
Arguments Ok {A} a.
Arguments Throw {A} e.

(** Computations over a state [S] that may throw. *)
Definition M (S A : Type) : Type := S -> Completion A * S.

Definition ret {S A} (a : A) : M S A := fun st => (Ok a, st).

Definition throw {S A} (e : Thrown) : M S A := fun st => (Throw e, st).

Definition bind {S A B} (m : M S A) (k : A -> M S B) : M S B :=
  fun st =>
    match m st with
    | (Ok a, st') => k a st'
    | (Throw e, st') => (Throw e, st')
    end.

(** [try { m } catch (e) { handler e }]: the state reached when [m] threw
    is kept. *)
Definition try_catch {S A} (m : M S A) (handler : Thrown -> M S A) : M S A :=
  fun st =>
    match m st with
    | (Ok a, st') => (Ok a, st')
    | (Throw e, st') => handler e st'
    end.

(** A completion computed without touching the state. *)
Definition settle {S A} (c : Completion A) : M S A := fun st => (c, st).

Definition gets {S A} (f : S -> A) : M S A := fun st => (Ok (f st), st).

Definition modify {S} (f : S -> S) : M S unit := fun st => (Ok tt, f st).

Notation "x <- m ;; k" := (bind m (fun x => k))
  (at level 100, m at next level, right associativity).
Notation "m ;;; k" := (bind m (fun _ => k))
  (at level 100, right associativity).

(** [for (const x of l) { body x }] threading an accumulator. *)
Fixpoint foldM {S A B} (body : B -> A -> M S B) (acc : B) (l : list A) : M S B :=
  match l with
  | [] => ret acc
  | x :: l' => acc' <- body acc x ;; foldM body acc' l'
  end.

(** ** Data model *)

(** A folder handle of the File System Access API, as the tree it gives
    access to: each entry has a [name] and is a file or a directory. *)
Inductive FsHandle : Type :=
| FileHandle (name : string)
| DirectoryHandle (name : string) (entries : list FsHandle).

Definition handle_name (h : FsHandle) : string :=
  match h with
  | FileHandle name => name
  | DirectoryHandle name _ => name
  end.

(** [entry.kind === 'file'] *)
Definition handle_is_file (h : FsHandle) : bool :=
  match h with
  | FileHandle _ => true
  | DirectoryHandle _ _ => false
  end.

(** [DirectoryEntry] of Globals: the listing of one directory. *)
Record DirectoryEntry : Type := mkDirectoryEntry {
  files : list string;
  dirs : list string;
  handles : gmap string FsHandle;
  html : option string
}.

(** [{ files: [], dirs: [], handles: {} }] *)
Definition emptyEntry : DirectoryEntry :=
  {| files := []; dirs := []; handles := ∅; html := None |}.

(** [FileSystemConfig] of Globals, the fields the constructor reads. *)
Record FileSystemConfig : Type := mkFileSystemConfig {
  slug : string;
  baseURL : string;
  needPassword : bool;
  handle : option FsHandle;
  cfg_isGithub : bool
}.

(** The application store, whose [commit] raises the permission prompt. *)
Inductive Store : Type := AppStore.

(** The fields of an [HTTPFileSystem] object. *)
Record HTTPFileSystem : Type := mkHTTPFileSystem {
  baseUrl : string;
  urlId : string;
  needsAuth : bool;
  fsHandle : option FsHandle;
  store : option Store;
  isGithub : bool
}.

(** [YamlConfigs] of Globals: four maps from a file name to its path. *)
Record YamlConfigs : Type := mkYamlConfigs {
  dashboards : gmap string string;
  topsheets : gmap string string;
  vizes : gmap string string;
  configs : gmap string string
}.

(** A fetch [Response], the parts the code reads. *)
Record Response : Type := mkResponse {
  ok : bool;
  status : Z;
  statusText : string;
  body : string
}.

(** What the GitHub contents API answers for a directory: an array of
    entries with a [type] and a [name], or something that is no array. *)
Inductive GhListing : Type :=
| GhArray (entries : list (string * string))
| GhNoArray.

(** What the GitHub contents and blob APIs answer for a file; an absent
    field is [None]. *)
Record GhFile : Type := mkGhFile {
  gh_content : option string;
  gh_encoding : option string;
  gh_sha : option string
}.

(** The [content] a GitHub file read ends with: bytes, text, or
    [undefined]. *)
Inductive GhContent : Type :=
| ContentBytes (bytes : list Byte.byte)
| ContentText (text : string)
| ContentUndefined.

(** What [_getFileResponse] resolves with. *)
Inductive FileResponse : Type :=
| Fetched (r : Response)
| GitHubFile (content : GhContent)
| NullResponse
| LocalFile (text : string).

(** The program state: the module-level [CACHE] (a partition per slug, a
    listing per directory key) and the world outside the program. *)
Record State (W : Type) : Type := mkState {
  CACHE : gmap string (gmap string DirectoryEntry);
  world : W
}.
Arguments mkState {W} CACHE world.
Arguments CACHE {W} s.
Arguments world {W} s.

(** ** The host platform *)

(** What the browser and the imported libraries provide.  A function of
    the world [W] may read and change it (network, user); the others are
    pure.  Promises of the host are taken to settle. *)
Record Host (W : Type) : Type := mkHost {
  (** [arr.sort((a, b) => naturalSort(a, b))] *)
  naturalSort_sort : list string -> list string;
  (** [new URL(s).href] *)
  URL_href : string -> Completion string;
  (** [new URL(s, base).href] *)
  URL_href_base : string -> string -> Completion string;
  (** [fetch(url, { headers })] *)
  fetch : string -> list (string * string) -> W -> Completion Response * W;
  (** [response.json()] read as a GitHub directory listing, as a file *)
  json_listing : string -> Completion GhListing;
  json_file : string -> Completion GhFile;
  (** the [accessToken] and [username] of the message that answers
      [postMessage('requestAuthToken')] *)
  authMessage : W -> (option string * option string) * W;
  (** [handle.queryPermission({ mode: 'read' })]: the state of the
      permission to read the folder, [granted], [denied] or [prompt]; the
      platform lets the folder be read in the state [granted] only *)
  queryPermission : FsHandle -> W -> string * W;
  (** what the permission prompt raised by
      [store.commit('setFileHandleForPermissionRequest', ...)] resolves with *)
  permissionPrompt : FsHandle -> W -> bool * W;
  (** [href] attribute and [textContent] of every [a] element of
      [new DOMParser().parseFromString(html, 'text/html')] *)
  DOM_anchors : string -> list (option string * string);
  (** [atob(s)], as a string of bytes *)
  atob : string -> Completion string;
  (** [new TextDecoder().decode(bytes)] *)
  TextDecoder_decode : list Byte.byte -> string;
  (** [pako.inflate(buffer)]: the inflated bytes; it throws on data that
      is not gzip data, and returns [undefined], [None] here, when the
      input ends before the stream does *)
  pako_inflate : list Byte.byte -> Completion (option (list Byte.byte));
  (** [micromatch.match(files, pattern)] *)
  micromatch_match : list string -> string -> list string;
  (** [findMatchingGlobInFiles(files, glob)] of js/util *)
  findMatchingGlobInFiles : list string -> string -> list string;
  (** [PIECES] of Globals *)
  PIECES : string;
  (** [_getFileFromChromeFileSystem], the file read through a folder
      handle, which is not part of this development *)
  getFileFromChromeFileSystem :
    HTTPFileSystem -> string -> State W -> Completion FileResponse * State W
}.
Arguments naturalSort_sort {W} h.
Arguments URL_href {W} h.
Arguments URL_href_base {W} h.
Arguments fetch {W} h.
Arguments json_listing {W} h.
Arguments json_file {W} h.
Arguments authMessage {W} h.
Arguments queryPermission {W} h.
Arguments permissionPrompt {W} h.
Arguments DOM_anchors {W} h.
Arguments atob {W} h.
Arguments TextDecoder_decode {W} h.
Arguments pako_inflate {W} h.
Arguments micromatch_match {W} h.
Arguments findMatchingGlobInFiles {W} h.
Arguments PIECES {W} h.
Arguments getFileFromChromeFileSystem {W} h.

(** A host call on the world, run in the program state. *)
Definition onWorld {W A} (f : W -> A * W) : M (State W) A :=
  fun st => let '(a, w) := f (world st) in (Ok a, mkState (CACHE st) w).

(** The same for a host call that may throw. *)
Definition onWorldC {W A} (f : W -> Completion A * W) : M (State W) A :=
  fun st => let '(c, w) := f (world st) in (c, mkState (CACHE st) w).

(** ** HTTPFileSystem *)

(** [BINARIES = /.*\.(avro|dbf|...|zst)$/]: the extensions. *)
Definition BINARIES : list string :=
  ["avro"; "dbf"; "gpkg"; "gz"; "h5"; "jpg"; "jpeg"; "omx"; "png"; "shp";
   "shx"; "sqlite"; "zip"; "zst"].

(** [BINARIES.test(s)]: the pattern is not anchored at the start, so it
    matches when [s] ends with a dot and one of the extensions. *)
Definition BINARIES_test (s : string) : bool :=
  existsb (fun ext => JS.endsWith s ("." +:+ ext)) BINARIES.

(** [YAML_FOLDERS] *)
Definition YAML_FOLDERS : list string := ["simwrapper"; ".simwrapper"].

Section Methods.

Context {W : Type} (host : Host W).

(** [constructor(project, store)]; it also opens the cache partition of
    the slug: [if (!CACHE[this.urlId]) CACHE[this.urlId] = {}]. *)
Definition new_HTTPFileSystem (project : FileSystemConfig) (store : option Store)
  : M (State W) HTTPFileSystem :=
  let this :=
    {| baseUrl := if JS.endsWith (baseURL project) "/" then baseURL project
                  else baseURL project +:+ "/";
       urlId := slug project;
       needsAuth := needPassword project;
       fsHandle := handle project;
       store := store;
       isGithub := cfg_isGithub project |} in
  fun st =>
    match CACHE st !! urlId this with
    | Some _ => (Ok this, st)
    | None => (Ok this, mkState (<[urlId this := ∅]> (CACHE st)) (world st))
    end.

Definition hasHandle (this : HTTPFileSystem) : bool :=
  match fsHandle this with Some _ => true | None => false end.

(** [getChromePermission(handle)] *)
Definition getChromePermission (this : HTTPFileSystem) (handle : option FsHandle)
  : M (State W) bool :=
  match handle with
  | None => ret true
  | Some h =>
      status <- onWorld (queryPermission host h) ;;
      if negb (String.eqb status "granted") then
        match store this with
        | None => ret true
        | Some _ =>
            resolved <- onWorld (permissionPrompt host h) ;;
            ret resolved
        end
      else ret true
  end.

(** [clearCache()] *)
Definition clearCache (this : HTTPFileSystem) : M (State W) unit :=
  modify (fun st => mkState (<[urlId this := ∅]> (CACHE st)) (world st)).

(** The colons that [:+] takes. *)
Fixpoint dropColons (s : string) : string :=
  match s with
  | String ":" s' => dropColons s'
  | _ => s
  end.

(** [scaryPath.replace(/^0-9a-zA-Z_\-\/:+/i, '')].  The pattern has no
    character class: it matches, at the start and in either letter case,
    the twelve characters [0-9a-zA-Z_-/] followed by one colon or more. *)
Definition replace_scary (scaryPath : string) : string :=
  let head := JS.toLocaleLowerCase (JS.take 12 scaryPath) in
  let rest := JS.sliceFrom 12 scaryPath in
  if String.eqb head "0-9a-za-z_-/" && JS.startsWith rest ":"
  then dropColons rest
  else scaryPath.

(** [cleanURL(scaryPath)] *)
Definition cleanURL (this : HTTPFileSystem) (scaryPath : string) : Completion string :=
  let path := baseUrl this +:+ replace_scary scaryPath in
  let path := JS.replaceAll path "//" "/" in
  let path := JS.replaceAll path "//" "/" in
  let path := JS.replaceFirst path "https:/" "https://" in
  let path := JS.replaceFirst path "http:/" "http://" in
  URL_href host path.

(** [s.replace(/^\/+/, '')] *)
Fixpoint stripLeadingSlashes (s : string) : string :=
  match s with
  | String "/" s' => stripLeadingSlashes s'
  | _ => s
  end.

(** [s.replace(/\/+$/, '')] *)
Fixpoint stripTrailingSlashes (s : string) : string :=
  match s with
  | EmptyString => EmptyString
  | String c s' =>
      let r := stripTrailingSlashes s' in
      if String.eqb r "" && Ascii.eqb c "/" then EmptyString else String c r
  end.

(** The exchange with the parent frame that both authenticated paths run:
    the promise resolves with the token and the user name when the message
    has both, and rejects otherwise; the caller then tests them again. *)
Definition requestAuthToken : M (State W) (string * string) :=
  data <- onWorld (authMessage host) ;;
  let accessToken := default "" (fst data) in
  let username := default "" (snd data) in
  if JS.truthy accessToken && JS.truthy username then
    if negb (JS.truthy accessToken) || negb (JS.truthy username)
    then throw (Error "No authentication token or username found. Please log in.")
    else ret (accessToken, username)
  else throw (Error "No token or username received from parent.").

(** [_getFileFetchResponse(scaryPath)] *)
Definition _getFileFetchResponse (this : HTTPFileSystem) (scaryPath : string)
  : M (State W) Response :=
  if needsAuth this then
    tu <- requestAuthToken ;;
    let headers := [("Authorization", "Bearer " +:+ fst tu)] in
    let scaryPath := stripTrailingSlashes (stripLeadingSlashes scaryPath) in
    let baseUrl' := if JS.endsWith (baseUrl this) "/" then JS.dropLast (baseUrl this)
                    else baseUrl this in
    let fullPath := baseUrl' +:+ "/" +:+ scaryPath in
    response <- onWorldC (fetch host fullPath headers) ;;
    if negb (ok response) then throw (ResponseObj (status response) (statusText response))
    else ret response
  else
    path <- settle (cleanURL this scaryPath) ;;
    response <- onWorldC (fetch host path []) ;;
    if negb (ok response) then throw (ResponseObj (status response) (statusText response))
    else ret response.

(** The start of both GitHub methods: the cleaned path, split. *)
Definition githubBits (scaryPath : string) : list string :=
  let path := replace_scary scaryPath in
  let path := JS.replaceAll path "//" "/" in
  let path := if JS.startsWith path "/" then JS.sliceFrom 1 path else path in
  filter (fun m => JS.truthy m = true) (JS.split path "/").

(** The request headers of both GitHub methods. *)
Definition githubHeaders : list (string * string) :=
  let z := JS.join "_" (rev ["11"; "pat"; "github"]) in
  let hexcode := "_SyKezxQUoOKXAx3HwTH51I4funGUSFfxdbGG2X4l3WvUHIW62GOOmO0OMWZ" in
  [("Authorization", "Bearer " +:+ z +:+ PIECES host +:+ hexcode)].

(** [fetch(ghUrl, { headers }).then(r => r.json())], read with [parse]. *)
Definition fetchJson {A} (parse : string -> Completion A) (ghUrl : string)
  : M (State W) A :=
  r <- onWorldC (fetch host ghUrl githubHeaders) ;;
  settle (parse (body r)).

(** The decoding step of [_getFileFromGitHub], from [json.encoding] on. *)
Definition decodeGitHubContent (scaryPath : string) (json : GhFile)
  : Completion GhContent :=
  if decide (gh_encoding json = Some "base64") then
    match atob host (default "undefined" (gh_content json)) with
    | Throw e => Throw e
    | Ok decoded =>
        let binaryString := String.list_byte_of_string decoded in
        if BINARIES_test (JS.toLocaleLowerCase scaryPath)
        then Ok (ContentBytes binaryString)
        else Ok (ContentText (TextDecoder_decode host binaryString))
    end
  else if decide (gh_encoding json = Some "utf-8") then
    match gh_content json with
    | Some _ => Throw (TypeError "TextDecoder.decode: the argument is not a buffer")
    | None => Ok (ContentText "")
    end
  else
    match gh_content json with
    | Some c => Ok (ContentText c)
    | None => Ok ContentUndefined
    end.

(** The requests of [_getFileFromGitHub]: the contents API and, when its
    answer has no content, the blob API with the [sha] of that answer. *)
Definition githubFileJson (ownerRepo : string) (bits : list string)
  : M (State W) GhFile :=
  let ghUrl := "https://api.github.com/repos/" +:+ ownerRepo +:+ "/contents/"
               +:+ JS.join "/" bits in
  json <- fetchJson (json_file host) ghUrl ;;
  if JS.truthy (default "" (gh_content json)) then ret json
  else
    let ghUrl := "https://api.github.com/repos/" +:+ ownerRepo
                 +:+ "/git/blobs/" +:+ default "undefined" (gh_sha json) in
    fetchJson (json_file host) ghUrl.

(** [_getFileFromGitHub(scaryPath)] *)
Definition _getFileFromGitHub (scaryPath : string) : M (State W) FileResponse :=
  match githubBits scaryPath with
  | owner :: repo :: bits =>
      json <- githubFileJson (owner +:+ "/" +:+ repo) bits ;;
      content <- settle (decodeGitHubContent scaryPath json) ;;
      ret (GitHubFile content)
  | _ => ret NullResponse
  end.

(** [_getDirectoryFromGitHub(scaryPath)] *)
Definition _getDirectoryFromGitHub (scaryPath : string) : M (State W) DirectoryEntry :=
  match githubBits scaryPath with
  | owner :: repo :: bits =>
      let ghUrl := "https://api.github.com/repos/" +:+ owner +:+ "/" +:+ repo
                   +:+ "/contents/" +:+ JS.join "/" bits in
      json <- fetchJson (json_listing host) ghUrl ;;
      match json with
      | GhNoArray => throw (TypeError "json.forEach is not a function")
      | GhArray entries =>
          ret {| files := map snd (filter (fun e => fst e = "file") entries);
                 dirs := map snd (filter (fun e => fst e = "dir") entries);
                 handles := ∅; html := None |}
      end
  | _ => ret emptyEntry
  end.

(** [_getFileResponse(scaryPath)] *)
Definition _getFileResponse (this : HTTPFileSystem) (scaryPath : string)
  : M (State W) FileResponse :=
  match fsHandle this with
  | Some _ => getFileFromChromeFileSystem host this scaryPath
  | None =>
      if isGithub this then _getFileFromGitHub scaryPath
      else r <- _getFileFetchResponse this scaryPath ;; ret (Fetched r)
  end.

End Methods.

(** ** Local folder handles *)

(** Iterating a handle, [for await (... of currentDir)]: only a directory
    can be iterated. *)
Definition handle_entries (h : FsHandle) : Completion (list FsHandle) :=
  match h with
  | DirectoryHandle _ entries => Ok entries
  | FileHandle _ => Throw (TypeError "currentDir is not async iterable")
  end.

(** [currentDir.values()], which the listing loop iterates: a file handle
    has no [values]. *)
Definition handle_values (h : FsHandle) : Completion (list FsHandle) :=
  match h with
  | DirectoryHandle _ entries => Ok entries
  | FileHandle _ => Throw (TypeError "currentDir.values is not a function")
  end.

(** What the platform throws when a folder is read without the permission
    to read it: a [DOMException] with the name [NotAllowedError]. *)
Definition NotAllowedError : Thrown :=
  ErrorObj "NotAllowedError"
    "The request is not allowed by the user agent or the platform in the current context.".

(** The top-down walk of [getDirectoryFromHandle]: at each level the first
    entry with the name of the subfolder becomes the current directory. *)
Fixpoint walkFolders (currentDir : FsHandle) (cleanDirParts : list string)
  : Completion FsHandle :=
  match cleanDirParts with
  | [] => Ok currentDir
  | subfolder :: rest =>
      match handle_entries currentDir with
      | Throw e => Throw e
      | Ok entries =>
          match List.find (fun h => String.eqb (handle_name h) subfolder) entries with
          | Some h => walkFolders h rest
          | None =>
              Throw (Error ("Could not find folder " +:+ JS.dquote +:+ subfolder
                            +:+ JS.dquote))
          end
      end
  end.

(** The listing loop of [getDirectoryFromHandle] over the entries of the
    directory reached. *)
Definition listEntries (entries : list FsHandle) : DirectoryEntry :=
  fold_left
    (fun contents entry =>
       let handles' := <[handle_name entry := entry]> (handles contents) in
       if handle_is_file entry
       then {| files := files contents ++ [handle_name entry];
               dirs := dirs contents; handles := handles'; html := html contents |}
       else {| files := files contents;
               dirs := dirs contents ++ [handle_name entry];
               handles := handles'; html := html contents |})
    entries emptyEntry.

(** The walk and the listing loop of [getDirectoryFromHandle], from the
    folder handle [h].  Both read folders, and the first folder read is
    [h] itself, in the walk when there is a segment to follow and in the
    listing loop when there is none: without the permission to read it
    ([readable] is [false]) that first read throws. *)
Definition readFolder (readable : bool) (h : FsHandle) (cleanDirParts : list string)
  : Completion DirectoryEntry :=
  match h, readable with
  | DirectoryHandle _ _, false => Throw NotAllowedError
  | _, _ =>
      match walkFolders h cleanDirParts with
      | Throw e => Throw e
      | Ok currentDir =>
          match handle_values currentDir with
          | Throw e => Throw e
          | Ok entries => Ok (listEntries entries)
          end
      end
  end.

Section Adapters.

Context {W : Type} (host : Host W).

(** Whether the platform lets the page read the folder now: the state of
    the permission is [granted], as [queryPermission] reports it in this
    world.  The look changes nothing. *)
Definition readPermitted (h : FsHandle) (st : State W) : bool :=
  String.eqb (fst (queryPermission host h (world st))) "granted".

(** [getDirectoryFromHandle(stillScaryPath)] *)
Definition getDirectoryFromHandle (this : HTTPFileSystem) (stillScaryPath : string)
  : M (State W) DirectoryEntry :=
  let contents := emptyEntry in
  match fsHandle this with
  | None => ret contents
  | Some h =>
      granted <- getChromePermission host this (fsHandle this) ;;
      if negb granted then ret contents
      else
        let parts := filter (fun p => JS.truthy p = true) (JS.split stillScaryPath "/") in
        let cleanDirParts := eatDots parts in
        readable <- gets (readPermitted h) ;;
        settle (readFolder readable h cleanDirParts)
  end.

End Adapters.

(** ** Directory-listing parsers *)

(** The end of every parser loop: a name with a trailing slash is a
    directory and loses that slash, any other name is a file.  The pair
    is [(dirs, files)]. *)
Definition pushEntry (acc : list string * list string) (name : string)
  : list string * list string :=
  if JS.endsWith name "/"
  then (fst acc ++ [JS.substring name 0 (Z.of_nat (String.length name) - 1)], snd acc)
  else (fst acc, snd acc ++ [name]).

Definition entryOf (acc : list string * list string) : DirectoryEntry :=
  {| dirs := fst acc; files := snd acc; handles := ∅; html := None |}.

(** The regular expression [/"(.*?)"/]. *)
Definition matchQuoted (s : string) : option string :=
  JS.matchBetween JS.dquote JS.dquote s.

(** The loop that the line parsers share: [nameOf] is one turn, the name
    that the line adds, or [None] where the loop [continue]s. *)
Definition listNames (nameOf : string -> option string) (lines : list string)
  : list string * list string :=
  fold_left
    (fun acc line =>
       match nameOf line with
       | None => acc
       | Some name => pushEntry acc name
       end)
    lines ([], []).

(** [data.split('\n')] *)
Definition linesOf (data : string) : list string :=
  JS.split data (String (ascii_of_nat 10) EmptyString).

(** One turn of the loop of [buildListFromSimpleWebServer]. *)
Definition simpleWebServerName (line : string) : option string :=
  let href := JS.indexOf line ("<li><a href=" +:+ JS.dquote) in
  if href <? 0 then None
  else JS.matchBetween (JS.dquote +:+ ">") "</a" line.

Definition buildListFromSimpleWebServer (data : string) : DirectoryEntry :=
  entryOf (listNames simpleWebServerName (linesOf data)).

(** One turn of the loop of [buildListFromNpxServe]. *)
Definition npxServeName (line : string) : option string :=
  let href := JS.indexOf line ("<li> <a href=" +:+ JS.dquote) in
  if (href <? 0) || (512 <? href) then None
  else match matchQuoted line with
       | None => None
       | Some name =>
           let name := JS.replaceAll name "&#47;" "/" in
           if String.eqb name "/" then None
           else if String.eqb name "../" then None
           else Some name
       end.

(** [d.slice(1 + d.lastIndexOf('/'))] *)
Definition lastSegment (d : string) : string :=
  JS.slice d (1 + JS.lastIndexOf d "/").

Definition buildListFromNpxServe (data : string) : DirectoryEntry :=
  let lines := map (fun line => JS.slice line (JS.lastIndexOf line "<li"))
                   (JS.split data "</li>") in
  let acc := listNames npxServeName lines in
  entryOf (map lastSegment (fst acc), map lastSegment (snd acc)).

(** One turn of the loop of [buildListFromSVN]. *)
Definition svnName (line : string) : option string :=
  let href := JS.indexOf line ("<li><a href=" +:+ JS.dquote) in
  if href <? 0 then None
  else match matchQuoted line with
       | None => None
       | Some name =>
           if String.eqb name "../" then None
           else Some (if JS.startsWith name "./" then JS.substringFrom name 2 else name)
       end.

Definition buildListFromSVN (data : string) : DirectoryEntry :=
  entryOf (listNames svnName (linesOf data)).

(** One turn of the loop of [buildListFromApache24]. *)
Definition apache24Name (line : string) : option string :=
  if -1 <? JS.indexOf line ("<th " +:+ JS.dquote) then None
  else if -1 <? JS.indexOf line "[PARENTDIR]" then None
  else
    let href := JS.indexOf line ("<td><a href=" +:+ JS.dquote) in
    if href <? 0 then None
    else match matchQuoted (JS.substringFrom line href) with
         | None => None
         | Some name => if String.eqb name "../" then None else Some name
         end.

Definition buildListFromApache24 (data : string) : DirectoryEntry :=
  entryOf (listNames apache24Name (linesOf data)).

(** One turn of the loop of [buildListFromNGINX]. *)
Definition nginxName (line : string) : option string :=
  let href := JS.indexOf line ("<a href=" +:+ JS.dquote) in
  if href <? 0 then None
  else match matchQuoted (JS.substringFrom line href) with
       | None => None
       | Some name => if String.eqb name "../" then None else Some name
       end.

Definition buildListFromNGINX (data : string) : DirectoryEntry :=
  entryOf (listNames nginxName (linesOf data)).

(** [buildListFromHtml(data)]: the dialects are tried in this order. *)
Definition buildListFromHtml (data : string) : DirectoryEntry :=
  if -1 <? JS.indexOf data "SimpleWebServer" then buildListFromSimpleWebServer data
  else if -1 <? JS.indexOf data "<ul>" then buildListFromSVN data
  else if -1 <? JS.indexOf data ("<ul id=" +:+ JS.dquote +:+ "files" +:+ JS.dquote +:+ ">")
       then buildListFromNpxServe data
  else if -1 <? JS.indexOf data "<table>" then buildListFromApache24 data
  else if -1 <? JS.indexOf data (String (ascii_of_nat 10) "<a ") then buildListFromNGINX data
  else emptyEntry.

(** [href.replace(/\/$/, '')]: one trailing slash is removed. *)
Definition dropTrailingSlash (href : string) : string :=
  if JS.endsWith href "/" then JS.dropLast href else href.

(** The loop of [parseHtmlDirectoryListing] over the anchors of the
    document, each with its [href] attribute and its text content.  The
    pair is [(files, dirs)]. *)
Definition parseAnchors (links : list (option string * string))
  : list string * list string :=
  fold_left
    (fun acc link =>
       let href := fst link in
       let text := JS.trim (snd link) in
       if bool_decide (href = Some "../") || String.eqb text ".." then acc
       else
         match href with
         | Some href =>
             if JS.truthy href && JS.truthy text then
               if JS.endsWith href "/" && JS.endsWith text "/"
               then (fst acc, snd acc ++ [dropTrailingSlash href])
               else if negb (JS.endsWith href "/") && negb (JS.endsWith text "/")
                    then (fst acc ++ [href], snd acc)
                    else acc
             else acc
         | None => acc
         end)
    links ([], []).

(** ** The front door *)

(** [/\.[a-zA-Z0-9]+$/.test(s)]: a dot and then letters or digits, one at
    least, up to the end. *)
Definition isAlnum (c : ascii) : bool :=
  let n := nat_of_ascii c in
  ((48 <=? n) && (n <=? 57) || (65 <=? n) && (n <=? 90) || (97 <=? n) && (n <=? 122))%nat.

Fixpoint allAlnum (s : string) : bool :=
  match s with
  | EmptyString => true
  | String c s' => isAlnum c && allAlnum s'
  end.

Fixpoint hasDotExtension (s : string) : bool :=
  match s with
  | EmptyString => false
  | String c s' =>
      (Ascii.eqb c "." && negb (String.eqb s' EmptyString) && allAlnum s')
      || hasDotExtension s'
  end.

(** [response.text()] of what [_getFileResponse] resolved with, as
    [buildListFromHtml] reads it: a byte array has an [indexOf] that finds
    no string, so no dialect matches it. *)
Definition listingOfResponse (response : FileResponse) : Completion DirectoryEntry :=
  match response with
  | Fetched r => Ok (buildListFromHtml (body r))
  | LocalFile text => Ok (buildListFromHtml text)
  | GitHubFile (ContentText text) => Ok (buildListFromHtml text)
  | GitHubFile (ContentBytes _) => Ok emptyEntry
  | GitHubFile ContentUndefined =>
      Throw (TypeError "Cannot read properties of undefined (reading 'indexOf')")
  | NullResponse => Throw (TypeError "Cannot read properties of null (reading 'text')")
  end.

Section FrontDoor.

Context {W : Type} (host : Host W).

(** [parseHtmlDirectoryListing(htmlText)] *)
Definition parseHtmlDirectoryListing (htmlText : string) : list string * list string :=
  parseAnchors (DOM_anchors host htmlText).

(** [_getDirectoryFromAWS(scaryPath)] *)
Definition _getDirectoryFromAWS (this : HTTPFileSystem) (scaryPath : string)
  : M (State W) DirectoryEntry :=
  tu <- requestAuthToken host ;;
  let headers := [("Authorization", "Bearer " +:+ fst tu)] in
  let scaryPath := stripLeadingSlashes scaryPath in
  fullPath <- settle (URL_href_base host scaryPath (baseUrl this)) ;;
  let isDirectory := negb (hasDotExtension scaryPath) in
  let normalizedPath := if isDirectory then stripTrailingSlashes fullPath +:+ "/"
                        else stripTrailingSlashes fullPath in
  response <- onWorldC (fetch host normalizedPath headers) ;;
  if negb (ok response)
  then throw (Error ("Failed to fetch AWS directory: " +:+ statusText response))
  else
    let htmlText := body response in
    let fd := parseHtmlDirectoryListing htmlText in
    ret {| files := fst fd; dirs := snd fd; handles := ∅; html := Some htmlText |}.

(** [getDirectoryFromURL(stillScaryPath)] *)
Definition getDirectoryFromURL (this : HTTPFileSystem) (stillScaryPath : string)
  : M (State W) DirectoryEntry :=
  response <- _getFileResponse host this stillScaryPath ;;
  settle (listingOfResponse response).

(** The choice of the adapter in [getDirectory]. *)
Definition listBackend (this : HTTPFileSystem) (stillScaryPath : string)
  : M (State W) DirectoryEntry :=
  match fsHandle this with
  | Some _ => getDirectoryFromHandle host this stillScaryPath
  | None =>
      if isGithub this then _getDirectoryFromGitHub host stillScaryPath
      else if needsAuth this then _getDirectoryFromAWS this stillScaryPath
      else getDirectoryFromURL this stillScaryPath
  end.

(** The key [getDirectory] looks up: duplicate slashes replaced once over
    the string, and a slash added at the end when there is none. *)
Definition lookupKey (scaryPath : string) : string :=
  let stillScaryPath := JS.replaceAll scaryPath "//" "/" in
  if JS.endsWith stillScaryPath "/" then stillScaryPath else stillScaryPath +:+ "/".

(** The path given to the adapter, which is also the key written. *)
Definition storeKey (scaryPath : string) : string :=
  JS.replaceAll (lookupKey scaryPath) "/./" "/".

(** [dirEntry.dirs.sort(...)] and [dirEntry.files.sort(...)] *)
Definition sortEntry (dirEntry : DirectoryEntry) : DirectoryEntry :=
  {| files := naturalSort_sort host (files dirEntry);
     dirs := naturalSort_sort host (dirs dirEntry);
     handles := handles dirEntry;
     html := html dirEntry |}.

(** [CACHE[this.urlId][key] = dirEntry] *)
Definition cacheWrite (this : HTTPFileSystem) (key : string) (dirEntry : DirectoryEntry)
  : M (State W) unit :=
  fun st =>
    match CACHE st !! urlId this with
    | Some partition =>
        (Ok tt, mkState (<[urlId this := <[key := dirEntry]> partition]> (CACHE st))
                        (world st))
    | None =>
        (Throw (TypeError "Cannot set properties of undefined"), st)
    end.

(** [getDirectory(scaryPath)] *)
Definition getDirectory (this : HTTPFileSystem) (scaryPath : string)
  : M (State W) DirectoryEntry :=
  let stillScaryPath := lookupKey scaryPath in
  fun st =>
    match CACHE st !! urlId this with
    | None => (Throw (TypeError "Cannot read properties of undefined"), st)
    | Some partition =>
        match partition !! stillScaryPath with
        | Some cachedEntry => (Ok cachedEntry, st)
        | None =>
            let stillScaryPath := JS.replaceAll stillScaryPath "/./" "/" in
            try_catch
              (dirEntry <- listBackend this stillScaryPath ;;
               let dirEntry := sortEntry dirEntry in
               cacheWrite this stillScaryPath dirEntry ;;;
               ret dirEntry)
              (fun e => throw (Error ("" +:+ toStr e)))
              st
        end
    end.

(** *** Config discovery *)

(** [micromatch.match(files, pattern).map(yaml => (map[yaml] = ...))] *)
Definition recordMatches (configFolder : string) (matches : list string)
  (mapping : gmap string string) : gmap string string :=
  fold_left
    (fun mapping yaml =>
       <[yaml := JS.replaceAll (configFolder +:+ "/" +:+ yaml) "//" "/"]> mapping)
    matches mapping.

Definition dashboard : string := "dashboard*.y?(a)ml".
Definition topsheet : string := "(topsheet|table)*.y?(a)ml".
Definition viz : string := "viz*.y?(a)ml".
Definition config : string := "simwrapper-config.y?(a)ml".

(** The body of the second loop of [findAllYamlConfigs], given the files
    listed in [configFolder]. *)
Definition recordFolder (configFolder : string) (files : list string)
  (yamls : YamlConfigs) : YamlConfigs :=
  {| dashboards :=
       recordMatches configFolder (micromatch_match host files dashboard) (dashboards yamls);
     topsheets :=
       recordMatches configFolder (micromatch_match host files topsheet) (topsheets yamls);
     vizes :=
       recordMatches configFolder (micromatch_match host files viz) (vizes yamls);
     configs :=
       recordMatches configFolder (micromatch_match host files config) (configs yamls) |}.

(** The second loop of [findAllYamlConfigs]. *)
Definition scanConfigFolders (this : HTTPFileSystem) (configFolders : list string)
  (yamls : YamlConfigs) : M (State W) YamlConfigs :=
  foldM
    (fun yamls configFolder =>
       entry <- getDirectory this configFolder ;;
       ret (recordFolder configFolder (files entry) yamls))
    yamls configFolders.

(** The config folders found in one listed ancestor. *)
Definition yamlFoldersIn (currentPath : string) (dirs : list string) : list string :=
  map (fun dir => JS.replaceAll (currentPath +:+ "/" +:+ dir) "//" "/")
      (filter (fun dir => JS.toLocaleLowerCase dir ∈ YAML_FOLDERS) dirs).

(** One turn of the first loop of [findAllYamlConfigs]: the next ancestor
    is listed, and a failure of the listing is swallowed.  [acc] is
    [(currentPath, configFolders)]. *)
Definition listAncestor (this : HTTPFileSystem) (acc : string * list string)
  (chunk : string) : M (State W) (string * list string) :=
  let currentPath := JS.replaceAll (fst acc +:+ chunk +:+ "/") "//" "/" in
  found <- try_catch
             (entry <- getDirectory this currentPath ;;
              ret (yamlFoldersIn currentPath (dirs entry)))
             (fun _ => ret []) ;;
  ret (currentPath, snd acc ++ found).

(** [pathChunks.slice(0, pathChunks.length - 1)] *)
Definition ancestorChunks (folder : string) : list string :=
  let fullFolder := if JS.startsWith folder "/" then folder else "/" +:+ folder in
  let pathChunks := JS.split fullFolder "/" in
  take (length pathChunks - 1) pathChunks.

(** The first loop of [findAllYamlConfigs] and the [push] that follows it:
    the config folders of the ancestors, then [folder] itself. *)
Definition findConfigFolders (this : HTTPFileSystem) (folder : string)
  : M (State W) (list string) :=
  walked <- foldM (listAncestor this) ("/", []) (ancestorChunks folder) ;;
  ret (snd walked ++ [folder]).

(** [findAllYamlConfigs(folder)] *)
Definition findAllYamlConfigs (this : HTTPFileSystem) (folder : string)
  : M (State W) YamlConfigs :=
  let yamls := {| dashboards := ∅; topsheets := ∅; vizes := ∅; configs := ∅ |} in
  configFolders <- findConfigFolders this folder ;;
  scanConfigFolders this configFolders yamls.

(** *** Decompression *)

(** [header[0] === 0x1f && header[1] === 0x8b] on the first two bytes. *)
Definition hasGzipMagic (buffer : list Byte.byte) : bool :=
  match buffer with
  | b0 :: b1 :: _ => Byte.eqb b0 x1f && Byte.eqb b1 x8b
  | _ => false
  end.

(** [gUnzip(buffer)].  The recursion follows what [pako.inflate] returns
    and has no bound in the source; [fuel] bounds its depth here, and
    [None] means that the bound was reached.  When [pako.inflate] returns
    [undefined], the recursive call throws at [buffer.slice]. *)
Fixpoint gUnzip (fuel : nat) (buffer : list Byte.byte)
  : option (Completion (list Byte.byte)) :=
  match fuel with
  | O => None
  | S fuel' =>
      if hasGzipMagic buffer then
        match pako_inflate host buffer with
        | Ok (Some inflated) => gUnzip fuel' inflated
        | Ok None =>
            Some (Throw (TypeError
                           "Cannot read properties of undefined (reading 'slice')"))
        | Throw e => Some (Throw e)
        end
      else Some (Ok buffer)
  end.

End FrontDoor.

(** ** Reading a file as text *)

(** [response.text()] of what [_getFileResponse] resolved with: the body
    of a fetched response, the text of a local file, the [content] of a
    GitHub file as it was decoded; [null] has no [text]. *)
Definition responseText (response : FileResponse) : Completion GhContent :=
  match response with
  | Fetched r => Ok (ContentText (body r))
  | LocalFile text => Ok (ContentText text)
  | GitHubFile content => Ok content
  | NullResponse => Throw (TypeError "Cannot read properties of null (reading 'text')")
  end.

(** [getFileText(scaryPath)] *)
Definition getFileText {W} (host : Host W) (this : HTTPFileSystem) (scaryPath : string)
  : M (State W) GhContent :=
  response <- _getFileResponse host this scaryPath ;;
  settle (responseText response).

(** ** Reading a file through a folder handle *)

(** The names that a plain object answers for without having them, the
    properties of [Object.prototype]: [handles[name]] is a function or an
    object for them, not [undefined]. *)
Definition Object_prototype : list string :=
  ["constructor"; "hasOwnProperty"; "isPrototypeOf"; "propertyIsEnumerable";
   "toLocaleString"; "toString"; "valueOf"; "__proto__"; "__defineGetter__";
   "__defineSetter__"; "__lookupGetter__"; "__lookupSetter__"].

(** [_getFileFromChromeFileSystem(scaryPath)] up to the call of [getFile]:
    the path is cleaned and resolved, its folder is listed through
    [getDirectory], the file is looked up in the handles of the listing,
    and [getFile] is called on what was found.
<<
    let path = scaryPath.replace(/^0-9a-zA-Z_\-\/:+/i, '');
    path = path.replaceAll('//', '/');
    path = new URL(`http://local/${path}`).href;
    path = path.substring(13);
    const slash = path.lastIndexOf('/');
    const folder = path.substring(0, slash);
    const filename = path.substring(slash + 1);
    const dirContents = await this.getDirectory(folder);
    const fileHandle = dirContents.handles[filename];
    if (!fileHandle) throw Error(`File ${filename} missing`);
    const file = (await fileHandle.getFile()) as any;
>>
    The result is the handle of the file that [getFile] is called on.  A
    folder handle has no [getFile], and neither has the value found for a
    name that the listing lacks and [Object.prototype] has: for these the
    call throws. *)
Definition fileHandleOf {W} (host : Host W) (this : HTTPFileSystem) (scaryPath : string)
  : M (State W) FsHandle :=
  let path := replace_scary scaryPath in
  let path := JS.replaceAll path "//" "/" in
  path <- settle (URL_href host ("http://local/" +:+ path)) ;;
  let path := JS.substringFrom path 13 in
  let slash := JS.lastIndexOf path "/" in
  let folder := JS.substring path 0 slash in
  let filename := JS.substringFrom path (slash + 1) in
  dirContents <- getDirectory host this folder ;;
  match handles dirContents !! filename with
  | Some (FileHandle name) => ret (FileHandle name)
  | Some (DirectoryHandle _ _) =>
      throw (TypeError "fileHandle.getFile is not a function")
  | None =>
      if bool_decide (filename ∈ Object_prototype)
      then throw (TypeError "fileHandle.getFile is not a function")
      else throw (Error ("File " +:+ filename +:+ " missing"))
  end.

(** ** fileSystemConfig: local folders *)

Module fileSystemConfig.

(** A number as the slug computation meets it: [NaN], an integer that is
    a double (every integer below [2^53] is one; above, the doubles are
    the multiples of a power of two), or an infinity. *)
Inductive JsNumber : Type :=
| NaN
| Int (n : Z)
| Infinity (negative : bool).

(** The double nearest to the integer [m], for [0 <= m]: from [2^53] on
    [m] is rounded to 53 significant bits, a tie to the even one, and to
    [Infinity] when that reaches [2^1024]. *)
Definition nearestDouble (m : Z) : JsNumber :=
  if m <? 2 ^ 53 then Int m
  else
    let e := Z.log2 m - 52 in
    let q := m / 2 ^ e in
    let r := m mod 2 ^ e in
    let half := 2 ^ (e - 1) in
    let q := if (half <? r) || ((r =? half) && Z.odd q) then q + 1 else q in
    if 2 ^ 1024 <=? q * 2 ^ e then Infinity false else Int (q * 2 ^ e).

Definition negate (x : JsNumber) : JsNumber :=
  match x with
  | NaN => NaN
  | Int n => Int (- n)
  | Infinity negative => Infinity (negb negative)
  end.

(** The number that an integer of any size becomes. *)
Definition toNumber (m : Z) : JsNumber :=
  if m <? 0 then negate (nearestDouble (- m)) else nearestDouble m.

Definition digitValue (c : ascii) : option Z :=
  let n := nat_of_ascii c in
  if ((48 <=? n) && (n <=? 57))%nat then Some (Z.of_nat n - 48) else None.

Definition hexValue (c : ascii) : option Z :=
  let n := nat_of_ascii c in
  if ((48 <=? n) && (n <=? 57))%nat then Some (Z.of_nat n - 48)
  else if ((97 <=? n) && (n <=? 102))%nat then Some (Z.of_nat n - 87)
  else if ((65 <=? n) && (n <=? 70))%nat then Some (Z.of_nat n - 55)
  else None.

(** The digits at the start of [s] read in [radix], up to the first
    character that is no digit; [acc] is [None] until a digit was read. *)
Fixpoint readDigits (radix : Z) (value : ascii -> option Z) (s : string)
  (acc : option Z) : option Z :=
  match s with
  | EmptyString => acc
  | String c s' =>
      match value c with
      | Some d => readDigits radix value s' (Some (default 0 acc * radix + d))
      | None => acc
      end
  end.

(** [parseInt(s)], no radix given: white space, a sign, [0x] or [0X] for
    base 16, then digits; [NaN] when there is no digit.  The integer read
    becomes the double nearest to it, which is what the browsers that
    have folder handles compute, also for more than twenty digits.  A
    negative zero is read as [0]: [Math.max] with a [max] that is not
    negative, and the addition after it, do not tell them apart. *)
Definition parseInt (s : string) : JsNumber :=
  let s := JS.trimStart s in
  let sign := if JS.startsWith s "-" then -1 else 1 in
  let s := if JS.startsWith s "+" || JS.startsWith s "-" then JS.sliceFrom 1 s else s in
  let mathInt :=
    if JS.startsWith s "0x" || JS.startsWith s "0X"
    then readDigits 16 hexValue (JS.sliceFrom 2 s) None
    else readDigits 10 digitValue s None in
  match mathInt with
  | None => NaN
  | Some m => if sign <? 0 then negate (nearestDouble m) else nearestDouble m
  end.

(** [Math.max(a, b)] *)
Definition Math_max (a b : JsNumber) : JsNumber :=
  match a, b with
  | NaN, _ | _, NaN => NaN
  | Infinity false, _ | _, Infinity false => Infinity false
  | Infinity true, x | x, Infinity true => x
  | Int x, Int y => Int (Z.max x y)
  end.

(** [x + 1]: the sum is rounded to a double again. *)
Definition plusOne (x : JsNumber) : JsNumber :=
  match x with
  | Int n => toNumber (n + 1)
  | NaN | Infinity _ => x
  end.

(** The decimal digits of [n], for [0 <= n]; [fuel] bounds their number,
    less one. *)
Fixpoint decimal_go (fuel : nat) (n : Z) (acc : string) : string :=
  let acc' := String (ascii_of_nat (48 + Z.to_nat (n mod 10))) acc in
  match fuel with
  | O => acc'
  | S fuel' => if n <? 10 then acc' else decimal_go fuel' (n / 10) acc'
  end.

Definition decimal (n : Z) : string := decimal_go (Z.to_nat (Z.log2 n)) n EmptyString.

(** [n] times the character [c]. *)
Fixpoint run (c : ascii) (n : nat) : string :=
  match n with
  | O => EmptyString
  | S n' => String c (run c n')
  end.

(** The digits that a double [v] from [2^53] on is printed with: the
    integer [c] and the power of ten [j] with [c * 10^j] a number that
    reads back as [v], [j] as large as can be (so [c] has as few digits as
    can be), and of these the one nearest to [v].  The multiples of [10^j]
    next to [v], below and above, are tried, from [j] down. *)
Fixpoint shortestDigits (j : nat) (v : Z) : Z * nat :=
  let p := 10 ^ Z.of_nat j in
  let below := v / p in
  let above := below + 1 in
  let readsBack (c : Z) :=
    (0 <? c) && match nearestDouble (c * p) with
                | Int v' => v' =? v
                | NaN | Infinity _ => false
                end in
  let nearer := if v - below * p <? above * p - v then below
                else if above * p - v <? v - below * p then above
                else if Z.even below then below else above in
  let found := if readsBack below && readsBack above then Some nearer
               else if readsBack below then Some below
               else if readsBack above then Some above
               else None in
  match found, j with
  | Some c, _ => (c, j)
  | None, O => (v, O)
  | None, S j' => shortestDigits j' v
  end.

(** A double that is an integer, [0 <= v], as a string: an integer below
    [2^53] with all its digits; a larger one with its shortest digits,
    followed by zeros up to 21 digits in all, and beyond that with an
    exponent, as in [1.1805916207174113e+21]. *)
Definition printDouble (v : Z) : string :=
  if v <? 2 ^ 53 then decimal v
  else
    let '(c, j) := shortestDigits (String.length (decimal v)) v in
    let digits := decimal c in
    let n := (String.length digits + j)%nat in
    if (n <=? 21)%nat then digits +:+ run "0" j
    else
      match digits with
      | EmptyString => EmptyString
      | String d rest =>
          String d (if String.eqb rest EmptyString then EmptyString else "." +:+ rest)
          +:+ "e+" +:+ decimal (Z.of_nat n - 1)
      end.

(** A number inside a template literal. *)
Definition numberToString (x : JsNumber) : string :=
  match x with
  | NaN => "NaN"
  | Infinity false => "Infinity"
  | Infinity true => "-Infinity"
  | Int n => if n <? 0 then "-" +:+ printDouble (- n) else printDouble n
  end.

(** The slug that [addLocalFilesystem] makes up when it is given no key:
<<
    let max = 0;
    globalStore.state.localFileHandles.forEach(local => {
      const fs = local.key.split('-')[0];
      const num = parseInt(fs.substring(2));
      max = Math.max(max, num);
    });
    slug = `fs${max + 1}-${handle.name}`;
>>
    [keys] are the keys of the local file handles of the store. *)
Definition keyNumber (key : string) : JsNumber :=
  let fs := hd EmptyString (JS.split key "-") in
  parseInt (JS.substringFrom fs 2).

Definition nextSlug (keys : list string) (name : string) : string :=
  let max := fold_left (fun max key => Math_max max (keyNumber key)) keys (Int 0) in
  "fs" +:+ numberToString (plusOne max) +:+ "-" +:+ name.

(** The configuration of a local folder: [{ name, slug, description:
    'Local folder', handle, baseURL: '' }], the fields of the record. *)
Definition localFolder (slug : string) (handle : FsHandle) : FileSystemConfig :=
  {| slug := slug; baseURL := EmptyString; needPassword := false;
     handle := Some handle; cfg_isGithub := false |}.

(** [addLocalFilesystem(handle, key)] on the list [fileSystems]: the slug
    it returns and the list afterwards.  The commit to the store and the
    write to the browser database are outside this development. *)
Definition addLocalFilesystem (keys : list string) (handle : FsHandle)
  (key : option string) (fileSystems : list FileSystemConfig)
  : string * list FileSystemConfig :=
  let slug := if JS.truthy (default EmptyString key) then default EmptyString key
              else nextSlug keys (handle_name handle) in
  (slug, localFolder slug handle :: fileSystems).

Example numbers_read_and_printed :
  numberToString (parseInt "0012") = "12" /\
  numberToString (parseInt "9007199254740993") = "9007199254740992" /\
  numberToString (plusOne (Int (2 ^ 53))) = "9007199254740992" /\
  numberToString (plusOne (Int (2 ^ 53 + 2))) = "9007199254740996" /\
  numberToString (parseInt "18014398509482008") = "18014398509482010" /\
  numberToString (Int (2 ^ 60)) = "1152921504606847000" /\
  numberToString (Int (2 ^ 64)) = "18446744073709552000" /\
  numberToString (parseInt "1000000000000000000000") = "1e+21" /\
  numberToString (Int (2 ^ 70)) = "1.1805916207174113e+21" /\
  numberToString (Int (2 ^ 100)) = "1.2676506002282294e+30" /\
  numberToString (parseInt ("-0x1F")) = "-31" /\
  parseInt "Infinity" = NaN /\
  parseInt (run "9" 400) = Infinity false.
Proof. repeat (apply conj; [vm_compute; reflexivity|]). vm_compute. reflexivity. Qed.

(** [addInitialLocalFilesystems(filesystems)] on the list [fileSystems]:
    every folder is put at the front, one after the other. *)
Definition addInitialLocalFilesystems (filesystems : list (FsHandle * string))
  (fileSystems : list FileSystemConfig) : list FileSystemConfig :=
  fold_left
    (fun fileSystems fsystem => localFolder (snd fsystem) (fst fsystem) :: fileSystems)
    filesystems fileSystems.

(** The state of the configuration module: the outside world, and what
    was written with [console.error], each time a label and the value
    logged after it. *)
Record ConfigState (W : Type) : Type := mkConfigState {
  outside : W;
  logged : list (string * Thrown)
}.
Arguments mkConfigState {W} outside logged.
Arguments outside {W} c.
Arguments logged {W} c.

Section S3.

Context {W : Type} (host : Host W).

(** [getAuthTokenAndUsername()]: the exchange with the parent frame. *)
Definition getAuthTokenAndUsername : M (ConfigState W) (string * string) :=
  fun st =>
    let '(data, w) := authMessage host (outside st) in
    let accessToken := default EmptyString (fst data) in
    let username := default EmptyString (snd data) in
    (if JS.truthy accessToken && JS.truthy username
     then Ok (accessToken, username)
     else Throw (Error "No token or username received from parent."),
     mkConfigState w (logged st)).

Definition console_error (label : string) (value : Thrown) : M (ConfigState W) unit :=
  modify (fun st => mkConfigState (outside st) (logged st ++ [(label, value)])).

(** [getS3BaseURL()] *)
Definition getS3BaseURL : M (ConfigState W) string :=
  try_catch
    (tu <- getAuthTokenAndUsername ;;
     ret ("https://d3o15hrk68p27o.cloudfront.net/user-scenarios/" +:+ snd tu +:+ "/"))
    (fun error =>
       console_error "Failed to fetch username:" error ;;;
       throw (Error "User is not logged in. Please log in to access the S3 bucket.")).

(** [const s3Config = fileSystems.find(fs => fs.slug === 's3');
     if (s3Config) s3Config.baseURL = s3BaseURL]: the first file system
    with the slug [s3] gets the base URL. *)
Fixpoint setS3 (s3BaseURL : string) (fileSystems : list FileSystemConfig)
  : list FileSystemConfig :=
  match fileSystems with
  | [] => []
  | fs :: rest =>
      if String.eqb (slug fs) "s3"
      then {| slug := slug fs; baseURL := s3BaseURL; needPassword := needPassword fs;
              handle := handle fs; cfg_isGithub := cfg_isGithub fs |} :: rest
      else fs :: setS3 s3BaseURL rest
  end.

(** The function that sets the base URL of the bucket when the module is
    loaded, on the list [fileSystems] as it is when the parent frame
    answers:
<<
    (async () => {
      try {
        const s3BaseURL = await getS3BaseURL();
        const s3Config = fileSystems.find(fs => fs.slug === 's3');
        if (s3Config) { s3Config.baseURL = s3BaseURL; }
      } catch (error) {
        console.error('Failed to set S3 baseURL:', error);
      }
    })();
>> *)
Definition setS3BaseURL (fileSystems : list FileSystemConfig)
  : M (ConfigState W) (list FileSystemConfig) :=
  try_catch
    (s3BaseURL <- getS3BaseURL ;;
     ret (setS3 s3BaseURL fileSystems))
    (fun error =>
       console_error "Failed to set S3 baseURL:" error ;;;
       ret fileSystems).

End S3.

End fileSystemConfig.

(** ** The xy-time loader: preparing the fetch *)

Module XytDataParser.

(** What the worker posts to its owner. *)
Inductive WorkerMessage : Type :=
| StatusMessage (status : string)
| ErrorMessage (error : string).

(** The state of the worker: that of the file system, the messages
    posted, and the lines written with [console.error]. *)
Record WorkerState (W : Type) : Type := mkWorkerState {
  fsState : State W;
  posted : list WorkerMessage;
  consoleErrors : list string
}.
Arguments mkWorkerState {W} fsState posted consoleErrors.
Arguments fsState {W} w.
Arguments posted {W} w.
Arguments consoleErrors {W} w.

Section Worker.

Context {W : Type} (host : Host W).

(** A file-system call run in the worker. *)
Definition inFs {A} (m : M (State W) A) : M (WorkerState W) A :=
  fun ws =>
    let '(c, st) := m (fsState ws) in
    (c, mkWorkerState st (posted ws) (consoleErrors ws)).

Definition postMessage (msg : WorkerMessage) : M (WorkerState W) unit :=
  modify (fun ws => mkWorkerState (fsState ws) (posted ws ++ [msg]) (consoleErrors ws)).

Definition console_error (line : string) : M (WorkerState W) unit :=
  modify (fun ws => mkWorkerState (fsState ws) (posted ws) (consoleErrors ws ++ [line])).

(** The body of the [try] of [step1PrepareFetch]. *)
Definition prepareFetch (filepath : string) (fileSystem : FileSystemConfig)
  : M (WorkerState W) string :=
  httpFileSystem <- inFs (new_HTTPFileSystem fileSystem None) ;;
  expandedFilename <-
    (if (-1 <? JS.indexOf filepath "*") || (-1 <? JS.indexOf filepath "?") then
       let zDataset := JS.substringFrom filepath (1 + JS.lastIndexOf filepath "/") in
       let zSubfolder := JS.substring filepath 0 (JS.lastIndexOf filepath "/") in
       entry <- inFs (getDirectory host httpFileSystem zSubfolder) ;;
       let matchingFiles := findMatchingGlobInFiles host (files entry) zDataset in
       if (length matchingFiles =? 0)%nat then
         throw (Error ("No files matched " +:+ JS.dquote +:+ zDataset +:+ JS.dquote))
       else if (1 <? length matchingFiles)%nat then
         throw (Error ("More than one file matched " +:+ JS.dquote +:+ zDataset
                       +:+ JS.dquote +:+ ": " +:+ JS.join "," matchingFiles))
       else ret (zSubfolder +:+ "/" +:+ nth 0 matchingFiles "undefined")
     else ret filepath) ;;
  ret (baseURL fileSystem +:+ "/" +:+ expandedFilename).

(** [step1PrepareFetch(filepath, fileSystem)] *)
Definition step1PrepareFetch (filepath : string) (fileSystem : FileSystemConfig)
  : M (WorkerState W) string :=
  postMessage (StatusMessage ("Loading " +:+ filepath +:+ "...")) ;;;
  try_catch
    (prepareFetch filepath fileSystem)
    (fun e =>
       console_error ("" +:+ toStr e) ;;;
       postMessage (ErrorMessage ("Error loading: " +:+ filepath)) ;;;
       throw (Error ("LOAD FAIL! " +:+ filepath))).

(** What the [catch] of [step1PrepareFetch] does with an error thrown
    after the listing. *)
Definition loadFailure (filepath cause : string) (st : State W) (ws : WorkerState W)
  : Completion string * WorkerState W :=
  (Throw (Error ("LOAD FAIL! " +:+ filepath)),
   {| fsState := st;
      posted := (posted ws ++ [StatusMessage ("Loading " +:+ filepath +:+ "...")])
                ++ [ErrorMessage ("Error loading: " +:+ filepath)];
      consoleErrors := consoleErrors ws ++ [cause] |}).

End Worker.

End XytDataParser.

(** ** A static host for worked scenarios *)

Module Scenario.

(** The world of the scenarios: the URLs fetched so far, the newest last. *)
Definition Fetches : Type := list string.

(** Insertion sort on lower-cased names; on the listings of the scenarios,
    whose names differ in their letters only, this is the order of
    [naturalSort] with [insensitive = true]. *)
Fixpoint insertName (x : string) (l : list string) : list string :=
  match l with
  | [] => [x]
  | y :: l' =>
      if String.leb (JS.toLocaleLowerCase x) (JS.toLocaleLowerCase y)
      then x :: l else y :: insertName x l'
  end.

Definition sortNames (l : list string) : list string := fold_right insertName [] l.

(** Wildcards [*] and [?] on a file name. *)
Fixpoint glob (pattern : list ascii) : string -> bool :=
  match pattern with
  | [] => fun s => String.eqb s EmptyString
  | c :: pattern' =>
      if Ascii.eqb c "*" then
        fix star (s : string) : bool :=
          glob pattern' s ||
          match s with
          | EmptyString => false
          | String _ s' => star s'
          end
      else if Ascii.eqb c "?" then
        fun s => match s with
                 | EmptyString => false
                 | String _ s' => glob pattern' s'
                 end
      else
        fun s => match s with
                 | EmptyString => false
                 | String d s' => Ascii.eqb c d && glob pattern' s'
                 end
  end.

Definition globFiles (files : list string) (pattern : string) : list string :=
  filter (fun f => glob (String.list_ascii_of_string pattern) f = true) files.

(** The four patterns of config discovery on plain file names: a prefix
    (one of two for topsheets), anything, and [.yml] or [.yaml]. *)
Definition yamlMatch (files : list string) (pattern : string) : list string :=
  let wild := fun prefix =>
    globFiles files (prefix +:+ "*.yml") ++ globFiles files (prefix +:+ "*.yaml") in
  if String.eqb pattern dashboard then wild "dashboard"
  else if String.eqb pattern topsheet then wild "topsheet" ++ wild "table"
  else if String.eqb pattern viz then wild "viz"
  else if String.eqb pattern config then
    globFiles files "simwrapper-config.yml" ++ globFiles files "simwrapper-config.yaml"
  else [].

(** A gzip member reduced to its frame: the magic number, then the data. *)
Definition frame (data : list Byte.byte) : list Byte.byte := x1f :: x8b :: data.

Definition unframe (buffer : list Byte.byte) : Completion (list Byte.byte) :=
  match buffer with
  | b0 :: b1 :: data =>
      if Byte.eqb b0 x1f && Byte.eqb b1 x8b then Ok data
      else Throw (OtherThrown "incorrect header check")
  | _ => Throw (OtherThrown "unexpected end of file")
  end.

(** Base64 decoding, as [atob] does it: white space is skipped, padding
    is optional, and the result has one character per byte. *)
Definition b64value (c : ascii) : option nat :=
  let n := nat_of_ascii c in
  if ((65 <=? n) && (n <=? 90))%nat then Some (n - 65)%nat
  else if ((97 <=? n) && (n <=? 122))%nat then Some (n - 71)%nat
  else if ((48 <=? n) && (n <=? 57))%nat then Some (n + 4)%nat
  else if (n =? 43)%nat then Some 62%nat
  else if (n =? 47)%nat then Some 63%nat
  else None.

Fixpoint decodeSextets (l : list nat) : list nat :=
  match l with
  | a :: b :: c :: d :: rest =>
      (a * 4 + b / 16) :: (b mod 16 * 16 + c / 4) :: (c mod 4 * 64 + d)
      :: decodeSextets rest
  | [a; b; c] => [a * 4 + b / 16; b mod 16 * 16 + c / 4]
  | [a; b] => [a * 4 + b / 16]
  | _ => []
  end%nat.

Definition stripPadding (l : list ascii) : list ascii :=
  if (length l mod 4 =? 0)%nat then
    match rev l with
    | "=" :: "=" :: r => rev r
    | "=" :: r => rev r
    | _ => l
    end%char
  else l.

Definition base64 (s : string) : Completion string :=
  let chars := filter (fun c => JS.isTrimmed c = false) (String.list_ascii_of_string s) in
  let chars := stripPadding chars in
  if (length chars mod 4 =? 1)%nat
  then Throw (ErrorObj "InvalidCharacterError" "The string is not correctly encoded")
  else match mapM b64value chars with
       | Some sextets =>
           Ok (String.string_of_list_ascii (map ascii_of_nat (decodeSextets sextets)))
       | None => Throw (ErrorObj "InvalidCharacterError" "The string is not correctly encoded")
       end.

(** The string fields of a flat JSON object, read by name. *)
Definition jsonField (name body : string) : option string :=
  JS.matchBetween (JS.dquote +:+ name +:+ JS.dquote +:+ ":" +:+ JS.dquote) JS.dquote body.

Definition jsonFile (body : string) : Completion GhFile :=
  Ok {| gh_content := jsonField "content" body;
        gh_encoding := jsonField "encoding" body;
        gh_sha := jsonField "sha" body |}.

(** The JSON text of an object with the given string fields. *)
Definition jsonObject (fields : list (string * string)) : string :=
  "{" +:+ JS.join ","
    (map (fun f => JS.dquote +:+ fst f +:+ JS.dquote +:+ ":" +:+ JS.dquote
                   +:+ snd f +:+ JS.dquote) fields) +:+ "}".

(** A server with the given pages (URL and body; any other URL answers
    404), a folder permission that stays in the state [permission], and
    a prompt of the application that resolves with [userGrants].  URLs
    are given in normal form, which [new URL(...).href] returns
    unchanged. *)
Definition host (pages : list (string * string)) (permission : string)
  (userGrants : bool) : Host Fetches :=
  {| naturalSort_sort := sortNames;
     URL_href := fun s => Ok s;
     URL_href_base := fun s base => Ok (base +:+ s);
     fetch := fun url _ w =>
       match List.find (fun page => String.eqb (fst page) url) pages with
       | Some page =>
           (Ok {| ok := true; status := 200; statusText := "OK"; body := snd page |},
            w ++ [url])
       | None =>
           (Ok {| ok := false; status := 404; statusText := "Not Found"; body := "" |},
            w ++ [url])
       end;
     json_listing := fun _ => Ok GhNoArray;
     json_file := jsonFile;
     authMessage := fun w => ((Some "token", Some "user"), w);
     queryPermission := fun _ w => (permission, w);
     permissionPrompt := fun _ w => (userGrants, w);
     DOM_anchors := fun _ => [];
     atob := base64;
     TextDecoder_decode := String.string_of_list_byte;
     pako_inflate := fun buffer =>
       match unframe buffer with
       | Ok data => Ok (Some data)
       | Throw e => Throw e
       end;
     micromatch_match := yamlMatch;
     findMatchingGlobInFiles := globFiles;
     PIECES := "";
     getFileFromChromeFileSystem := fun _ _ st => (Throw (Error "File missing"), st) |}.

(** A generic HTTP file system at [https://example.org/data/]. *)
Definition web : HTTPFileSystem :=
  {| baseUrl := "https://example.org/data/"; urlId := "web"; needsAuth := false;
     fsHandle := None; store := None; isGithub := false |}.

(** The state after [web] has been constructed: its partition is open and
    empty, and nothing has been fetched. *)
Definition fresh : State Fetches := {| CACHE := {[ "web" := ∅ ]}; world := [] |}.

(** A file system over a local folder with one subfolder, [runs]. *)
Definition local : HTTPFileSystem :=
  {| baseUrl := "/"; urlId := "local"; needsAuth := false;
     fsHandle := Some (DirectoryHandle "home"
                         [DirectoryHandle "runs" [FileHandle "a.csv"];
                          FileHandle "notes.txt"]);
     store := Some AppStore; isGithub := false |}.

Definition freshLocal : State Fetches := {| CACHE := {[ "local" := ∅ ]}; world := [] |}.

(** One Subversion-style page with the given list items. *)
Definition svnPage (hrefs : list string) : string :=
  "<html><body><ul>" +:+ String (ascii_of_nat 10) EmptyString +:+
  JS.join (String (ascii_of_nat 10) EmptyString)
    (map (fun href => "<li><a href=" +:+ JS.dquote +:+ href +:+ JS.dquote +:+ ">"
                      +:+ href +:+ "</a></li>") hrefs)
  +:+ String (ascii_of_nat 10) EmptyString +:+ "</ul></body></html>".

(** One nginx-style page with the given rows. *)
Definition nginxPage (hrefs : list string) : string :=
  "<html><body><pre>" +:+ String (ascii_of_nat 10) EmptyString +:+
  JS.join (String (ascii_of_nat 10) EmptyString)
    (map (fun href => "<a href=" +:+ JS.dquote +:+ href +:+ JS.dquote +:+ ">"
                      +:+ href +:+ "</a>  01-Jan-2024 10:00  -") hrefs)
  +:+ String (ascii_of_nat 10) EmptyString +:+ "</pre></body></html>".

(** The server and the worker of the wildcard scenarios: the folder
    [/runs] holds two files that match [*.xyt.csv]. *)
Definition runsHost : Host Fetches :=
  host [("https://example.org/data/runs/",
                  svnPage ["a.xyt.csv"; "b.xyt.csv"; "notes.txt"])]
    "granted" true.

Definition runsConfig : FileSystemConfig :=
  {| slug := "web"; baseURL := "https://example.org/data"; needPassword := false;
     handle := None; cfg_isGithub := false |}.

Definition idleWorker : XytDataParser.WorkerState Fetches :=
  {| XytDataParser.fsState := {| CACHE := ∅; world := [] |};
     XytDataParser.posted := []; XytDataParser.consoleErrors := [] |}.

End Scenario.

(** The end-to-end scenario of the specification: five rows of an nginx
    page, the parent link among them, give two files and two folders. *)
Example nginx_listing :
  fst (getDirectory
         (Scenario.host [("https://example.org/data/data/scenarioA/",
                          Scenario.nginxPage ["../"; "runB/"; "runA/"; "b.csv"; "a.csv"])]
            "granted" true)
         Scenario.web "/data/scenarioA/" Scenario.fresh)
  = Ok {| files := ["a.csv"; "b.csv"]; dirs := ["runA"; "runB"];
          handles := ∅; html := None |}.
Proof. vm_compute. reflexivity. Qed.

Example scenario_listing :
  getDirectory (Scenario.host [("https://example.org/data/a/b/",
                                Scenario.svnPage ["../"; "sub/"; "x.csv"; "./y.csv"])]
                  "granted" true)
    Scenario.web "/a//b" Scenario.fresh
  = (Ok {| files := ["x.csv"; "y.csv"]; dirs := ["sub"]; handles := ∅; html := None |},
     {| CACHE := {[ "web" := {[ "/a/b/" :=
          {| files := ["x.csv"; "y.csv"]; dirs := ["sub"]; handles := ∅; html := None |} ]} ]};
        world := ["https://example.org/data/a/b/"] |}).
Proof. vm_compute. reflexivity. Qed.

(** The host [h] with another answer of the parent frame to
    [requestAuthToken]. *)
Definition withAuthMessage {W} (h : Host W)
  (answer : W -> (option string * option string) * W) : Host W :=
  {| naturalSort_sort := naturalSort_sort h;
     URL_href := URL_href h;
     URL_href_base := URL_href_base h;
     fetch := fetch h;
     json_listing := json_listing h;
     json_file := json_file h;
     authMessage := answer;
     queryPermission := queryPermission h;
     permissionPrompt := permissionPrompt h;
     DOM_anchors := DOM_anchors h;
     atob := atob h;
     TextDecoder_decode := TextDecoder_decode h;
     pako_inflate := pako_inflate h;
     micromatch_match := micromatch_match h;
     findMatchingGlobInFiles := findMatchingGlobInFiles h;
     PIECES := PIECES h;
     getFileFromChromeFileSystem := getFileFromChromeFileSystem h |}.

(** The host [h] with another [pako.inflate]. *)
Definition withInflate {W} (h : Host W)
  (inflate : list Byte.byte -> Completion (option (list Byte.byte))) : Host W :=
  {| naturalSort_sort := naturalSort_sort h;
     URL_href := URL_href h;
     URL_href_base := URL_href_base h;
     fetch := fetch h;
     json_listing := json_listing h;
     json_file := json_file h;
     authMessage := authMessage h;
     queryPermission := queryPermission h;
     permissionPrompt := permissionPrompt h;
     DOM_anchors := DOM_anchors h;
     atob := atob h;
     TextDecoder_decode := TextDecoder_decode h;
     pako_inflate := inflate;
     micromatch_match := micromatch_match h;
     findMatchingGlobInFiles := findMatchingGlobInFiles h;
     PIECES := PIECES h;
     getFileFromChromeFileSystem := getFileFromChromeFileSystem h |}.

(** The authenticated bucket of the scenarios. *)
Definition bucket : HTTPFileSystem :=
  {| baseUrl := "https://bucket.example/user/"; urlId := "s3"; needsAuth := true;
     fsHandle := None; store := None; isGithub := false |}.

(** The GitHub file system of the application. *)
Definition github : HTTPFileSystem :=
  {| baseUrl := "/"; urlId := "github"; needsAuth := false;
     fsHandle := None; store := None; isGithub := true |}.

(** ** Statements *)

(** A [..] that could be removed: one that comes right after a segment
    that is no [..]. *)
Definition removableDots (parts : list string) : Prop :=
  exists (pre post : list string) (x : string),
    parts = pre ++ x :: ".." :: post /\ x <> "..".

(** The cleaning step told as one pass from the left, with the segments
    kept so far in [kept], the last one first: a [..] takes the last kept
    segment away; a [..] that finds none kept ends the pass, and it and
    all that follows are left as they are. *)
Fixpoint cancelDots (kept parts : list string) : list string :=
  match parts with
  | [] => rev kept
  | part :: rest =>
      if String.eqb part ".." then
        match kept with
        | [] => parts
        | _ :: kept' => cancelDots kept' rest
        end
      else cancelDots (part :: kept) rest
  end.

(** A computation that leaves the cache as it found it. *)
Definition keeps_cache {W A} (m : M (State W) A) : Prop :=
  forall st, CACHE (snd (m st)) = CACHE st.

(** [message] contains [part]. *)
Definition reports (message part : string) : Prop := -1 < JS.indexOf message part.

(** The failure contract with the path in the message: when the adapter
    throws [e], the call throws one [Error] whose message contains the
    path and the cause, and the cache is as before. *)
Definition failure_names_path {W} (host : Host W) (this : HTTPFileSystem)
  (p : string) (st : State W) : Prop :=
  forall e st',
    listBackend host this (storeKey p) st = (Throw e, st') ->
    exists message st'',
      getDirectory host this p st = (Throw (Error message), st'') /\
      reports message p /\ reports message (toStr e) /\
      CACHE st'' = CACHE st.

(** The unwrapping as the specification words it, for every plaintext:
    compressed once, twice or more with [gzip], it comes back whole from
    one call that is given one level per layer and one more. *)
Definition unwraps_every_plaintext {W} (host : Host W)
  (gzip : list Byte.byte -> list Byte.byte) : Prop :=
  forall (plain : list Byte.byte) (layers fuel : nat),
    (0 < layers)%nat -> (layers < fuel)%nat ->
    gUnzip host fuel (Nat.iter layers gzip plain) = Some (Ok plain).

(** The class [[0-9a-zA-Z_\-/:+]] of the specification. *)
Definition inPathClass (c : ascii) : bool :=
  isAlnum c || Ascii.eqb c "_" || Ascii.eqb c "-" || Ascii.eqb c "/"
  || Ascii.eqb c ":" || Ascii.eqb c "+".

(** The stripping as the specification words it: the characters outside
    the class are removed from the start of the path, up to the first one
    inside it. *)
Fixpoint strip_outside_class (path : string) : string :=
  match path with
  | EmptyString => EmptyString
  | String c path' => if inPathClass c then path else strip_outside_class path'
  end.

(** The path, in lower case, ends with a dot and one of these fourteen
    extensions: avro, dbf, gpkg, gz, h5, jpg, jpeg, omx, png, shp, shx,
    sqlite, zip, zst.  They are written out here, so that the pattern of
    the code is compared with them. *)
Definition hasBinaryExtension (path : string) : Prop :=
  exists stem ext : string,
    (ext = "avro" \/ ext = "dbf" \/ ext = "gpkg" \/ ext = "gz" \/ ext = "h5" \/
     ext = "jpg" \/ ext = "jpeg" \/ ext = "omx" \/ ext = "png" \/ ext = "shp" \/
     ext = "shx" \/ ext = "sqlite" \/ ext = "zip" \/ ext = "zst") /\
    JS.toLocaleLowerCase path = stem +:+ "." +:+ ext.

(** The ancestors that the first loop of config discovery lists, from
    the root down: each is the one before with the next chunk added. *)
Fixpoint ancestorPaths (currentPath : string) (chunks : list string) : list string :=
  match chunks with
  | [] => []
  | chunk :: chunks' =>
      let currentPath := JS.replaceAll (currentPath +:+ chunk +:+ "/") "//" "/" in
      currentPath :: ancestorPaths currentPath chunks'
  end.

(** [configFolder] is a config folder of the ancestor [currentPath]: a
    subdirectory whose name, in lower case, is one of [YAML_FOLDERS]. *)
Definition configFolderOf (currentPath configFolder : string) : Prop :=
  exists dir,
    JS.toLocaleLowerCase dir ∈ YAML_FOLDERS /\
    configFolder = JS.replaceAll (currentPath +:+ "/" +:+ dir) "//" "/".

(** [final] is [earlier] with every match of [folder] recorded over it. *)
Definition supersedes (folder : string) (matches : list string)
  (earlier final : gmap string string) : Prop :=
  forall yaml : string,
    final !! yaml =
    if decide (yaml ∈ matches)
    then Some (JS.replaceAll (folder +:+ "/" +:+ yaml) "//" "/")
    else earlier !! yaml.

(** [yamls] is [earlier] with the matches of the four patterns among
    [files], the listing of [folder], recorded over it. *)
Definition recordedOver {W} (host : Host W) (folder : string) (files : list string)
  (earlier yamls : YamlConfigs) : Prop :=
  supersedes folder (micromatch_match host files dashboard)
    (dashboards earlier) (dashboards yamls) /\
  supersedes folder (micromatch_match host files topsheet)
    (topsheets earlier) (topsheets yamls) /\
  supersedes folder (micromatch_match host files viz)
    (vizes earlier) (vizes yamls) /\
  supersedes folder (micromatch_match host files config)
    (configs earlier) (configs yamls).

(** The invariant of the data model: no directory name ends with a
    separator, and no name has a separator in it. *)
Definition namesClean (e : DirectoryEntry) : Prop :=
  (forall d : string, d ∈ dirs e -> JS.endsWith d "/" = false) /\
  (forall n : string, n ∈ files e ++ dirs e -> JS.indexOf n "/" = -1).

(** The invariant as a promise of one call: whatever [getDirectory] returns has clean
    names. *)
Definition listing_always_clean {W} (host : Host W) (this : HTTPFileSystem)
  (p : string) (st : State W) : Prop :=
  forall e st', getDirectory host this p st = (Ok e, st') -> namesClean e.

(** A link target without a separator other than one at its end. *)
Definition simpleName (name : string) : bool :=
  JS.indexOf (dropTrailingSlash name) "/" <? 0.

(** No slash at all: [indexOf] finds none from any position. *)
Definition noSlash (s : string) : Prop := forall i, JS.indexOf_from "/" s i = -1.

(** Every name that the loop of a line parser takes from [lines] is
    simple. *)
Definition linksSimple (nameOf : string -> option string) (lines : list string) : Prop :=
  forall line name, line ∈ lines -> nameOf line = Some name -> simpleName name = true.

(** The error that a call threw names every one of [candidates]. *)
Definition thrown_error_names (c : Completion string) (candidates : list string) : Prop :=
  exists message,
    c = Throw (Error message) /\ forall f, f ∈ candidates -> reports message f.


(** What a line parser lists, when [nameOf] is the name it takes from a
    line: the names that end with a separator as directories, less that
    separator, and the other names as files, both in the order of the
    page, and nothing else. *)
Definition listsEveryLink (nameOf : string -> option string)
  (build : string -> DirectoryEntry) : Prop :=
  forall data : string,
    let names := omap nameOf (linesOf data) in
    dirs (build data)
    = map JS.dropLast (filter (fun name => JS.endsWith name "/" = true) names) /\
    files (build data) = filter (fun name => JS.endsWith name "/" = false) names /\
    handles (build data) = ∅ /\ html (build data) = None.

(** Every path of [mapping] is the file it is recorded under, in one of
    the [candidates]. *)
Definition pointsInto (candidates : list string) (mapping : gmap string string) : Prop :=
  forall yaml path : string,
    mapping !! yaml = Some path ->
    exists configFolder,
      configFolder ∈ candidates /\
      path = JS.replaceAll (configFolder +:+ "/" +:+ yaml) "//" "/".

(** The same for the four mappings. *)
Definition allPointInto (candidates : list string) (yamls : YamlConfigs) : Prop :=
  pointsInto candidates (dashboards yamls) /\ pointsInto candidates (topsheets yamls) /\
  pointsInto candidates (vizes yamls) /\ pointsInto candidates (configs yamls).

(** A link that the parser of the anchors does not skip: it has a target
    and a label, and neither says that it is the parent folder. *)
Definition keptLink (href text : string) : Prop :=
  href ≠ "" /\ JS.trim text ≠ "" /\ href ≠ "../" /\ JS.trim text ≠ "..".

(** A link that the parser of the anchors lists: it is not skipped, and
    its target and its label agree on the separator at the end. *)
Definition listedLink (href text : string) : Prop :=
  keptLink href text /\ JS.endsWith href "/" = JS.endsWith (JS.trim text) "/".

(** Every target that the parser of the anchors lists is simple. *)
Definition anchorsSimple (links : list (option string * string)) : Prop :=
  forall href text : string,
    (Some href, text) ∈ links -> listedLink href text -> simpleName href = true.

(** Every link target that [buildListFromHtml] takes from the page is
    simple, for the parser it chooses.  The Node static-server parser
    keeps the last segment of a target, and needs nothing; a page of no
    known dialect has no links taken. *)
Definition pageLinksSimple (data : string) : Prop :=
  if -1 <? JS.indexOf data "SimpleWebServer"
  then linksSimple simpleWebServerName (linesOf data)
  else if -1 <? JS.indexOf data "<ul>" then linksSimple svnName (linesOf data)
  else if -1 <? JS.indexOf data ("<ul id=" +:+ JS.dquote +:+ "files" +:+ JS.dquote +:+ ">")
       then True
  else if -1 <? JS.indexOf data "<table>" then linksSimple apache24Name (linesOf data)
  else if -1 <? JS.indexOf data (String (ascii_of_nat 10) "<a ")
       then linksSimple nginxName (linesOf data)
  else True.

(** The same for the page that a response holds. *)
Definition responseLinksSimple (response : FileResponse) : Prop :=
  match response with
  | Fetched r => pageLinksSimple (body r)
  | LocalFile text => pageLinksSimple text
  | GitHubFile (ContentText text) => pageLinksSimple text
  | GitHubFile _ | NullResponse => True
  end.

(** The sort of the host gives back names of the list it is given. *)
Definition sortKeeps {W} (host : Host W) : Prop :=
  forall (l : list string) (x : string), x ∈ naturalSort_sort host l -> x ∈ l.

(** The names that the adapter of [this] takes from its source, when
    [getDirectory] lists the key [key] from the state [st] and returns
    [e], are well formed.  For a folder handle: the entries of the folder
    that the walk reaches have names without a separator.  For GitHub: so
    have the [file] and [dir] entries that the API answers with.  For the
    authenticated bucket: the targets that the parser of the anchors
    lists, from the page that the entry carries, are simple.  For any
    other server: the link targets taken from the page fetched are
    simple. *)
Definition sourceSimple {W} (host : Host W) (this : HTTPFileSystem) (key : string)
  (st : State W) (e : DirectoryEntry) : Prop :=
  match fsHandle this with
  | Some h =>
      forall (name : string) (entries : list FsHandle),
        walkFolders h (eatDots (filter (fun p => JS.truthy p = true) (JS.split key "/")))
        = Ok (DirectoryHandle name entries) ->
        forall entry : FsHandle,
          entry ∈ entries -> JS.indexOf (handle_name entry) "/" = -1
  | None =>
      if isGithub this then
        forall (owner repo : string) (bits : list string)
               (entries : list (string * string)) (st1 : State W),
          githubBits key = owner :: repo :: bits ->
          fetchJson host (json_listing host)
            ("https://api.github.com/repos/" +:+ owner +:+ "/" +:+ repo
             +:+ "/contents/" +:+ JS.join "/" bits) st
          = (Ok (GhArray entries), st1) ->
          forall kind name : string,
            (kind, name) ∈ entries -> kind = "file" \/ kind = "dir" ->
            JS.indexOf name "/" = -1
      else if needsAuth this then
        forall htmlText : string,
          html e = Some htmlText -> anchorsSimple (DOM_anchors host htmlText)
      else
        forall (response : FileResponse) (st1 : State W),
          _getFileResponse host this key st = (Ok response, st1) ->
          responseLinksSimple response
  end.

(** A string of decimal digits. *)
Fixpoint digitsOnly (s : string) : bool :=
  match s with
  | EmptyString => true
  | String c s' =>
      match fileSystemConfig.digitValue c with
      | Some _ => digitsOnly s'
      | None => false
      end
  end.

(** * Properties *)

(** ** [eatDots] *)

Lemma eatDots_step parts :
  eatDots parts =
  if JS.arrayIndexOf parts ".." <=? 0 then parts
  else eatDots (JS.filterIndex (notSpliced (JS.arrayIndexOf parts "..")) parts).
Proof.
  funelim (eatDots parts).
  - now rewrite e.
  - now rewrite Hpos.
Qed.

(** The first [..] of an array whose prefix [pre] has none. *)
Lemma arrayIndexOf_from_app x (pre rest : list string) i :
  x ∉ pre ->
  JS.arrayIndexOf_from x (pre ++ rest) i =
  JS.arrayIndexOf_from x rest (i + Z.of_nat (length pre)).
Proof.
  revert i; induction pre as [|y pre IH]; intros i Hni; simpl.
  - f_equal; lia.
  - destruct (String.eqb_spec y x) as [->|Hne].
    + exfalso; apply Hni; left.
    + rewrite IH by (intros Hin; apply Hni; now right). f_equal; lia.
Qed.

Lemma filterIndex_from_all {A} (keep : Z -> bool) (l : list A) i :
  (forall j, i <= j -> keep j = true) -> JS.filterIndex_from keep l i = l.
Proof.
  revert i; induction l as [|y l IH]; intros i Hk; simpl; [reflexivity|].
  rewrite Hk by lia. f_equal. apply IH. intros j Hj; apply Hk; lia.
Qed.

Lemma notSpliced_false d j : j = d - 1 \/ j = d -> notSpliced d j = false.
Proof.
  unfold notSpliced; intros [->| ->].
  - now rewrite Z.eqb_refl.
  - rewrite Z.eqb_refl. apply andb_false_r.
Qed.

Lemma notSpliced_true d j : j < d - 1 \/ d < j -> notSpliced d j = true.
Proof.
  unfold notSpliced; intros H.
  destruct (Z.eqb_spec j (d - 1)); [lia|].
  destruct (Z.eqb_spec j d); [lia|reflexivity].
Qed.

Lemma filterIndex_from_splice (pre post : list string) (x y : string) i d :
  d = i + Z.of_nat (length pre) + 1 ->
  JS.filterIndex_from (notSpliced d) (pre ++ x :: y :: post) i = pre ++ post.
Proof.
  revert i; induction pre as [|z pre IH]; intros i Hd.
  - cbn [app length JS.filterIndex_from].
    rewrite (notSpliced_false d i) by (cbn [length] in Hd; lia).
    rewrite (notSpliced_false d (i + 1)) by (cbn [length] in Hd; lia).
    apply filterIndex_from_all. intros j Hj.
    apply notSpliced_true. cbn [length] in Hd; lia.
  - cbn [app JS.filterIndex_from].
    rewrite (notSpliced_true d i) by (cbn [length] in Hd; lia).
    f_equal. apply IH. cbn [length] in Hd; lia.
Qed.

(** One round of [eatDots]: the first [..], when it is not the first
    segment, goes away together with the segment before it. *)
Lemma eatDots_splice (pre post : list string) (x : string) :
  ".." ∉ pre -> x ≠ ".." ->
  eatDots (pre ++ x :: ".." :: post) = eatDots (pre ++ post).
Proof.
  intros Hpre Hx. rewrite eatDots_step.
  assert (JS.arrayIndexOf (pre ++ x :: ".." :: post) ".." = Z.of_nat (length pre) + 1) as E.
  { unfold JS.arrayIndexOf. rewrite arrayIndexOf_from_app by assumption. simpl.
    destruct (String.eqb_spec x "..") as [|_]; [contradiction|]. lia. }
  rewrite E.
  destruct (Z.leb_spec (Z.of_nat (length pre) + 1) 0) as [|_]; [lia|].
  unfold JS.filterIndex.
  now rewrite (filterIndex_from_splice pre post x ".." 0) by lia.
Qed.

(** A leading [..] stops the loop: the array is returned as it is. *)
Lemma eatDots_leading (rest : list string) : eatDots (".." :: rest) = ".." :: rest.
Proof. now rewrite eatDots_step. Qed.

(** What [eatDots] returns has no [..] at a positive first position. *)
Lemma eatDots_done (parts : list string) : JS.arrayIndexOf (eatDots parts) ".." <= 0.
Proof.
  funelim (eatDots parts).
  - now apply Z.leb_le.
  - assumption.
Qed.

Lemma arrayIndexOf_from_found (x : string) (l : list string) :
  forall i : Z, x ∈ l -> i <= JS.arrayIndexOf_from x l i.
Proof.
  induction l as [|y l IH]; intros i Hx; [now apply elem_of_nil in Hx|].
  cbn [JS.arrayIndexOf_from]. destruct (String.eqb_spec y x) as [_|Hne]; [lia|].
  apply elem_of_cons in Hx as [->|Hx]; [congruence|].
  specialize (IH (i + 1) Hx). lia.
Qed.

(** An array in which the first [..] is at no positive index, and that
    has one, starts with it. *)
Lemma leading_dotdot (l : list string) :
  JS.arrayIndexOf l ".." <= 0 -> ".." ∈ l -> exists rest, l = ".." :: rest.
Proof.
  destruct l as [|y l]; intros Hidx Hin; [now apply elem_of_nil in Hin|].
  unfold JS.arrayIndexOf in Hidx. cbn [JS.arrayIndexOf_from] in Hidx.
  destruct (String.eqb_spec y "..") as [->|Hne]; [now exists l|].
  apply elem_of_cons in Hin as [Heq|Hin]; [congruence|].
  pose proof (arrayIndexOf_from_found ".." l (0 + 1) Hin). lia.
Qed.

(** An array without [..] is returned as it is. *)
Lemma eatDots_without_dots (parts : list string) : ".." ∉ parts -> eatDots parts = parts.
Proof.
  intros Hno. rewrite eatDots_step.
  assert (JS.arrayIndexOf parts ".." = -1) as ->; [|reflexivity].
  unfold JS.arrayIndexOf.
  pose proof (arrayIndexOf_from_app ".." parts [] 0 Hno) as E.
  rewrite app_nil_r in E. now rewrite E.
Qed.

Lemma elem_of_rev {A} (x : A) (l : list A) : x ∈ rev l -> x ∈ l.
Proof. rewrite !list_elem_of_In. intros Hin. now apply in_rev. Qed.

(** The rounds of [eatDots] are the one pass from the left. *)
Lemma eatDots_cancelDots (parts : list string) :
  forall kept : list string,
    ".." ∉ kept -> eatDots (rev kept ++ parts) = cancelDots kept parts.
Proof.
  induction parts as [|part rest IH]; intros kept Hkept.
  - rewrite app_nil_r. apply eatDots_without_dots.
    intros Hin. apply Hkept. now apply elem_of_rev.
  - cbn [cancelDots]. destruct (String.eqb_spec part "..") as [->|Hne].
    + destruct kept as [|x kept'].
      * apply eatDots_leading.
      * cbn [rev]. rewrite <- app_assoc. cbn [app].
        rewrite eatDots_splice.
        -- apply IH. intros Hin. apply Hkept. now right.
        -- intros Hin. apply Hkept. right. now apply elem_of_rev.
        -- intros ->. apply Hkept. left.
    + rewrite <- (IH (part :: kept)).
      * cbn [rev]. now rewrite <- app_assoc.
      * intros Hin. apply elem_of_cons in Hin as [Heq|Hin]; [congruence|contradiction].
Qed.

(** C4, as stated, fails: a [..] that follows an ordinary segment stays
    when the array begins with a [..].  [.., a, .., b] is returned whole,
    although its second [..] comes right after [a]. *)
Lemma eatDots_stops_at_leading_dots :
  eatDots [".."; "a"; ".."; "b"] = [".."; "a"; ".."; "b"] /\
  removableDots (eatDots [".."; "a"; ".."; "b"]) /\
  ~ (forall parts : list string, ~ removableDots (eatDots parts)).
Proof.
  assert (removableDots (eatDots [".."; "a"; ".."; "b"])) as Hleft.
  { rewrite eatDots_leading. exists [".."], ["b"], "a". split; [reflexivity|discriminate]. }
  split; [apply eatDots_leading|].
  split; [exact Hleft|].
  intros Hnone. exact (Hnone _ Hleft).
Qed.

(** C4, amended.  The segment-cleaning step removes the first [..]
    together with the segment before it and repeats, until the array has
    no [..] or begins with one: [a, b, .., c] becomes [a, c]; an array
    without [..] is returned as it is; an array that begins with [..], as
    [.., a], is returned whole, with every later [..] still in it.  In all
    it is one pass from the left in which each [..] takes away the last
    segment kept and the first [..] that finds none ends the pass; what is
    returned has no [..] at all or begins with one. *)
Theorem eatDots_removes_pairs :
  eatDots ["a"; "b"; ".."; "c"] = ["a"; "c"] /\
  eatDots [".."; "a"] = [".."; "a"] /\
  (forall (pre post : list string) (x : string),
      ".." ∉ pre -> x ≠ ".." ->
      eatDots (pre ++ x :: ".." :: post) = eatDots (pre ++ post)) /\
  (forall rest : list string, eatDots (".." :: rest) = ".." :: rest) /\
  (forall parts : list string, JS.arrayIndexOf (eatDots parts) ".." <= 0) /\
  (forall parts : list string, ".." ∉ parts -> eatDots parts = parts) /\
  (forall parts : list string, eatDots parts = cancelDots [] parts) /\
  (forall parts : list string,
      ".." ∉ eatDots parts \/ exists rest, eatDots parts = ".." :: rest).
Proof.
  split; [reflexivity|].
  split; [reflexivity|].
  split; [exact eatDots_splice|].
  split; [exact eatDots_leading|].
  split; [exact eatDots_done|].
  split; [exact eatDots_without_dots|].
  split.
  - intros parts. apply (eatDots_cancelDots parts []). apply not_elem_of_nil.
  - intros parts.
    destruct (decide (".." ∈ eatDots parts)) as [Hin|Hno]; [right|now left].
    exact (leading_dotdot _ (eatDots_done parts) Hin).
Qed.

(** One round on [x, y, .., .., z], the two rounds that leave [z], and a
    list without [..]. *)
Lemma eatDots_removes_pairs_witness :
  eatDots (["x"] ++ "y" :: ".." :: [".."; "z"]) = eatDots (["x"] ++ [".."; "z"]) /\
  eatDots ["x"; "y"; ".."; ".."; "z"] = ["z"] /\
  eatDots ["x"; "y"] = ["x"; "y"].
Proof.
  split; [|split].
  - apply (proj1 (proj2 (proj2 eatDots_removes_pairs))).
    + intros H. apply list_elem_of_In in H. simpl in H. intuition discriminate.
    + discriminate.
  - reflexivity.
  - apply (proj1 (proj2 (proj2 (proj2 (proj2 (proj2 eatDots_removes_pairs)))))).
    intros H. apply list_elem_of_In in H. simpl in H. intuition discriminate.
Defined.

(** ** The state monad *)

Section MonadFacts.

Context {W : Type}.

Lemma keeps_ret {A} (a : A) : keeps_cache (@ret (State W) A a).
Proof. intros st; reflexivity. Qed.

Lemma keeps_throw {A} e : keeps_cache (@throw (State W) A e).
Proof. intros st; reflexivity. Qed.

Lemma keeps_settle {A} (c : Completion A) : keeps_cache (@settle (State W) A c).
Proof. intros st; reflexivity. Qed.

Lemma keeps_gets {A} (f : State W -> A) : keeps_cache (gets f).
Proof. intros st; reflexivity. Qed.

Lemma keeps_onWorld {A} (f : W -> A * W) : keeps_cache (onWorld f).
Proof. intros st; unfold onWorld; destruct (f (world st)); reflexivity. Qed.

Lemma keeps_onWorldC {A} (f : W -> Completion A * W) : keeps_cache (onWorldC f).
Proof. intros st; unfold onWorldC; destruct (f (world st)); reflexivity. Qed.

Lemma keeps_bind {A B} (m : M (State W) A) (k : A -> M (State W) B) :
  keeps_cache m -> (forall a, keeps_cache (k a)) -> keeps_cache (bind m k).
Proof.
  intros Hm Hk st. unfold bind. specialize (Hm st).
  destruct (m st) as [[a|e] st']; simpl in *; [|assumption].
  rewrite Hk. assumption.
Qed.

End MonadFacts.

Ltac keeps_cache_step :=
  first
    [ apply keeps_ret | apply keeps_throw | apply keeps_settle | apply keeps_gets
    | apply keeps_onWorld | apply keeps_onWorldC
    | apply keeps_bind; [|intros]
    | match goal with
      | |- keeps_cache (match ?x with _ => _ end) => destruct x
      end ].

(** ** The adapters leave the cache alone *)

Section AdapterFacts.

Context {W : Type} (host : Host W).

Lemma requestAuthToken_keeps : keeps_cache (requestAuthToken host).
Proof. unfold requestAuthToken. repeat keeps_cache_step. Qed.

Lemma getDirectoryFromHandle_keeps this p :
  keeps_cache (getDirectoryFromHandle host this p).
Proof.
  unfold getDirectoryFromHandle, getChromePermission. repeat keeps_cache_step.
Qed.

Lemma _getDirectoryFromGitHub_keeps p : keeps_cache (_getDirectoryFromGitHub host p).
Proof. unfold _getDirectoryFromGitHub, fetchJson. repeat keeps_cache_step. Qed.

Lemma _getDirectoryFromAWS_keeps this p : keeps_cache (_getDirectoryFromAWS host this p).
Proof.
  unfold _getDirectoryFromAWS.
  apply keeps_bind; [apply requestAuthToken_keeps|intros].
  repeat keeps_cache_step.
Qed.

Lemma _getFileFetchResponse_keeps this p : keeps_cache (_getFileFetchResponse host this p).
Proof.
  unfold _getFileFetchResponse. destruct (needsAuth this).
  - apply keeps_bind; [apply requestAuthToken_keeps|intros].
    repeat keeps_cache_step.
  - repeat keeps_cache_step.
Qed.

Lemma _getFileFromGitHub_keeps p : keeps_cache (_getFileFromGitHub host p).
Proof. unfold _getFileFromGitHub, githubFileJson, fetchJson. repeat keeps_cache_step. Qed.

(** Without a folder handle, the directory adapters never reach the file
    read through a handle, the one method that lists through the cache. *)
Lemma listBackend_keeps this p : keeps_cache (listBackend host this p).
Proof.
  unfold listBackend. destruct (fsHandle this) as [h|] eqn:Hh.
  - apply getDirectoryFromHandle_keeps.
  - destruct (isGithub this) eqn:Hg; [apply _getDirectoryFromGitHub_keeps|].
    destruct (needsAuth this); [apply _getDirectoryFromAWS_keeps|].
    unfold getDirectoryFromURL, _getFileResponse. rewrite Hh, Hg.
    apply keeps_bind; [|intros; apply keeps_settle].
    apply keeps_bind; [apply _getFileFetchResponse_keeps|intros; apply keeps_ret].
Qed.

End AdapterFacts.

(** ** [getDirectory]: the cache *)

Section CacheFacts.

Context {W : Type} (host : Host W).

(** A listing found under the looked-up key is returned, and nothing else
    happens. *)
Lemma getDirectory_hit this p (st : State W) partition e :
  CACHE st !! urlId this = Some partition ->
  partition !! lookupKey p = Some e ->
  getDirectory host this p st = (Ok e, st).
Proof. intros Hp He. unfold getDirectory. now rewrite Hp, He. Qed.

(** A listing that [getDirectory] returns is, afterwards, in the partition
    of the slug: under the looked-up key when it was found there, under the
    stored key when it was fetched. *)
Lemma getDirectory_stored this p (st st1 : State W) e :
  getDirectory host this p st = (Ok e, st1) ->
  exists partition1,
    CACHE st1 !! urlId this = Some partition1 /\
    (partition1 !! lookupKey p = Some e \/ partition1 !! storeKey p = Some e).
Proof.
  unfold getDirectory. destruct (CACHE st !! urlId this) as [partition|] eqn:Hp;
    [|discriminate].
  destruct (partition !! lookupKey p) as [cached|] eqn:Hc.
  - intros [= <- <-]. exists partition. auto.
  - unfold try_catch, bind, cacheWrite, ret, throw.
    destruct (listBackend host this _ st) as [[d|x] st'] eqn:Hb; [|discriminate].
    destruct (CACHE st' !! urlId this) as [partition'|] eqn:Hp'; [|discriminate].
    intros [= <- <-]. simpl.
    exists (<[storeKey p := sortEntry host d]> partition'). split.
    + apply lookup_insert_eq.
    + right. apply lookup_insert_eq.
Qed.

End CacheFacts.

(** X1.  When collapsing [/./] changes nothing in the key, the call right
    after a successful one returns the same listing and leaves the whole
    state, the world outside included, as it was: nothing is fetched. *)
Theorem getDirectory_served_from_cache {W} (host : Host W) (this : HTTPFileSystem)
  (p : string) (st st1 : State W) (e : DirectoryEntry) :
  storeKey p = lookupKey p ->
  getDirectory host this p st = (Ok e, st1) ->
  getDirectory host this p st1 = (Ok e, st1).
Proof.
  intros Hkey Hfirst.
  destruct (getDirectory_stored host this p st st1 e Hfirst)
    as (partition1 & Hpartition & Hfound).
  rewrite Hkey in Hfound.
  apply (getDirectory_hit host this p st1 partition1); tauto.
Qed.

Lemma getDirectory_served_from_cache_witness :
  let url := "https://example.org/data/a/b/" in
  let h := Scenario.host [(url, Scenario.svnPage ["sub/"; "x.csv"])] "granted" true in
  let entry := {| files := ["x.csv"]; dirs := ["sub"]; handles := ∅; html := None |} in
  let st1 := {| CACHE := {[ "web" := {[ "/a/b/" := entry ]} ]}; world := [url] |} in
  getDirectory h Scenario.web "/a//b" st1 = (Ok entry, st1).
Proof.
  intros url h entry st1.
  apply (getDirectory_served_from_cache h Scenario.web "/a//b" Scenario.fresh st1 entry).
  - reflexivity.
  - vm_compute. reflexivity.
Defined.

(** C1.  On the path [/a/./b] the second of two calls in a row is not
    served from the cache: the key looked up is [/a/./b/], the listing is
    stored under [/a/b/], and the server is asked again.  (A key may also
    end with two separators: that of [/a///] is [/a//].) *)
Theorem getDirectory_dot_segment_fetched_twice :
  let url := "https://example.org/data/a/b/" in
  let h := Scenario.host [(url, Scenario.svnPage ["sub/"; "x.csv"])] "granted" true in
  let entry := {| files := ["x.csv"]; dirs := ["sub"]; handles := ∅; html := None |} in
  let first := getDirectory h Scenario.web "/a/./b" Scenario.fresh in
  let second := getDirectory h Scenario.web "/a/./b" (snd first) in
  lookupKey "/a/./b" = "/a/./b/" /\
  storeKey "/a/./b" = "/a/b/" /\
  lookupKey "/a///" = "/a//" /\
  fst first = Ok entry /\
  CACHE (snd first) = {[ "web" := {[ "/a/b/" := entry ]} ]} /\
  world (snd first) = [url] /\
  fst second = Ok entry /\
  world (snd second) = [url; url].
Proof. intros url h entry first second. repeat split; vm_compute; reflexivity. Qed.

(** ** [getDirectory]: failures of the adapter *)

(** C2, as stated, fails: listing [/data/run1] in a local folder without a
    [data] subfolder throws an error that names the missing folder, not
    the path. *)
Lemma getDirectory_failure_omits_path :
  ~ failure_names_path (Scenario.host [] "granted" true) Scenario.local
      "/data/run1" Scenario.freshLocal.
Proof.
  intros H.
  destruct (H (Error ("Could not find folder " +:+ JS.dquote +:+ "data" +:+ JS.dquote))
              Scenario.freshLocal eq_refl)
    as (message & st'' & Hg & Hp & _).
  vm_compute in Hg. injection Hg as <- _.
  vm_compute in Hp. discriminate Hp.
Qed.

(** C2, amended.  When the adapter throws [e] on a path that is not in the
    cache, [getDirectory] throws the single error [Error('' + e)], whose
    message is the string form of the cause, and the cache is unchanged. *)
Theorem getDirectory_wraps_backend_failure {W} (host : Host W)
  (this : HTTPFileSystem) (p : string) (st st' : State W)
  (partition : gmap string DirectoryEntry) (e : Thrown) :
  CACHE st !! urlId this = Some partition ->
  partition !! lookupKey p = None ->
  listBackend host this (storeKey p) st = (Throw e, st') ->
  getDirectory host this p st = (Throw (Error (toStr e)), st') /\
  CACHE st' = CACHE st.
Proof.
  intros Hpartition Hmiss Hbackend. split.
  - unfold getDirectory. rewrite Hpartition, Hmiss. unfold try_catch, bind.
    unfold storeKey in Hbackend. now rewrite Hbackend.
  - pose proof (listBackend_keeps host this (storeKey p) st) as Hkeeps.
    now rewrite Hbackend in Hkeeps.
Qed.

Lemma getDirectory_wraps_backend_failure_witness :
  getDirectory (Scenario.host [] "granted" true) Scenario.local "/data/run1"
    Scenario.freshLocal
  = (Throw (Error ("Error: Could not find folder " +:+ JS.dquote +:+ "data" +:+ JS.dquote)),
     Scenario.freshLocal) /\
  CACHE Scenario.freshLocal = CACHE Scenario.freshLocal.
Proof.
  apply (getDirectory_wraps_backend_failure (Scenario.host [] "granted" true)
           Scenario.local "/data/run1" Scenario.freshLocal Scenario.freshLocal ∅
           (Error ("Could not find folder " +:+ JS.dquote +:+ "data" +:+ JS.dquote))).
  - reflexivity.
  - reflexivity.
  - reflexivity.
Defined.

(** ** [cleanURL] *)

(** C3.  On the raw path [??a=b], whose first two characters are outside
    the class, [cleanURL] strips nothing: the URL it resolves still has
    them, where the stripping of the specification leaves [a=b].  What
    the pattern can remove is its own text, [0-9a-zA-Z_-/] and colons:
    a path that does not start with it is kept whole. *)
Theorem cleanURL_keeps_leading_characters {W} (host : Host W) :
  replace_scary "??a=b" = "??a=b" /\
  strip_outside_class "??a=b" = "a=b" /\
  cleanURL host Scenario.web "??a=b" = URL_href host "https://example.org/data/??a=b" /\
  (forall scaryPath : string,
      JS.toLocaleLowerCase (JS.take 12 scaryPath) ≠ "0-9a-za-z_-/" ->
      replace_scary scaryPath = scaryPath).
Proof.
  repeat split; try reflexivity.
  intros scaryPath Hliteral. unfold replace_scary.
  destruct (String.eqb_spec (JS.toLocaleLowerCase (JS.take 12 scaryPath)) "0-9a-za-z_-/");
    [contradiction|reflexivity].
Qed.

Lemma cleanURL_keeps_leading_characters_witness :
  replace_scary "<script>/data/run.csv" = "<script>/data/run.csv".
Proof.
  apply (proj2 (proj2 (proj2 (cleanURL_keeps_leading_characters
                                (Scenario.host [] "granted" true))))).
  discriminate.
Defined.

(** ** [gUnzip] *)

Section Gzip.

Context {W : Type} (host : Host W).

Lemma gUnzip_plain (buffer : list Byte.byte) (fuel : nat) :
  hasGzipMagic buffer = false -> gUnzip host (S fuel) buffer = Some (Ok buffer).
Proof. intros H. simpl. now rewrite H. Qed.

End Gzip.

(** What [gUnzip] returns does not start with the magic number. *)
Lemma gUnzip_out_not_gzip {W} (host : Host W) (fuel : nat) :
  forall buffer out : list Byte.byte,
    gUnzip host fuel buffer = Some (Ok out) -> hasGzipMagic out = false.
Proof.
  induction fuel as [|fuel IH]; intros buffer out; [discriminate|].
  cbn [gUnzip]. destruct (hasGzipMagic buffer) eqn:Hmagic.
  - destruct (pako_inflate host buffer) as [[inflated|]|e]; [apply IH|discriminate..].
  - now intros [= <-].
Qed.

(** C5, as stated, fails for a plaintext that itself starts with the
    magic number: it is taken for one more layer, so it is not what comes
    back, whatever [pako.inflate] makes of it.  With an inflation that
    takes the frame off, the three bytes [1f 8b 68], compressed once,
    come back as [68]. *)
Lemma gUnzip_inflates_gzip_like_plaintext :
  (forall (W : Type) (host : Host W) (gzip : list Byte.byte -> list Byte.byte),
      ~ unwraps_every_plaintext host gzip) /\
  let h := Scenario.host [] "granted" true in
  (forall data, hasGzipMagic (Scenario.frame data) = true) /\
  (forall data, pako_inflate h (Scenario.frame data) = Ok (Some data)) /\
  gUnzip h 3 (Scenario.frame [x1f; x8b; x68]) = Some (Ok [x68]).
Proof.
  split; [|repeat split].
  intros W host gzip Hall.
  specialize (Hall [x1f; x8b; x68] 1%nat 3%nat ltac:(lia) ltac:(lia)).
  apply gUnzip_out_not_gzip in Hall. discriminate Hall.
Qed.

(** C5, amended.  Let [gzip] be the compression that [pako.inflate]
    undoes, whose output starts with the magic number.  A buffer whose
    first two bytes are not [0x1f 0x8b] is returned unchanged.  A
    plaintext that does not itself start with the magic number,
    compressed any number of times, comes back whole from one call, as
    soon as the recursion is given one level per layer and one more.  A
    plaintext that starts with the magic number never comes back: with no
    number of layers and no depth is it the result. *)
Theorem gUnzip_unwraps_every_layer {W} (host : Host W)
  (gzip : list Byte.byte -> list Byte.byte) :
  (forall data, hasGzipMagic (gzip data) = true) ->
  (forall data, pako_inflate host (gzip data) = Ok (Some data)) ->
  (forall (buffer : list Byte.byte) (fuel : nat),
      hasGzipMagic buffer = false ->
      gUnzip host (S fuel) buffer = Some (Ok buffer)) /\
  (forall (plain : list Byte.byte) (layers fuel : nat),
      hasGzipMagic plain = false -> (layers < fuel)%nat ->
      gUnzip host fuel (Nat.iter layers gzip plain) = Some (Ok plain)) /\
  (forall (plain : list Byte.byte) (layers fuel : nat),
      hasGzipMagic plain = true ->
      gUnzip host fuel (Nat.iter layers gzip plain) ≠ Some (Ok plain)).
Proof.
  intros Hmagic Hinflate. split; [|split].
  - intros buffer fuel. apply gUnzip_plain.
  - intros plain layers.
    induction layers as [|n IH]; intros fuel Hplain Hfuel.
    + destruct fuel as [|fuel]; [lia|]. now apply gUnzip_plain.
    + destruct fuel as [|fuel]; [lia|].
      cbn [Nat.iter nat_rect gUnzip]. rewrite Hmagic, Hinflate.
      apply IH; [assumption|lia].
  - intros plain layers fuel Hplain Hout.
    apply gUnzip_out_not_gzip in Hout. congruence.
Qed.

Lemma gUnzip_unwraps_every_layer_witness :
  let h := Scenario.host [] "granted" true in
  gUnzip h 1 [x68; x69] = Some (Ok [x68; x69]) /\
  gUnzip h 3 (Scenario.frame (Scenario.frame [x68; x69])) = Some (Ok [x68; x69]) /\
  gUnzip h 3 (Scenario.frame [x1f; x8b; x68]) ≠ Some (Ok [x1f; x8b; x68]).
Proof.
  intros h.
  destruct (gUnzip_unwraps_every_layer h Scenario.frame) as (Hplain & Hlayers & Hnever).
  - reflexivity.
  - reflexivity.
  - split; [|split].
    + apply Hplain. reflexivity.
    + apply (Hlayers [x68; x69] 2%nat 3%nat); [reflexivity|lia].
    + apply (Hnever [x1f; x8b; x68] 1%nat 3%nat). reflexivity.
Defined.

(** ** The GitHub adapter: binary or text *)

Lemma endsWith_refl (p : string) : JS.endsWith p p = true.
Proof. destruct p; simpl; [reflexivity|]. now rewrite Ascii.eqb_refl, String.eqb_refl. Qed.

(** [endsWith] is the suffix relation. *)
Lemma endsWith_spec (s p : string) :
  JS.endsWith s p = true <-> exists stem, s = stem +:+ p.
Proof.
  split.
  - induction s as [|c s IH]; cbn [JS.endsWith].
    + rewrite orb_false_r. intros H. apply String.eqb_eq in H as <-. now exists "".
    + intros H. apply orb_true_iff in H as [H|H].
      * exists "". apply String.eqb_eq in H. now rewrite H.
      * destruct (IH H) as [stem ->]. now exists (String c stem).
  - intros [stem ->]. induction stem as [|c stem IH].
    + apply endsWith_refl.
    + change (String.eqb (String c (stem +:+ p)) p || JS.endsWith (stem +:+ p) p = true).
      rewrite IH. apply orb_true_r.
Qed.

Lemma BINARIES_test_spec (path : string) :
  BINARIES_test (JS.toLocaleLowerCase path) = true <-> hasBinaryExtension path.
Proof.
  unfold BINARIES_test, hasBinaryExtension. rewrite existsb_exists. split.
  - intros (ext & Hin & He). apply endsWith_spec in He as [stem He].
    exists stem, ext. split; [|assumption].
    unfold BINARIES in Hin. cbn [In] in Hin. intuition congruence.
  - intros (stem & ext & Hin & He). exists ext. split.
    + unfold BINARIES. cbn [In]. intuition congruence.
    + apply endsWith_spec. now exists stem.
Qed.

(** C6.  When the answer of the API declares base64, the content is
    decoded to bytes, and the extension of the requested path decides, in
    either letter case: with one of the fourteen binary extensions the
    file is these bytes, with any other it is their UTF-8 text. *)
Theorem github_base64_classified_by_extension {W} (host : Host W)
  (scaryPath owner repo : string) (bits : list string) (st st' : State W)
  (json : GhFile) (content decoded : string) :
  githubBits scaryPath = owner :: repo :: bits ->
  githubFileJson host (owner +:+ "/" +:+ repo) bits st = (Ok json, st') ->
  gh_encoding json = Some "base64" ->
  gh_content json = Some content ->
  atob host content = Ok decoded ->
  (hasBinaryExtension scaryPath ->
   _getFileFromGitHub host scaryPath st
   = (Ok (GitHubFile (ContentBytes (String.list_byte_of_string decoded))), st')) /\
  (~ hasBinaryExtension scaryPath ->
   _getFileFromGitHub host scaryPath st
   = (Ok (GitHubFile
            (ContentText (TextDecoder_decode host (String.list_byte_of_string decoded)))),
      st')).
Proof.
  intros Hbits Hjson Henc Hcontent Hatob.
  assert (forall c, decodeGitHubContent host scaryPath json = Ok c ->
                    _getFileFromGitHub host scaryPath st = (Ok (GitHubFile c), st')) as Hrun.
  { intros c Hc. unfold _getFileFromGitHub. rewrite Hbits. unfold bind at 1.
    rewrite Hjson. unfold bind, settle, ret. now rewrite Hc. }
  assert (decodeGitHubContent host scaryPath json =
          if BINARIES_test (JS.toLocaleLowerCase scaryPath)
          then Ok (ContentBytes (String.list_byte_of_string decoded))
          else Ok (ContentText
                     (TextDecoder_decode host (String.list_byte_of_string decoded)))) as Hdec.
  { unfold decodeGitHubContent. rewrite Henc, Hcontent. simpl.
    rewrite Hatob. reflexivity. }
  split; intros Hext; apply Hrun; rewrite Hdec.
  - apply BINARIES_test_spec in Hext. now rewrite Hext.
  - destruct (BINARIES_test (JS.toLocaleLowerCase scaryPath)) eqn:Ht; [|reflexivity].
    exfalso. apply Hext. now apply BINARIES_test_spec.
Qed.

Lemma github_base64_classified_by_extension_witness :
  let answer := Scenario.jsonObject [("content", "aGk="); ("encoding", "base64")] in
  let api := "https://api.github.com/repos/simwrapper/examples/contents/" in
  let h := Scenario.host [(api +:+ "maps/Tile.PNG", answer);
                          (api +:+ "data/trips.csv", answer)] "granted" true in
  _getFileFromGitHub h "simwrapper/examples/maps/Tile.PNG" Scenario.fresh
  = (Ok (GitHubFile (ContentBytes [x68; x69])),
     {| CACHE := CACHE Scenario.fresh; world := [api +:+ "maps/Tile.PNG"] |}) /\
  _getFileFromGitHub h "simwrapper/examples/data/trips.csv" Scenario.fresh
  = (Ok (GitHubFile (ContentText "hi")),
     {| CACHE := CACHE Scenario.fresh; world := [api +:+ "data/trips.csv"] |}).
Proof.
  intros answer api h. split.
  - refine (proj1 (github_base64_classified_by_extension h
                     "simwrapper/examples/maps/Tile.PNG" "simwrapper" "examples"
                     ["maps"; "Tile.PNG"] Scenario.fresh _
                     {| gh_content := Some "aGk="; gh_encoding := Some "base64";
                        gh_sha := None |}
                     "aGk=" "hi" eq_refl eq_refl eq_refl eq_refl eq_refl) _).
    exists "simwrapper/examples/maps/tile", "png". split; [tauto|reflexivity].
  - refine (proj2 (github_base64_classified_by_extension h
                     "simwrapper/examples/data/trips.csv" "simwrapper" "examples"
                     ["data"; "trips.csv"] Scenario.fresh _
                     {| gh_content := Some "aGk="; gh_encoding := Some "base64";
                        gh_sha := None |}
                     "aGk=" "hi" eq_refl eq_refl eq_refl eq_refl eq_refl) _).
    intros Hext. apply BINARIES_test_spec in Hext. discriminate Hext.
Defined.

(** ** Config discovery *)

Lemma recordMatches_other folder (matches : list string) (mapping : gmap string string) yaml :
  yaml ∉ matches -> recordMatches folder matches mapping !! yaml = mapping !! yaml.
Proof.
  unfold recordMatches. revert mapping.
  induction matches as [|m matches IH]; intros mapping Hni; simpl; [reflexivity|].
  rewrite IH by (intros Hin; apply Hni; now right).
  apply lookup_insert_ne. intros ->. apply Hni. now left.
Qed.

Lemma recordMatches_match folder (matches : list string) (mapping : gmap string string) yaml :
  yaml ∈ matches ->
  recordMatches folder matches mapping !! yaml
  = Some (JS.replaceAll (folder +:+ "/" +:+ yaml) "//" "/").
Proof.
  revert mapping.
  induction matches as [|m matches IH]; intros mapping Hin.
  - now apply elem_of_nil in Hin.
  - change (recordMatches folder (m :: matches) mapping)
      with (recordMatches folder matches
              (<[m := JS.replaceAll (folder +:+ "/" +:+ m) "//" "/"]> mapping)).
    destruct (decide (yaml ∈ matches)) as [Hrest|Hrest]; [now apply IH|].
    rewrite recordMatches_other by assumption.
    apply elem_of_cons in Hin as [->|Hin]; [|contradiction].
    apply lookup_insert_eq.
Qed.

Lemma recordMatches_supersedes folder matches mapping :
  supersedes folder matches mapping (recordMatches folder matches mapping).
Proof.
  intros yaml. destruct (decide (yaml ∈ matches)).
  - now apply recordMatches_match.
  - now apply recordMatches_other.
Qed.

Section DiscoveryFacts.

Context {W : Type} (host : Host W).

Lemma foldM_app {S A B} (body : B -> A -> M S B) (l1 l2 : list A) (acc : B) (st : S) :
  foldM body acc (l1 ++ l2) st =
  match foldM body acc l1 st with
  | (Ok acc', st') => foldM body acc' l2 st'
  | (Throw e, st') => (Throw e, st')
  end.
Proof.
  revert acc st. induction l1 as [|x l1 IH]; intros acc st; simpl; [reflexivity|].
  unfold bind. destruct (body acc x st) as [[acc'|e] st']; [apply IH|reflexivity].
Qed.

Lemma yamlFoldersIn_configFolderOf (currentPath : string) (dirs : list string) :
  Forall (configFolderOf currentPath) (yamlFoldersIn currentPath dirs).
Proof.
  apply Forall_forall. intros configFolder Hin. unfold yamlFoldersIn in Hin.
  apply list_elem_of_In, in_map_iff in Hin as (dir & <- & Hdir).
  apply list_elem_of_In, list_elem_of_filter in Hdir as [Hyaml _].
  now exists dir.
Qed.

(** The first loop swallows every listing failure and only appends: what
    it collects is, ancestor after ancestor from the root, some config
    folders of that ancestor. *)
Lemma listAncestors_order this (chunks : list string) :
  forall (acc : string * list string) (st : State W),
  exists currentPath founds st',
    foldM (listAncestor host this) acc chunks st
    = (Ok (currentPath, snd acc ++ concat founds), st') /\
    Forall2 (fun ancestor found => Forall (configFolderOf ancestor) found)
      (ancestorPaths (fst acc) chunks) founds.
Proof.
  induction chunks as [|chunk chunks IH]; intros [currentPath configFolders] st.
  - exists currentPath, [], st. cbn [foldM ret concat fst snd ancestorPaths].
    rewrite app_nil_r. split; [reflexivity|constructor].
  - cbn [foldM fst snd ancestorPaths].
    set (path := JS.replaceAll (currentPath +:+ chunk +:+ "/") "//" "/").
    assert (exists found st1,
               listAncestor host this (currentPath, configFolders) chunk st
               = (Ok (path, configFolders ++ found), st1) /\
               Forall (configFolderOf path) found) as (found & st1 & Hstep & Hfound).
    { unfold listAncestor, bind, try_catch, ret. cbn [fst snd]. fold path.
      destruct (getDirectory host this path st) as [[entry|e] st1].
      - exists (yamlFoldersIn path (dirs entry)), st1.
        split; [reflexivity|apply yamlFoldersIn_configFolderOf].
      - exists [], st1. split; [reflexivity|constructor]. }
    destruct (IH (path, configFolders ++ found) st1)
      as (currentPath' & founds & st' & Hrest & Horder).
    exists currentPath', (found :: founds), st'. split.
    + unfold bind. rewrite Hstep, Hrest. cbn [fst snd concat].
      now rewrite app_assoc.
    + now constructor.
Qed.

(** The candidates are the config folders collected along the ancestors
    and then the target folder, last. *)
Lemma findConfigFolders_order this folder (st : State W) :
  exists founds st1,
    findConfigFolders host this folder st = (Ok (concat founds ++ [folder]), st1) /\
    Forall2 (fun ancestor found => Forall (configFolderOf ancestor) found)
      (ancestorPaths "/" (ancestorChunks folder)) founds.
Proof.
  destruct (listAncestors_order this (ancestorChunks folder) ("/", []) st)
    as (currentPath & founds & st1 & Hwalk & Horder).
  exists founds, st1. split; [|exact Horder].
  unfold findConfigFolders, bind. now rewrite Hwalk.
Qed.

(** One more candidate folder: its listing is recorded over what the
    folders before it gave. *)
Lemma scanConfigFolders_snoc this (pre : list string) (configFolder : string)
  (yamls0 earlier : YamlConfigs) (st1 st2 st' : State W) (entry : DirectoryEntry) :
  scanConfigFolders host this pre yamls0 st1 = (Ok earlier, st2) ->
  getDirectory host this configFolder st2 = (Ok entry, st') ->
  scanConfigFolders host this (pre ++ [configFolder]) yamls0 st1
  = (Ok (recordFolder host configFolder (files entry) earlier), st').
Proof.
  intros Hpre Hlast. unfold scanConfigFolders in *.
  rewrite foldM_app, Hpre. cbn [foldM]. unfold bind, ret. now rewrite Hlast.
Qed.

Lemma recordFolder_recordedOver (configFolder : string) (files : list string)
  (earlier : YamlConfigs) :
  recordedOver host configFolder files earlier (recordFolder host configFolder files earlier).
Proof. repeat split; apply recordMatches_supersedes. Qed.

End DiscoveryFacts.

Example ancestors_of_project :
  ancestorPaths "/" (ancestorChunks "/root/project") = ["/"; "/root/"].
Proof. reflexivity. Qed.

(** C7.  The candidate folders are config folders of the ancestors, listed
    ancestor after ancestor from the root down, and then the target
    folder, last.  Every candidate is recorded over the ones before it:
    for each of the four mappings, what it matches is stored under the
    file name with the path in that folder, over whatever an earlier
    folder stored under that name, and the other names keep what they
    had.  So what the target folder matches resolves, in the mapping
    returned, to the path in the target folder. *)
Theorem findAllYamlConfigs_target_supersedes {W} (host : Host W)
  (this : HTTPFileSystem) (folder : string) (st : State W) :
  (exists founds st1,
      findConfigFolders host this folder st = (Ok (concat founds ++ [folder]), st1) /\
      Forall2 (fun ancestor found => Forall (configFolderOf ancestor) found)
        (ancestorPaths "/" (ancestorChunks folder)) founds) /\
  (forall pre configFolder yamls0 st1 earlier st2 entry st',
      scanConfigFolders host this pre yamls0 st1 = (Ok earlier, st2) ->
      getDirectory host this configFolder st2 = (Ok entry, st') ->
      exists yamls,
        scanConfigFolders host this (pre ++ [configFolder]) yamls0 st1 = (Ok yamls, st') /\
        recordedOver host configFolder (files entry) earlier yamls) /\
  (forall ancestors st1 earlier st2 entry st',
      findConfigFolders host this folder st = (Ok (ancestors ++ [folder]), st1) ->
      scanConfigFolders host this ancestors
        {| dashboards := ∅; topsheets := ∅; vizes := ∅; configs := ∅ |} st1
      = (Ok earlier, st2) ->
      getDirectory host this folder st2 = (Ok entry, st') ->
      exists yamls,
        findAllYamlConfigs host this folder st = (Ok yamls, st') /\
        recordedOver host folder (files entry) earlier yamls).
Proof.
  split; [apply findConfigFolders_order|]. split.
  - intros pre configFolder yamls0 st1 earlier st2 entry st' Hpre Hlast.
    exists (recordFolder host configFolder (files entry) earlier).
    split; [now apply (scanConfigFolders_snoc host this pre configFolder yamls0 earlier
                         st1 st2)|].
    apply recordFolder_recordedOver.
  - intros ancestors st1 earlier st2 entry st' Hfolders Hscan Htarget.
    exists (recordFolder host folder (files entry) earlier).
    split; [|apply recordFolder_recordedOver].
    unfold findAllYamlConfigs, bind. rewrite Hfolders.
    now apply (scanConfigFolders_snoc host this ancestors folder _ earlier st1 st2).
Qed.

Lemma findAllYamlConfigs_target_supersedes_witness :
  let base := "https://example.org/data/" in
  let h :=
    Scenario.host
      [(base, Scenario.svnPage ["root/"]);
       (base +:+ "root/", Scenario.svnPage ["project/"; "simwrapper/"]);
       (base +:+ "root/simwrapper/", Scenario.svnPage ["dashboard-1.yaml"; "viz-map.yaml"]);
       (base +:+ "root/project/", Scenario.svnPage ["dashboard-1.yaml"; "output.csv"])]
      "granted" true in
  exists yamls st',
    findAllYamlConfigs h Scenario.web "/root/project" Scenario.fresh = (Ok yamls, st') /\
    dashboards yamls !! "dashboard-1.yaml" = Some "/root/project/dashboard-1.yaml" /\
    vizes yamls !! "viz-map.yaml" = Some "/root/simwrapper/viz-map.yaml".
Proof.
  intros base h.
  set (none := {| dashboards := ∅; topsheets := ∅; vizes := ∅; configs := ∅ |}).
  set (st1 := snd (findConfigFolders h Scenario.web "/root/project" Scenario.fresh)).
  set (earlier :=
         {| dashboards := {[ "dashboard-1.yaml" := "/root/simwrapper/dashboard-1.yaml" ]};
            topsheets := ∅;
            vizes := {[ "viz-map.yaml" := "/root/simwrapper/viz-map.yaml" ]};
            configs := ∅ |}).
  set (st2 := snd (scanConfigFolders h Scenario.web ["/root/simwrapper"] none st1)).
  set (entry := {| files := ["dashboard-1.yaml"; "output.csv"]; dirs := [];
                   handles := ∅; html := None |}).
  set (st' := snd (getDirectory h Scenario.web "/root/project" st2)).
  destruct (proj2 (proj2 (findAllYamlConfigs_target_supersedes h Scenario.web
                            "/root/project" Scenario.fresh))
              ["/root/simwrapper"] st1 earlier st2 entry st')
    as (yamls & Hrun & Hd & _ & Hv & _).
  - vm_compute. reflexivity.
  - vm_compute. reflexivity.
  - vm_compute. reflexivity.
  - exists yamls, st'. split; [exact Hrun|]. split.
    + rewrite (Hd "dashboard-1.yaml"). vm_compute. reflexivity.
    + rewrite (Hv "viz-map.yaml"). vm_compute. reflexivity.
Defined.

(** ** Names in a listing *)

(** C8, as stated, fails: a Subversion-style page whose links are an
    absolute path, a name with two trailing slashes and a nested file is
    listed with the names [/svn/repo/trunk], [tags/] and [docs/readme.txt]. *)
Lemma getDirectory_names_keep_separators :
  let page := Scenario.svnPage ["/svn/repo/trunk/"; "tags//"; "docs/readme.txt"] in
  let h := Scenario.host [("https://example.org/data/", page)] "granted" true in
  fst (getDirectory h Scenario.web "/" Scenario.fresh)
  = Ok {| files := ["docs/readme.txt"]; dirs := ["/svn/repo/trunk"; "tags/"];
          handles := ∅; html := None |} /\
  ~ listing_always_clean h Scenario.web "/" Scenario.fresh.
Proof.
  intros page h. split; [vm_compute; reflexivity|].
  intros H.
  destruct (getDirectory h Scenario.web "/" Scenario.fresh) as [c st'] eqn:Hrun.
  assert (c = Ok {| files := ["docs/readme.txt"]; dirs := ["/svn/repo/trunk"; "tags/"];
                    handles := ∅; html := None |}) as ->.
  { change c with (fst (c, st')). rewrite <- Hrun. vm_compute. reflexivity. }
  destruct (H _ _ eq_refl) as [Hdirs _].
  specialize (Hdirs "tags/"). simpl in Hdirs.
  assert (JS.endsWith "tags/" "/" = false) as Hfalse.
  { apply Hdirs. apply list_elem_of_In. simpl. tauto. }
  vm_compute in Hfalse. discriminate Hfalse.
Qed.

Lemma indexOf_from_range (pat s : string) (i : Z) :
  JS.indexOf_from pat s i = -1 \/ i <= JS.indexOf_from pat s i.
Proof.
  revert i. induction s as [|c s IH]; intros i; cbn [JS.indexOf_from].
  - destruct (String.prefix pat ""); [right; lia|now left].
  - destruct (String.prefix pat (String c s)); [right; lia|].
    destruct (IH (i + 1)) as [->|H]; [now left|right; lia].
Qed.

Lemma indexOf_from_suffix (pat stem : string) (i : Z) :
  0 <= i -> 0 <= JS.indexOf_from pat (stem +:+ pat) i.
Proof.
  revert i. induction stem as [|c stem IH]; intros i Hi.
  - change ("" +:+ pat) with pat.
    assert (String.prefix pat pat = true) as Hp.
    { clear. induction pat as [|c pat IH]; simpl; [reflexivity|].
      destruct (ascii_dec c c) as [_|N]; [assumption|now destruct N]. }
    destruct pat as [|c pat]; cbn [JS.indexOf_from]; rewrite Hp; lia.
  - change (String c stem +:+ pat) with (String c (stem +:+ pat)).
    cbn [JS.indexOf_from].
    destruct (String.prefix pat (String c (stem +:+ pat))); [lia|].
    apply IH. lia.
Qed.

(** A name without a separator does not end with one. *)
Lemma clean_no_trailing (n : string) :
  JS.indexOf n "/" = -1 -> JS.endsWith n "/" = false.
Proof.
  intros H. destruct (JS.endsWith n "/") eqn:He; [|reflexivity].
  apply endsWith_spec in He as [stem ->].
  pose proof (indexOf_from_suffix "/" stem 0 ltac:(lia)) as Hp.
  unfold JS.indexOf in H. lia.
Qed.

Lemma simpleName_clean (name : string) :
  simpleName name = true -> JS.indexOf (dropTrailingSlash name) "/" = -1.
Proof.
  unfold simpleName, JS.indexOf. intros H. apply Z.ltb_lt in H.
  destruct (indexOf_from_range "/" (dropTrailingSlash name) 0) as [E|R]; [assumption|lia].
Qed.

Lemma substring_dropLast (s : string) :
  JS.substring s 0 (Z.of_nat (String.length s) - 1) = JS.dropLast s.
Proof.
  unfold JS.substring, JS.dropLast.
  replace (Z.to_nat (Z.max 0 0)) with 0%nat by reflexivity.
  rewrite Nat.min_0_l, Nat.max_0_l, Nat.sub_0_r. cbn [JS.sliceFrom].
  f_equal. lia.
Qed.

Lemma fold_left_invariant {A B} (P : B -> Prop) (f : B -> A -> B) (l : list A) (acc : B) :
  P acc -> (forall acc x, x ∈ l -> P acc -> P (f acc x)) -> P (fold_left f l acc).
Proof.
  revert acc. induction l as [|x l IH]; intros acc Hacc Hstep; simpl; [assumption|].
  apply IH.
  - apply Hstep; [now left|assumption].
  - intros acc' y Hy. apply Hstep. now right.
Qed.

(** What [pushEntry] adds to the files does not end with a slash. *)
Lemma pushEntry_files (acc : list string * list string) (name : string) :
  (forall f, f ∈ snd acc -> JS.endsWith f "/" = false) ->
  forall f, f ∈ snd (pushEntry acc name) -> JS.endsWith f "/" = false.
Proof.
  intros Hacc f. unfold pushEntry.
  destruct (JS.endsWith name "/") eqn:He; simpl; [apply Hacc|].
  rewrite elem_of_app, list_elem_of_singleton. intros [Hf| ->]; [now apply Hacc|assumption].
Qed.

(** A simple name is pushed as a clean name. *)
Lemma pushEntry_clean (acc : list string * list string) (name : string) :
  simpleName name = true ->
  (forall n, n ∈ fst acc ++ snd acc -> JS.indexOf n "/" = -1) ->
  forall n, n ∈ fst (pushEntry acc name) ++ snd (pushEntry acc name) ->
            JS.indexOf n "/" = -1.
Proof.
  intros Hs Hacc n. apply simpleName_clean in Hs. unfold dropTrailingSlash in Hs.
  unfold pushEntry. destruct (JS.endsWith name "/") eqn:He; simpl;
    rewrite !elem_of_app, list_elem_of_singleton.
  - intros [[Hn| ->]|Hn].
    + apply Hacc, elem_of_app; now left.
    + now rewrite substring_dropLast.
    + apply Hacc, elem_of_app; now right.
  - intros [Hn|[Hn| ->]].
    + apply Hacc, elem_of_app; now left.
    + apply Hacc, elem_of_app; now right.
    + assumption.
Qed.

Lemma listNames_files (nameOf : string -> option string) (lines : list string)
  (f : string) :
  f ∈ snd (listNames nameOf lines) -> JS.endsWith f "/" = false.
Proof.
  unfold listNames. revert f.
  apply (fold_left_invariant
           (fun acc => forall f, f ∈ snd acc -> JS.endsWith f "/" = false)).
  - intros f Hf. now apply elem_of_nil in Hf.
  - intros acc line _ Hacc. destruct (nameOf line); [|assumption].
    now apply pushEntry_files.
Qed.

Lemma listNames_clean (nameOf : string -> option string) (lines : list string) :
  linksSimple nameOf lines ->
  namesClean (entryOf (listNames nameOf lines)).
Proof.
  intros Hsimple.
  assert (forall n, n ∈ fst (listNames nameOf lines) ++ snd (listNames nameOf lines) ->
                    JS.indexOf n "/" = -1) as Hclean.
  { unfold listNames.
    apply (fold_left_invariant
             (fun acc => forall n, n ∈ fst acc ++ snd acc -> JS.indexOf n "/" = -1)).
    - intros n Hn. now apply elem_of_nil in Hn.
    - intros acc line Hline Hacc. destruct (nameOf line) as [name|] eqn:Hname;
        [|assumption].
      apply pushEntry_clean; [now apply (Hsimple line)|assumption]. }
  split; cbn [entryOf files dirs].
  - intros d Hd. apply clean_no_trailing, Hclean, elem_of_app. now left.
  - intros n Hn. apply Hclean. apply elem_of_app in Hn. apply elem_of_app. tauto.
Qed.

Lemma noSlash_cons (c : ascii) (s : string) : c ≠ "/"%char -> noSlash s -> noSlash (String c s).
Proof.
  intros Hc Hs i. cbn [JS.indexOf_from String.prefix].
  destruct (ascii_dec "/" c) as [E|_]; [now destruct Hc|]. apply Hs.
Qed.

(** The last slash of [s], when there is one, has none after it. *)
Lemma lastIndexOf_from_slash (s : string) (i : Z) :
  0 <= i ->
  (JS.lastIndexOf_from "/" s i = -1 /\ noSlash s) \/
  (exists k : nat, JS.lastIndexOf_from "/" s i = i + Z.of_nat k /\
                   noSlash (JS.sliceFrom (S k) s)).
Proof.
  revert i. induction s as [|c s IH]; intros i Hi.
  - left. split; [reflexivity|]. intros j. reflexivity.
  - cbn [JS.lastIndexOf_from String.prefix].
    destruct (IH (i + 1) ltac:(lia)) as [[Hr Hs]|(k & Hr & Hs)]; rewrite Hr.
    + cbn [Z.leb Z.compare]. destruct (ascii_dec "/" c) as [E|N].
      * right. exists 0%nat. replace (String.prefix "" s) with true by now destruct s.
        split; [lia|exact Hs].
      * left. split; [reflexivity|]. apply noSlash_cons; [congruence|assumption].
    + destruct (Z.leb_spec 0 (i + 1 + Z.of_nat k)) as [_|]; [|lia].
      right. exists (S k). split; [lia|exact Hs].
Qed.

(** The last segment of a name has no separator. *)
Lemma lastSegment_clean (d : string) : JS.indexOf (lastSegment d) "/" = -1.
Proof.
  unfold lastSegment, JS.lastIndexOf, JS.slice, JS.indexOf.
  destruct (lastIndexOf_from_slash d 0 ltac:(lia)) as [[Hr Hs]|(k & Hr & Hs)]; rewrite Hr.
  - cbn. apply Hs.
  - destruct (Z.ltb_spec (1 + (0 + Z.of_nat k)) 0) as [|_]; [lia|].
    replace (Z.to_nat (1 + (0 + Z.of_nat k))) with (S k) by lia. apply Hs.
Qed.

(** The Node static-server parser keeps the last segment of every name:
    its names are clean whatever the page holds. *)
Lemma buildListFromNpxServe_clean (data : string) : namesClean (buildListFromNpxServe data).
Proof.
  assert (forall (l : list string) n, n ∈ map lastSegment l -> JS.indexOf n "/" = -1)
    as Hmap.
  { intros l n Hn. apply list_elem_of_In, in_map_iff in Hn as (d & <- & _).
    apply lastSegment_clean. }
  unfold buildListFromNpxServe, entryOf. split; cbn [files dirs fst snd].
  - intros d Hd. apply clean_no_trailing. eapply Hmap, Hd.
  - intros n Hn. apply elem_of_app in Hn as [Hn|Hn]; eapply Hmap, Hn.
Qed.

Lemma parseAnchors_files (links : list (option string * string)) (f : string) :
  f ∈ fst (parseAnchors links) -> JS.endsWith f "/" = false.
Proof.
  unfold parseAnchors. revert f.
  apply (fold_left_invariant
           (fun acc => forall f, f ∈ fst acc -> JS.endsWith f "/" = false)).
  - intros f Hf. now apply elem_of_nil in Hf.
  - intros acc [href text] _ Hacc. cbn [fst snd].
    destruct (bool_decide (href = Some "../") || String.eqb (JS.trim text) "..");
      [assumption|].
    destruct href as [href|]; [|assumption].
    destruct (JS.truthy href && JS.truthy (JS.trim text)); [|assumption].
    destruct (JS.endsWith href "/" && JS.endsWith (JS.trim text) "/"); [assumption|].
    destruct (JS.endsWith href "/") eqn:He; cbn [negb andb]; [assumption|].
    destruct (negb (JS.endsWith (JS.trim text) "/")); [|assumption].
    cbn [fst]. intros f. rewrite elem_of_app, list_elem_of_singleton.
    intros [Hf| ->]; [now apply Hacc|assumption].
Qed.

Lemma parseAnchors_clean (links : list (option string * string)) :
  anchorsSimple links ->
  forall n, n ∈ fst (parseAnchors links) ++ snd (parseAnchors links) ->
            JS.indexOf n "/" = -1.
Proof.
  intros Hsimple. unfold parseAnchors.
  apply (fold_left_invariant
           (fun acc => forall n, n ∈ fst acc ++ snd acc -> JS.indexOf n "/" = -1)).
  - intros n Hn. now apply elem_of_nil in Hn.
  - intros acc [href text] Hlink Hacc. cbn [fst snd].
    destruct (bool_decide (href = Some "../") || String.eqb (JS.trim text) "..")
      eqn:Hparent; [assumption|].
    apply orb_false_iff in Hparent as [Hup Hdots].
    apply bool_decide_eq_false in Hup. apply String.eqb_neq in Hdots.
    destruct href as [href|]; [|assumption].
    destruct (JS.truthy href && JS.truthy (JS.trim text)) eqn:Htruthy; [|assumption].
    apply andb_true_iff in Htruthy as [Hhref Htext]. unfold JS.truthy in Hhref, Htext.
    apply negb_true_iff, String.eqb_neq in Hhref, Htext.
    assert (JS.endsWith href "/" = JS.endsWith (JS.trim text) "/" ->
            JS.indexOf (dropTrailingSlash href) "/" = -1) as Hc.
    { intros Hagree. apply simpleName_clean, (Hsimple href text Hlink).
      split; [|exact Hagree]. repeat split; [assumption..|congruence|assumption]. }
    destruct (JS.endsWith href "/") eqn:He, (JS.endsWith (JS.trim text) "/") eqn:Ht;
      cbn [negb andb]; try assumption.
    + cbn [fst snd]. intros n. rewrite !elem_of_app, list_elem_of_singleton.
      intros [Hn|[Hn| ->]]; [apply Hacc, elem_of_app; now left
                            |apply Hacc, elem_of_app; now right|now apply Hc].
    + cbn [fst snd]. intros n. rewrite !elem_of_app, list_elem_of_singleton.
      specialize (Hc eq_refl). unfold dropTrailingSlash in Hc. rewrite He in Hc.
      intros [[Hn| ->]|Hn]; [apply Hacc, elem_of_app; now left|assumption
                            |apply Hacc, elem_of_app; now right].
Qed.

(** One turn of the listing loop. *)
Lemma listEntries_snoc (entries : list FsHandle) (entry : FsHandle) :
  listEntries (entries ++ [entry])
  = let contents := listEntries entries in
    let handles' := <[handle_name entry := entry]> (handles contents) in
    if handle_is_file entry
    then {| files := files contents ++ [handle_name entry];
            dirs := dirs contents; handles := handles'; html := html contents |}
    else {| files := files contents;
            dirs := dirs contents ++ [handle_name entry];
            handles := handles'; html := html contents |}.
Proof. unfold listEntries. now rewrite fold_left_app. Qed.

(** A miss: with nothing under the looked-up key, the outcome is that of
    the adapter, a listing sorted and stored or a failure wrapped. *)
Lemma getDirectory_miss {W} (host : Host W) this p (st : State W) partition :
  CACHE st !! urlId this = Some partition ->
  partition !! lookupKey p = None ->
  getDirectory host this p st
  = match listBackend host this (storeKey p) st with
    | (Ok d, st1) =>
        (Ok (sortEntry host d),
         mkState (<[urlId this := <[storeKey p := sortEntry host d]> partition]> (CACHE st1))
                 (world st1))
    | (Throw e, st1) => (Throw (Error (toStr e)), st1)
    end.
Proof.
  intros Hp Hmiss. unfold getDirectory. rewrite Hp, Hmiss.
  unfold try_catch, bind, cacheWrite, ret, throw, storeKey.
  pose proof (listBackend_keeps host this
                (JS.replaceAll (lookupKey p) "/./" "/") st) as Hkeeps.
  destruct (listBackend host this _ st) as [[d|e] st1]; cbn [snd] in Hkeeps;
    [|reflexivity].
  now rewrite Hkeeps, Hp.
Qed.

Lemma emptyEntry_clean : namesClean emptyEntry.
Proof. split; intros n Hn; now apply elem_of_nil in Hn. Qed.

(** Whatever dialect is chosen, simple links give clean names. *)
Lemma buildListFromHtml_clean (data : string) :
  pageLinksSimple data -> namesClean (buildListFromHtml data).
Proof.
  unfold pageLinksSimple, buildListFromHtml.
  destruct (-1 <? JS.indexOf data "SimpleWebServer"); [apply listNames_clean|].
  destruct (-1 <? JS.indexOf data "<ul>"); [apply listNames_clean|].
  destruct (-1 <? JS.indexOf data _); [intros _; apply buildListFromNpxServe_clean|].
  destruct (-1 <? JS.indexOf data "<table>"); [apply listNames_clean|].
  destruct (-1 <? JS.indexOf data _); [apply listNames_clean|].
  intros _. apply emptyEntry_clean.
Qed.

(** The names that the listing loop lists are names of entries. *)
Lemma listEntries_names (entries : list FsHandle) (n : string) :
  n ∈ files (listEntries entries) ++ dirs (listEntries entries) ->
  exists entry : FsHandle, entry ∈ entries /\ n = handle_name entry.
Proof.
  induction entries as [|entry entries IH] using rev_ind.
  - intros Hn. now apply elem_of_nil in Hn.
  - rewrite listEntries_snoc. cbv zeta. intros Hn.
    assert (n ∈ files (listEntries entries) ++ dirs (listEntries entries)
            \/ n = handle_name entry) as [Hold| ->].
    { destruct (handle_is_file entry); cbn [files dirs] in Hn;
        rewrite !elem_of_app in Hn; rewrite ?list_elem_of_singleton in Hn;
        rewrite elem_of_app; tauto. }
    + destruct (IH Hold) as (x & Hx & ->). exists x. split; [|reflexivity].
      apply elem_of_app. now left.
    + exists entry. split; [|reflexivity]. apply elem_of_app. right. left.
Qed.

(** Names without a separator make a clean listing. *)
Lemma namesClean_of_plain (e : DirectoryEntry) :
  (forall n : string, n ∈ files e ++ dirs e -> JS.indexOf n "/" = -1) -> namesClean e.
Proof.
  intros Hplain. split; [|exact Hplain].
  intros d Hd. apply clean_no_trailing, Hplain, elem_of_app. now right.
Qed.

Lemma sortEntry_clean {W} (host : Host W) (d : DirectoryEntry) :
  sortKeeps host -> namesClean d -> namesClean (sortEntry host d).
Proof.
  intros Hsort [Hdirs Hnames]. split; cbn [sortEntry files dirs].
  - intros n Hn. now apply Hdirs, Hsort.
  - intros n Hn. apply Hnames. rewrite elem_of_app in Hn. rewrite elem_of_app.
    destruct Hn as [Hn|Hn]; [left|right]; now apply Hsort.
Qed.

(** What the adapter lists from a well-formed source is clean. *)
Lemma listBackend_clean {W} (host : Host W) (this : HTTPFileSystem) (key : string)
  (st st1 : State W) (raw : DirectoryEntry) :
  listBackend host this key st = (Ok raw, st1) ->
  sourceSimple host this key st (sortEntry host raw) ->
  namesClean raw.
Proof.
  unfold listBackend, sourceSimple.
  destruct (fsHandle this) as [h|] eqn:Hhandle.
  - unfold getDirectoryFromHandle. rewrite Hhandle. unfold bind at 1.
    destruct (getChromePermission host this (Some h) st) as [[granted|e] st0];
      [|discriminate].
    destruct granted; cbn [negb].
    + unfold bind, gets, settle.
      destruct (readFolder _ h _) as [listed|e] eqn:Hread; [|discriminate].
      intros Hrun Hsource. injection Hrun as <- _.
      unfold readFolder in Hread.
      assert (exists name entries,
                 walkFolders h (eatDots (filter (fun p => JS.truthy p = true)
                                           (JS.split key "/")))
                 = Ok (DirectoryHandle name entries) /\
                 listed = listEntries entries) as (name & entries & Hwalk & ->).
      { clear Hsource.
        assert (match walkFolders h (eatDots (filter (fun p => JS.truthy p = true)
                                                (JS.split key "/"))) with
                | Ok currentDir =>
                    match handle_values currentDir with
                    | Ok entries => Ok (listEntries entries)
                    | Throw e => Throw e
                    end
                | Throw e => Throw e
                end = Ok listed) as Hinner.
        { destruct h as [file|name entries]; [exact Hread|].
          destruct (readPermitted host _ st0); [exact Hread|discriminate]. }
        destruct (walkFolders h _) as [[file|name entries]|e]; [discriminate| |discriminate].
        exists name, entries. split; [reflexivity|].
        cbn [handle_values] in Hinner. congruence. }
      apply namesClean_of_plain. intros n Hn.
      apply listEntries_names in Hn as (entry & Hentry & ->).
      exact (Hsource name entries Hwalk entry Hentry).
    + unfold ret. intros Hrun _. injection Hrun as <- _. apply emptyEntry_clean.
  - destruct (isGithub this).
    + unfold _getDirectoryFromGitHub.
      destruct (githubBits key) as [|owner [|repo bits]] eqn:Hbits;
        [unfold ret; intros Hrun _; injection Hrun as <- _; apply emptyEntry_clean..|].
      unfold bind at 1.
      destruct (fetchJson host (json_listing host) _ st) as [[[entries|]|e] st0] eqn:Hjson;
        [|discriminate..].
      unfold ret. intros Hrun Hsource. injection Hrun as <- _.
      apply namesClean_of_plain. cbn [files dirs]. intros n Hn.
      apply elem_of_app in Hn as [Hn|Hn];
        apply list_elem_of_In, in_map_iff in Hn as ([kind name] & <- & Hin);
        apply list_elem_of_In, list_elem_of_filter in Hin as [Hkind Hin];
        cbn [fst snd] in *;
        apply (Hsource owner repo bits entries st0 eq_refl Hjson kind name Hin); tauto.
    + destruct (needsAuth this).
      * unfold _getDirectoryFromAWS. unfold bind at 1.
        destruct (requestAuthToken host st) as [[tu|e] st0]; [|discriminate].
        unfold bind at 1, settle at 1.
        destruct (URL_href_base host _ (baseUrl this)) as [fullPath|e]; [|discriminate].
        unfold bind at 1.
        destruct (onWorldC _ st0) as [[response|e] st2]; [|discriminate].
        destruct (negb (ok response)); [discriminate|].
        unfold ret. intros Hrun Hsource. injection Hrun as <- _.
        cbn [sortEntry html] in Hsource. specialize (Hsource _ eq_refl).
        pose proof (parseAnchors_clean _ Hsource) as Hclean.
        apply namesClean_of_plain. cbn [files dirs]. exact Hclean.
      * unfold getDirectoryFromURL, bind, settle.
        destruct (_getFileResponse host this key st) as [[response|e] st0] eqn:Hresponse;
          [|discriminate].
        intros Hrun Hsource. specialize (Hsource response st0 eq_refl).
        destruct response as [r|[text|bytes|]| |text]; cbn [listingOfResponse] in Hrun;
          try discriminate; injection Hrun as <- _;
          first [now apply buildListFromHtml_clean|apply emptyEntry_clean].
Qed.

Lemma sortNames_keeps (l : list string) (x : string) : x ∈ Scenario.sortNames l -> x ∈ l.
Proof.
  assert (forall y l', x ∈ Scenario.insertName y l' -> x = y \/ x ∈ l') as Hinsert.
  { intros y l'. induction l' as [|z l' IH]; cbn [Scenario.insertName].
    - rewrite list_elem_of_singleton. tauto.
    - destruct (String.leb _ _); rewrite !elem_of_cons; [tauto|].
      intros [->|Hx]; [tauto|]. destruct (IH Hx); tauto. }
  induction l as [|y l IH]; cbn [Scenario.sortNames fold_right]; [tauto|].
  intros Hx. apply Hinsert in Hx as [->|Hx]; [left|right; now apply IH].
Qed.

(** C8, amended.  For every backend and every HTML dialect: the entry
    that [getDirectory] returns has no directory name with a trailing
    separator and no name with a separator in it, whenever the names that
    the backend takes from its source are well formed.  That is: the
    names of the entries of the folder, for a folder handle; the names of
    the [file] and [dir] entries of the API answer, for GitHub; the link
    targets that the parser lists, for a page (each has no separator
    other than one at its end; the Node static-server dialect needs
    nothing, since it keeps the last segment).  An entry served from the
    cache is the entry kept there.  The sort is a host function, taken to
    give back names of the list it is given. *)
Theorem getDirectory_names_clean_for_simple_sources {W} (host : Host W)
  (this : HTTPFileSystem) (p : string) (st st' : State W) (e : DirectoryEntry) :
  sortKeeps host ->
  getDirectory host this p st = (Ok e, st') ->
  (forall (partition : gmap string DirectoryEntry) (cached : DirectoryEntry),
      CACHE st !! urlId this = Some partition ->
      partition !! lookupKey p = Some cached -> namesClean cached) ->
  (forall partition : gmap string DirectoryEntry,
      CACHE st !! urlId this = Some partition ->
      partition !! lookupKey p = None -> sourceSimple host this (storeKey p) st e) ->
  namesClean e.
Proof.
  intros Hsort Hrun Hcached Hsource.
  destruct (CACHE st !! urlId this) as [partition|] eqn:Hpartition.
  - destruct (partition !! lookupKey p) as [cached|] eqn:Hkey.
    + unfold getDirectory in Hrun. rewrite Hpartition, Hkey in Hrun.
      injection Hrun as <- _. exact (Hcached partition cached eq_refl Hkey).
    + rewrite (getDirectory_miss host this p st partition Hpartition Hkey) in Hrun.
      destruct (listBackend host this (storeKey p) st) as [[raw|thrown] st1] eqn:Hraw;
        [|discriminate].
      injection Hrun as <- _. apply sortEntry_clean; [exact Hsort|].
      exact (listBackend_clean host this (storeKey p) st st1 raw Hraw
               (Hsource partition eq_refl Hkey)).
  - unfold getDirectory in Hrun. rewrite Hpartition in Hrun. discriminate.
Qed.

Lemma getDirectory_names_clean_for_simple_sources_witness :
  let page := Scenario.svnPage ["../"; "sub/"; "./y.csv"] in
  let h := Scenario.host [("https://example.org/data/", page)] "granted" true in
  let e := {| files := ["y.csv"]; dirs := ["sub"]; handles := ∅; html := None |} in
  let folder := {| files := ["a.csv"]; dirs := [];
                   handles := {[ "a.csv" := FileHandle "a.csv" ]}; html := None |} in
  (fst (getDirectory h Scenario.web "/" Scenario.fresh) = Ok e /\ namesClean e) /\
  (fst (getDirectory h Scenario.local "/runs" Scenario.freshLocal) = Ok folder /\
   namesClean folder).
Proof.
  intros page h e folder. split; (split; [vm_compute; reflexivity|]).
  - apply (getDirectory_names_clean_for_simple_sources h Scenario.web "/" Scenario.fresh
             (snd (getDirectory h Scenario.web "/" Scenario.fresh)) e).
    + exact sortNames_keeps.
    + vm_compute. reflexivity.
    + intros partition cached Hpartition Hkey. vm_compute in Hpartition.
      injection Hpartition as <-. discriminate Hkey.
    + intros partition _ _ response st1 Hresponse. vm_compute in Hresponse.
      injection Hresponse as <- _.
      intros line name Hline Hname. apply list_elem_of_In in Hline.
      vm_compute in Hline.
      repeat (destruct Hline as [<-|Hline];
              [vm_compute in Hname; first [discriminate Hname
                                          |injection Hname as <-; reflexivity]|]).
      destruct Hline.
  - apply (getDirectory_names_clean_for_simple_sources h Scenario.local "/runs"
             Scenario.freshLocal
             (snd (getDirectory h Scenario.local "/runs" Scenario.freshLocal)) folder).
    + exact sortNames_keeps.
    + vm_compute. reflexivity.
    + intros partition cached Hpartition Hkey. vm_compute in Hpartition.
      injection Hpartition as <-. discriminate Hkey.
    + intros partition _ _ name entries Hwalk entry Hentry. vm_compute in Hwalk.
      injection Hwalk as _ <-. apply list_elem_of_singleton in Hentry as ->.
      reflexivity.
Defined.

(** ** The permission gate of the local-handle adapter *)

(** C10.  Without a folder handle the listing is empty.  With one, when
    read permission is not already granted and the prompt raised through
    the store resolves to a denial, the listing is empty as well: the call
    returns, it does not throw. *)
Theorem getDirectoryFromHandle_denied_is_empty {W} (host : Host W)
  (this : HTTPFileSystem) (stillScaryPath : string) (st : State W) :
  (fsHandle this = None ->
   getDirectoryFromHandle host this stillScaryPath st = (Ok emptyEntry, st)) /\
  (forall (h : FsHandle) (s : Store) (status : string) (w1 w2 : W),
      fsHandle this = Some h ->
      store this = Some s ->
      queryPermission host h (world st) = (status, w1) ->
      status ≠ "granted" ->
      permissionPrompt host h w1 = (false, w2) ->
      getDirectoryFromHandle host this stillScaryPath st
      = (Ok emptyEntry, {| CACHE := CACHE st; world := w2 |})) /\
  files emptyEntry = [] /\ dirs emptyEntry = [] /\ handles emptyEntry = ∅.
Proof.
  split; [|split; [|repeat split]].
  - intros Hnone. unfold getDirectoryFromHandle. now rewrite Hnone.
  - intros h s status w1 w2 Hh Hs Hq Hstatus Hprompt.
    unfold getDirectoryFromHandle. rewrite Hh.
    unfold getChromePermission, bind at 1. unfold bind at 1, onWorld at 1.
    rewrite Hq. cbn [CACHE world].
    destruct (String.eqb_spec status "granted") as [|_]; [contradiction|].
    cbn [negb]. rewrite Hs. unfold bind, onWorld. cbn [CACHE world].
    rewrite Hprompt. reflexivity.
Qed.

Lemma getDirectoryFromHandle_denied_is_empty_witness :
  getDirectoryFromHandle (Scenario.host [] "prompt" false) Scenario.local "/runs"
    Scenario.freshLocal
  = (Ok emptyEntry, Scenario.freshLocal).
Proof.
  apply (proj1 (proj2 (getDirectoryFromHandle_denied_is_empty
                         (Scenario.host [] "prompt" false) Scenario.local "/runs"
                         Scenario.freshLocal))
           (DirectoryHandle "home"
              [DirectoryHandle "runs" [FileHandle "a.csv"]; FileHandle "notes.txt"])
           AppStore "prompt" [] []).
  - reflexivity.
  - reflexivity.
  - reflexivity.
  - discriminate.
  - reflexivity.
Defined.

(** ** The wildcard step of the xy-time loader *)

Import XytDataParser.

(** C9, as stated, fails for the ambiguous case: with two candidates the
    error that [step1PrepareFetch] throws is [LOAD FAIL!] with the path
    asked for; the candidates are in the line written to the console. *)
Lemma step1PrepareFetch_error_omits_candidates :
  fst (step1PrepareFetch Scenario.runsHost "/runs/*.xyt.csv" Scenario.runsConfig Scenario.idleWorker)
  = Throw (Error "LOAD FAIL! /runs/*.xyt.csv") /\
  ~ thrown_error_names
      (fst (step1PrepareFetch Scenario.runsHost "/runs/*.xyt.csv" Scenario.runsConfig Scenario.idleWorker))
      ["a.xyt.csv"; "b.xyt.csv"].
Proof.
  assert (fst (step1PrepareFetch Scenario.runsHost "/runs/*.xyt.csv" Scenario.runsConfig Scenario.idleWorker)
          = Throw (Error "LOAD FAIL! /runs/*.xyt.csv")) as Hrun
      by (vm_compute; reflexivity).
  split; [exact Hrun|].
  rewrite Hrun. intros (message & Hm & Hnames).
  injection Hm as <-.
  assert (reports "LOAD FAIL! /runs/*.xyt.csv" "a.xyt.csv") as Hr.
  { apply Hnames. apply list_elem_of_In. simpl. tauto. }
  vm_compute in Hr. discriminate Hr.
Qed.

(** C9, amended.  For a path with [*] or [?] whose folder is listed: with
    no matching file, and with more than one, [step1PrepareFetch] writes an
    error line to the console (for more than one, the line names the
    candidates), posts an error message, and throws [LOAD FAIL!] with the
    path asked for; with exactly one it returns the URL of that file. *)
Theorem step1PrepareFetch_wildcard_outcomes {W} (host : Host W)
  (filepath : string) (fileSystem : FileSystemConfig) (ws : WorkerState W)
  (httpFileSystem : HTTPFileSystem) (st1 st2 : State W) (entry : DirectoryEntry) :
  let zDataset := JS.substringFrom filepath (1 + JS.lastIndexOf filepath "/") in
  let zSubfolder := JS.substring filepath 0 (JS.lastIndexOf filepath "/") in
  let matchingFiles := findMatchingGlobInFiles host (files entry) zDataset in
  (-1 <? JS.indexOf filepath "*") || (-1 <? JS.indexOf filepath "?") = true ->
  new_HTTPFileSystem fileSystem None (fsState ws) = (Ok httpFileSystem, st1) ->
  getDirectory host httpFileSystem zSubfolder st1 = (Ok entry, st2) ->
  step1PrepareFetch host filepath fileSystem ws =
  match matchingFiles with
  | [] =>
      loadFailure filepath
        ("Error: No files matched " +:+ JS.dquote +:+ zDataset +:+ JS.dquote) st2 ws
  | [file] =>
      (Ok (baseURL fileSystem +:+ "/" +:+ zSubfolder +:+ "/" +:+ file),
       {| fsState := st2;
          posted := posted ws ++ [StatusMessage ("Loading " +:+ filepath +:+ "...")];
          consoleErrors := consoleErrors ws |})
  | _ =>
      loadFailure filepath
        ("Error: More than one file matched " +:+ JS.dquote +:+ zDataset +:+ JS.dquote
         +:+ ": " +:+ JS.join "," matchingFiles) st2 ws
  end.
Proof.
  intros zDataset zSubfolder matchingFiles Hwild Hnew Hdir.
  unfold step1PrepareFetch, prepareFetch.
  unfold bind at 1, postMessage at 1, modify at 1.
  unfold try_catch, bind at 1, inFs at 1. cbn [fsState posted consoleErrors].
  rewrite Hnew. rewrite Hwild.
  unfold bind at 1. unfold bind at 1, inFs at 1. cbn [fsState posted consoleErrors].
  fold zSubfolder. rewrite Hdir. fold zDataset. fold matchingFiles.
  destruct matchingFiles as [|file [|file' rest]];
    unfold loadFailure, bind, throw, ret, console_error, postMessage, modify;
    reflexivity.
Qed.

Lemma step1PrepareFetch_wildcard_outcomes_witness :
  let entry := {| files := ["a.xyt.csv"; "b.xyt.csv"; "notes.txt"]; dirs := [];
                  handles := ∅; html := None |} in
  let st2 := {| CACHE := {[ "web" := {[ "/runs/" := entry ]} ]};
                world := ["https://example.org/data/runs/"] |} in
  step1PrepareFetch Scenario.runsHost "/runs/*.xyt.csv" Scenario.runsConfig Scenario.idleWorker
  = loadFailure "/runs/*.xyt.csv"
      ("Error: More than one file matched " +:+ JS.dquote +:+ "*.xyt.csv" +:+ JS.dquote
       +:+ ": a.xyt.csv,b.xyt.csv") st2 Scenario.idleWorker.
Proof.
  intros entry st2.
  refine (eq_trans
            (step1PrepareFetch_wildcard_outcomes Scenario.runsHost "/runs/*.xyt.csv" Scenario.runsConfig
               Scenario.idleWorker
               {| baseUrl := "https://example.org/data/"; urlId := "web";
                  needsAuth := false; fsHandle := None; store := None;
                  isGithub := false |}
               {| CACHE := {[ "web" := ∅ ]}; world := [] |} st2 entry _ _ _) _).
  - reflexivity.
  - vm_compute. reflexivity.
  - vm_compute. reflexivity.
  - vm_compute. reflexivity.
Defined.

(** * Further properties *)

(** ** The keys of the cache *)

Lemma endsWith_cons (c : ascii) (s p : string) :
  JS.endsWith s p = true -> JS.endsWith (String c s) p = true.
Proof. intros H. cbn [JS.endsWith]. rewrite H. apply orb_true_r. Qed.

(** A string that ends with a slash is the slash, or its tail ends with
    one. *)
Lemma endsWith_slash_inv (c : ascii) (s : string) :
  JS.endsWith (String c s) "/" = true ->
  (c = "/"%char /\ s = EmptyString) \/ JS.endsWith s "/" = true.
Proof.
  cbn [JS.endsWith]. intros H. apply orb_true_iff in H as [H|H]; [left|now right].
  apply String.eqb_eq in H. now injection H as -> ->.
Qed.

(** Collapsing [/./] keeps a slash at the end: what is left of a string
    that ends with one ends with one, unless all of it was skipped as the
    rest of a match. *)
Lemma replaceAll_dot_trailing (s : string) :
  forall skip : nat,
    JS.endsWith s "/" = true ->
    (skip ≠ 0%nat /\ JS.replaceAll_go "/./" "/" skip s = EmptyString) \/
    JS.endsWith (JS.replaceAll_go "/./" "/" skip s) "/" = true.
Proof.
  induction s as [|c s IH]; intros skip Hs; [discriminate Hs|].
  apply endsWith_slash_inv in Hs as [[-> ->]|Hs].
  - destruct skip as [|k]; [right; reflexivity|left; split; [discriminate|reflexivity]].
  - cbn [JS.replaceAll_go]. destruct skip as [|k].
    + right. destruct (String.prefix "/./" (String c s)).
      * change (String.length "/./" - 1)%nat with 2%nat.
        destruct (IH 2%nat Hs) as [[_ ->]|Hr]; [reflexivity|].
        now apply (endsWith_cons "/").
      * destruct (IH 0%nat Hs) as [[Hne _]|Hr]; [now destruct Hne|].
        now apply endsWith_cons.
    + destruct (IH k Hs) as [[_ Hr]|Hr]; [left; split; [discriminate|exact Hr]|now right].
Qed.

(** X2.  Every path that [getDirectory] looks up, and every path that it
    hands to an adapter and stores under, ends with a separator: a
    directory is never asked for as if it were a file. *)
Theorem listing_keys_end_with_separator (scaryPath : string) :
  JS.endsWith (lookupKey scaryPath) "/" = true /\
  JS.endsWith (storeKey scaryPath) "/" = true.
Proof.
  assert (JS.endsWith (lookupKey scaryPath) "/" = true) as Hlookup.
  { unfold lookupKey.
    destruct (JS.endsWith (JS.replaceAll scaryPath "//" "/") "/") eqn:He; [exact He|].
    apply endsWith_spec. now exists (JS.replaceAll scaryPath "//" "/"). }
  split; [exact Hlookup|].
  unfold storeKey, JS.replaceAll.
  destruct (replaceAll_dot_trailing (lookupKey scaryPath) 0 Hlookup) as [[Hne _]|Hr];
    [now destruct Hne|exact Hr].
Qed.

(** ** What [getDirectory] changes in the cache *)

(** X3.  A call of [getDirectory] leaves the partitions of the other slugs
    as they are, whatever its outcome, and in the partition of its own
    slug it changes at most the entry under the stored key. *)
Theorem getDirectory_changes_one_key {W} (host : Host W) (this : HTTPFileSystem)
  (scaryPath : string) (st st' : State W) (outcome : Completion DirectoryEntry) :
  getDirectory host this scaryPath st = (outcome, st') ->
  (forall other : string, other ≠ urlId this -> CACHE st' !! other = CACHE st !! other) /\
  (forall (partition partition' : gmap string DirectoryEntry) (key : string),
      CACHE st !! urlId this = Some partition ->
      CACHE st' !! urlId this = Some partition' ->
      key ≠ storeKey scaryPath ->
      partition' !! key = partition !! key).
Proof.
  unfold getDirectory.
  destruct (CACHE st !! urlId this) as [partition0|] eqn:Hpartition.
  2: { intros [= <- <-]. split; [reflexivity|]. intros ? ? ? H; discriminate H. }
  destruct (partition0 !! lookupKey scaryPath) as [cached|] eqn:Hcached.
  { intros [= <- <-]. split; [reflexivity|].
    intros partition partition' key [= <-] H' _.
    rewrite Hpartition in H'. now injection H' as <-. }
  unfold try_catch, bind, cacheWrite, ret, throw.
  pose proof (listBackend_keeps host this
                (JS.replaceAll (lookupKey scaryPath) "/./" "/") st) as Hkeeps.
  destruct (listBackend host this _ st) as [[dirEntry|e] st1]; cbn [snd] in Hkeeps.
  - rewrite Hkeeps, Hpartition. intros [= <- <-]. cbn [CACHE]. split.
    + intros other Hother. now rewrite lookup_insert_ne by congruence.
    + intros partition partition' key [= <-] H' Hkey.
      rewrite lookup_insert_eq in H'. injection H' as <-.
      now rewrite lookup_insert_ne by (unfold storeKey in Hkey; congruence).
  - intros [= <- <-]. rewrite Hkeeps. split; [reflexivity|].
    intros partition partition' key [= <-] H' _.
    rewrite Hpartition in H'. now injection H' as <-.
Qed.

Lemma getDirectory_changes_one_key_witness :
  let url := "https://example.org/data/a/b/" in
  let h := Scenario.host [(url, Scenario.svnPage ["sub/"; "x.csv"])] "granted" true in
  let st := {| CACHE := {[ "web" := ∅; "other" := {[ "/kept/" := emptyEntry ]} ]};
               world := [] |} in
  CACHE (snd (getDirectory h Scenario.web "/a/b" st)) !! "other"
  = Some {[ "/kept/" := emptyEntry ]}.
Proof.
  intros url h st.
  destruct (getDirectory h Scenario.web "/a/b" st) as [outcome st'] eqn:Hrun.
  cbn [snd].
  rewrite (proj1 (getDirectory_changes_one_key h Scenario.web "/a/b" st st' outcome Hrun)
             "other").
  - reflexivity.
  - discriminate.
Defined.

(** ** [clearCache] and the constructor *)

(** X4.  [clearCache] forgets every listing of its own slug and nothing
    else: the next [getDirectory] of any path asks the adapter again (a
    listing comes back sorted, a failure comes back wrapped, never a stale
    entry), while a file system with another slug is still served from
    its cached listings, and the outside world is not touched. *)
Theorem clearCache_forgets_own_slug_only {W} (host : Host W) (this : HTTPFileSystem)
  (st : State W) :
  let st0 := snd (clearCache this st) in
  fst (clearCache this st) = Ok tt /\
  world st0 = world st /\
  (forall p : string,
      fst (getDirectory host this p st0)
      = match fst (listBackend host this (storeKey p) st0) with
        | Ok d => Ok (sortEntry host d)
        | Throw e => Throw (Error (toStr e))
        end) /\
  (forall (that : HTTPFileSystem) (p : string) (partition : gmap string DirectoryEntry)
          (e : DirectoryEntry),
      urlId that ≠ urlId this ->
      CACHE st !! urlId that = Some partition ->
      partition !! lookupKey p = Some e ->
      getDirectory host that p st0 = (Ok e, st0)).
Proof.
  cbn [clearCache modify fst snd]. repeat split.
  - intros p.
    rewrite (getDirectory_miss host this p _ ∅);
      [|cbn [CACHE]; apply lookup_insert_eq|apply lookup_empty].
    now destruct (listBackend host this (storeKey p) _) as [[d|e] st1].
  - intros that p partition e Hother Hpartition He.
    apply (getDirectory_hit host that p _ partition); [|exact He].
    cbn [CACHE]. now rewrite lookup_insert_ne by congruence.
Qed.

Lemma clearCache_forgets_own_slug_only_witness :
  let h := Scenario.host [] "granted" true in
  let entry := {| files := ["x.csv"]; dirs := []; handles := ∅; html := None |} in
  let st := {| CACHE := {[ "web" := {[ "/a/" := entry ]};
                           "local" := {[ "/runs/" := entry ]} ]};
               world := [] |} in
  getDirectory h Scenario.local "/runs" (snd (clearCache Scenario.web st))
  = (Ok entry, snd (clearCache Scenario.web st)).
Proof.
  intros h entry st.
  apply (proj2 (proj2 (proj2 (clearCache_forgets_own_slug_only h Scenario.web st)))
           Scenario.local "/runs" {[ "/runs/" := entry ]} entry).
  - discriminate.
  - reflexivity.
  - reflexivity.
Defined.

(** X5.  The constructor never throws and never touches the outside world
    or the partition of another slug; the base URL of the object it
    returns ends with a separator; and afterwards the slug has a
    partition, the one it had when there was one. *)
Theorem constructor_opens_partition {W} (project : FileSystemConfig)
  (store : option Store) (st : State W) :
  exists this : HTTPFileSystem,
    fst (new_HTTPFileSystem project store st) = Ok this /\
    urlId this = slug project /\
    JS.endsWith (baseUrl this) "/" = true /\
    (JS.endsWith (baseURL project) "/" = true -> baseUrl this = baseURL project) /\
    let st' := snd (new_HTTPFileSystem project store st) in
    world st' = world st /\
    CACHE st' !! slug project = Some (default ∅ (CACHE st !! slug project)) /\
    (forall other : string, other ≠ slug project -> CACHE st' !! other = CACHE st !! other).
Proof.
  unfold new_HTTPFileSystem. cbn [urlId].
  destruct (CACHE st !! slug project) as [partition|] eqn:Hpartition; cbn [fst snd];
    eexists; (split; [reflexivity|]); cbn [urlId baseUrl]; (split; [reflexivity|]).
  all: split;
    [destruct (JS.endsWith (baseURL project) "/") eqn:He;
       [exact He|apply endsWith_spec; now exists (baseURL project)]|].
  all: split; [now intros ->|].
  - now repeat split.
  - cbn [CACHE world default]. repeat split.
    + apply lookup_insert_eq.
    + intros other Hother. now rewrite lookup_insert_ne by congruence.
Qed.

Lemma constructor_opens_partition_witness :
  exists this : HTTPFileSystem,
    fst (new_HTTPFileSystem Scenario.runsConfig None Scenario.fresh) = Ok this /\
    baseUrl this = "https://example.org/data/".
Proof.
  destruct (constructor_opens_partition Scenario.runsConfig None Scenario.fresh)
    as (this & Hthis & _).
  exists this. split; [exact Hthis|].
  vm_compute in Hthis. now injection Hthis as <-.
Defined.

(** X6.  The cache is shared by slug, whatever else the configurations say:
    a file system constructed later with the slug of an earlier one, even
    with another base URL or backend, is answered from the listing the
    earlier one stored, and nothing is fetched. *)
Theorem same_slug_shares_listings {W} (host : Host W) (this : HTTPFileSystem)
  (project : FileSystemConfig) (store : option Store) (p : string)
  (st st1 : State W) (e : DirectoryEntry) :
  slug project = urlId this ->
  storeKey p = lookupKey p ->
  getDirectory host this p st = (Ok e, st1) ->
  exists that : HTTPFileSystem,
    new_HTTPFileSystem project store st1 = (Ok that, st1) /\
    getDirectory host that p st1 = (Ok e, st1).
Proof.
  intros Hslug Hkey Hfirst.
  destruct (getDirectory_stored host this p st st1 e Hfirst)
    as (partition1 & Hpartition & Hfound).
  rewrite Hkey in Hfound.
  unfold new_HTTPFileSystem. cbn beta zeta iota delta [urlId].
  rewrite Hslug, Hpartition.
  eexists. split; [reflexivity|].
  apply (getDirectory_hit host _ p st1 partition1);
    [exact Hpartition|tauto].
Qed.

Lemma same_slug_shares_listings_witness :
  let url := "https://example.org/data/a/b/" in
  let h := Scenario.host [(url, Scenario.svnPage ["sub/"; "x.csv"])] "granted" true in
  let entry := {| files := ["x.csv"]; dirs := ["sub"]; handles := ∅; html := None |} in
  let elsewhere := {| slug := "web"; baseURL := "https://elsewhere.example/";
                      needPassword := true; handle := None; cfg_isGithub := false |} in
  let st1 := {| CACHE := {[ "web" := {[ "/a/b/" := entry ]} ]}; world := [url] |} in
  exists that : HTTPFileSystem,
    new_HTTPFileSystem elsewhere None st1 = (Ok that, st1) /\
    getDirectory h that "/a/b" st1 = (Ok entry, st1).
Proof.
  intros url h entry elsewhere st1.
  apply (same_slug_shares_listings h Scenario.web elsewhere None "/a/b"
           Scenario.fresh st1 entry).
  - reflexivity.
  - reflexivity.
  - vm_compute. reflexivity.
Defined.

(** ** The folder-handle adapter *)

Lemma find_absent (x : string) (entries : list FsHandle) :
  (forall h, h ∈ entries -> handle_name h ≠ x) ->
  List.find (fun h => String.eqb (handle_name h) x) entries = None.
Proof.
  induction entries as [|h entries IH]; intros Habsent; [reflexivity|].
  cbn [List.find]. destruct (String.eqb_spec (handle_name h) x) as [Heq|_].
  - exfalso. apply (Habsent h); [left|exact Heq].
  - apply IH. intros h' Hh'. apply Habsent. now right.
Qed.

(** The walk along a path is the walk along its start, then along its
    rest from the folder reached. *)
Lemma walkFolders_app (pre post : list string) :
  forall currentDir : FsHandle,
    walkFolders currentDir (pre ++ post)
    = match walkFolders currentDir pre with
      | Ok reached => walkFolders reached post
      | Throw e => Throw e
      end.
Proof.
  induction pre as [|subfolder pre IH]; intros currentDir; [reflexivity|].
  cbn [app walkFolders].
  destruct (handle_entries currentDir) as [entries|e]; [|reflexivity].
  destruct (List.find _ entries) as [h|]; [apply IH|reflexivity].
Qed.

(** X7.  The walk down a folder handle stops at the first segment it
    cannot follow: where the folder reached so far has no entry of that
    name, the error names that one segment (not the path), and where what
    was reached is a file, the walk fails with a [TypeError]; what comes
    after the segment is never looked at. *)
Theorem walkFolders_stops_at_first_missing (root : FsHandle) (pre post : list string)
  (subfolder : string) :
  (forall (name : string) (entries : list FsHandle),
      walkFolders root pre = Ok (DirectoryHandle name entries) ->
      (forall h, h ∈ entries -> handle_name h ≠ subfolder) ->
      walkFolders root (pre ++ subfolder :: post)
      = Throw (Error ("Could not find folder " +:+ JS.dquote +:+ subfolder +:+ JS.dquote))) /\
  (forall name : string,
      walkFolders root pre = Ok (FileHandle name) ->
      walkFolders root (pre ++ subfolder :: post)
      = Throw (TypeError "currentDir is not async iterable")) /\
  (forall e : Thrown,
      walkFolders root pre = Throw e ->
      walkFolders root (pre ++ subfolder :: post) = Throw e).
Proof.
  repeat split.
  - intros name entries Hpre Habsent. rewrite walkFolders_app, Hpre.
    cbn [walkFolders handle_entries]. now rewrite (find_absent subfolder entries Habsent).
  - intros name Hpre. now rewrite walkFolders_app, Hpre.
  - intros e Hpre. now rewrite walkFolders_app, Hpre.
Qed.

Lemma walkFolders_stops_at_first_missing_witness :
  walkFolders (DirectoryHandle "home"
                 [DirectoryHandle "runs" [FileHandle "a.csv"]; FileHandle "notes.txt"])
    (["runs"] ++ "2024" :: ["output"])
  = Throw (Error ("Could not find folder " +:+ JS.dquote +:+ "2024" +:+ JS.dquote)).
Proof.
  apply (proj1 (walkFolders_stops_at_first_missing
                  (DirectoryHandle "home"
                     [DirectoryHandle "runs" [FileHandle "a.csv"]; FileHandle "notes.txt"])
                  ["runs"] ["output"] "2024") "runs" [FileHandle "a.csv"]).
  - reflexivity.
  - intros h Hh. apply list_elem_of_singleton in Hh as ->. discriminate.
Defined.

(** X8.  No path climbs above the folder that was opened: when a [..] is
    left after [eatDots] (the path has more [..] than folders before
    them) and the permission gate lets the call through, the listing
    fails, provided no entry of the opened folder has the name [..]: with
    an error about a folder named [..] when the platform gives read
    access, and with the [NotAllowedError] of the platform when it gives
    none. *)
Theorem getDirectoryFromHandle_never_leaves_root {W} (host : Host W)
  (this : HTTPFileSystem) (stillScaryPath name : string) (entries : list FsHandle)
  (st st1 : State W) :
  fsHandle this = Some (DirectoryHandle name entries) ->
  (forall h, h ∈ entries -> handle_name h ≠ "..") ->
  getChromePermission host this (fsHandle this) st = (Ok true, st1) ->
  ".." ∈ eatDots (filter (fun p => JS.truthy p = true) (JS.split stillScaryPath "/")) ->
  getDirectoryFromHandle host this stillScaryPath st
  = (Throw (if String.eqb (fst (queryPermission host (DirectoryHandle name entries)
                                  (world st1))) "granted"
            then Error ("Could not find folder " +:+ JS.dquote +:+ ".." +:+ JS.dquote)
            else NotAllowedError),
     st1).
Proof.
  intros Hhandle Habsent Hgranted Hdots.
  destruct (leading_dotdot _ (eatDots_done _) Hdots) as [rest Hrest].
  unfold getDirectoryFromHandle. rewrite Hhandle in *.
  unfold bind at 1. rewrite Hgranted. cbn [negb]. rewrite Hrest.
  unfold bind, gets, settle, readPermitted.
  destruct (String.eqb _ "granted"); [|reflexivity].
  cbn [readFolder walkFolders handle_entries].
  now rewrite (find_absent ".." entries Habsent).
Qed.

Lemma getDirectoryFromHandle_never_leaves_root_witness :
  getDirectoryFromHandle (Scenario.host [] "granted" true) Scenario.local
    "/runs/../../etc" Scenario.freshLocal
  = (Throw (Error ("Could not find folder " +:+ JS.dquote +:+ ".." +:+ JS.dquote)),
     Scenario.freshLocal).
Proof.
  apply (getDirectoryFromHandle_never_leaves_root (Scenario.host [] "granted" true)
           Scenario.local "/runs/../../etc" "home"
           [DirectoryHandle "runs" [FileHandle "a.csv"]; FileHandle "notes.txt"]).
  - reflexivity.
  - intros h Hh. apply elem_of_cons in Hh as [->|Hh]; [discriminate|].
    apply list_elem_of_singleton in Hh as ->. discriminate.
  - reflexivity.
  - vm_compute. left.
Defined.

(** The handle stored under a name is the last entry of that name. *)
Lemma listEntries_handles (entries : list FsHandle) (name : string) :
  handles (listEntries entries) !! name
  = List.find (fun h => String.eqb (handle_name h) name) (rev entries).
Proof.
  induction entries as [|entry entries IH] using rev_ind; [apply lookup_empty|].
  rewrite listEntries_snoc, rev_app_distr. cbv zeta.
  cbn [rev app List.find].
  destruct (handle_is_file entry); cbn [handles];
    (destruct (String.eqb_spec (handle_name entry) name) as [->|Hne];
     [apply lookup_insert_eq|rewrite lookup_insert_ne by exact Hne; exact IH]).
Qed.

(** X9.  What the folder-handle adapter lists: the names of the file
    entries and of the folder entries, each in the order of the folder,
    and under every name the handle of the entry with that name, the last
    one when a name comes twice; there is no page source. *)
Theorem listEntries_lists_by_kind (entries : list FsHandle) :
  files (listEntries entries)
  = map handle_name (filter (fun h => handle_is_file h = true) entries) /\
  dirs (listEntries entries)
  = map handle_name (filter (fun h => handle_is_file h = false) entries) /\
  (forall name : string,
      handles (listEntries entries) !! name
      = List.find (fun h => String.eqb (handle_name h) name) (rev entries)) /\
  html (listEntries entries) = None.
Proof.
  split; [|split; [|split; [exact (listEntries_handles entries)|]]].
  - induction entries as [|entry entries IH] using rev_ind; [reflexivity|].
    rewrite listEntries_snoc. cbv zeta. rewrite filter_app, map_app, <- IH.
    destruct entry as [n|n es]; cbn [handle_is_file files handle_name].
    + now rewrite filter_cons_True, filter_nil by reflexivity.
    + rewrite filter_cons_False, filter_nil by discriminate. cbn [map].
      now rewrite app_nil_r.
  - induction entries as [|entry entries IH] using rev_ind; [reflexivity|].
    rewrite listEntries_snoc. cbv zeta. rewrite filter_app, map_app, <- IH.
    destruct entry as [n|n es]; cbn [handle_is_file dirs handle_name].
    + rewrite filter_cons_False, filter_nil by discriminate. cbn [map].
      now rewrite app_nil_r.
    + now rewrite filter_cons_True, filter_nil by reflexivity.
  - induction entries as [|entry entries IH] using rev_ind; [reflexivity|].
    rewrite listEntries_snoc. cbv zeta. now destruct (handle_is_file entry).
Qed.

(** Without a store, or with the permission granted, the answer is yes
    after the one query. *)
Lemma getChromePermission_quiet {W} (host : Host W) (this : HTTPFileSystem)
  (h : FsHandle) (st : State W) :
  store this = None \/ fst (queryPermission host h (world st)) = "granted" ->
  getChromePermission host this (Some h) st
  = (Ok true, {| CACHE := CACHE st; world := snd (queryPermission host h (world st)) |}).
Proof.
  intros Hquiet. unfold getChromePermission, bind, onWorld.
  destruct (queryPermission host h (world st)) as [status w] eqn:Hq.
  cbn [fst snd CACHE world] in *.
  destruct (String.eqb_spec status "granted") as [_|Hne]; [reflexivity|].
  destruct Hquiet as [->|Hgranted]; [reflexivity|contradiction].
Qed.

(** X10.  The permission prompt is raised only when the permission is not
    granted yet and a store was passed to the constructor.  Without a
    store, or with the permission granted, the call goes on to read the
    folder after the one query, and nothing else touches the world.  Where
    the platform lets the page read the folder, the outcome is that of the
    walk and of the listing loop over [values()] of what the walk reached.
    Where it does not (no store, permission not granted), the first read
    of the folder throws the platform's [NotAllowedError]: the call fails,
    and gives no empty listing. *)
Theorem getDirectoryFromHandle_lists_without_prompt {W} (host : Host W)
  (this : HTTPFileSystem) (stillScaryPath : string) (h : FsHandle) (st : State W) :
  fsHandle this = Some h ->
  store this = None \/ fst (queryPermission host h (world st)) = "granted" ->
  let st1 := {| CACHE := CACHE st; world := snd (queryPermission host h (world st)) |} in
  let cleanDirParts :=
    eatDots (filter (fun p => JS.truthy p = true) (JS.split stillScaryPath "/")) in
  (fst (queryPermission host h (world st1)) = "granted" ->
   getDirectoryFromHandle host this stillScaryPath st
   = (match walkFolders h cleanDirParts with
      | Ok currentDir =>
          match handle_values currentDir with
          | Ok entries => Ok (listEntries entries)
          | Throw e => Throw e
          end
      | Throw e => Throw e
      end, st1)) /\
  (fst (queryPermission host h (world st1)) <> "granted" ->
   handle_is_file h = false ->
   getDirectoryFromHandle host this stillScaryPath st = (Throw NotAllowedError, st1)).
Proof.
  intros Hhandle Hquiet st1 cleanDirParts.
  pose proof (getChromePermission_quiet host this h st Hquiet) as Hperm.
  fold st1 in Hperm.
  split.
  - intros Hread. unfold getDirectoryFromHandle. rewrite Hhandle.
    unfold bind at 1. rewrite Hperm. cbn [negb].
    unfold bind, gets, settle, readPermitted. rewrite Hread.
    cbn [String.eqb Ascii.eqb Bool.eqb]. fold cleanDirParts.
    unfold readFolder. now destruct h.
  - intros Hread Hfolder. unfold getDirectoryFromHandle. rewrite Hhandle.
    unfold bind at 1. rewrite Hperm. cbn [negb].
    unfold bind, gets, settle, readPermitted.
    destruct (String.eqb_spec (fst (queryPermission host h (world st1))) "granted")
      as [Heq|_]; [contradiction|].
    destruct h as [n|n es]; [discriminate|reflexivity].
Qed.

Lemma getDirectoryFromHandle_lists_without_prompt_witness :
  let folder := DirectoryHandle "home" [FileHandle "notes.txt"] in
  let fs := {| baseUrl := "/"; urlId := "local"; needsAuth := false;
               fsHandle := Some folder; store := None; isGithub := false |} in
  getDirectoryFromHandle (Scenario.host [] "granted" false) fs "/" Scenario.freshLocal
  = (Ok {| files := ["notes.txt"]; dirs := [];
           handles := {[ "notes.txt" := FileHandle "notes.txt" ]}; html := None |},
     Scenario.freshLocal) /\
  getDirectoryFromHandle (Scenario.host [] "denied" false) fs "/" Scenario.freshLocal
  = (Throw NotAllowedError, Scenario.freshLocal).
Proof.
  intros folder fs. split.
  - rewrite (proj1 (getDirectoryFromHandle_lists_without_prompt
                      (Scenario.host [] "granted" false) fs "/" folder
                      Scenario.freshLocal eq_refl (or_introl eq_refl)) eq_refl).
    vm_compute. reflexivity.
  - apply (proj2 (getDirectoryFromHandle_lists_without_prompt
                    (Scenario.host [] "denied" false) fs "/" folder
                    Scenario.freshLocal eq_refl (or_introl eq_refl))).
    + discriminate.
    + reflexivity.
Defined.

(** ** The line parsers *)

(** The shared loop, from any accumulator: directories and files are
    added at the end, in the order of the lines. *)
Lemma listNames_from (nameOf : string -> option string) (lines : list string) :
  forall acc : list string * list string,
    fold_left
      (fun acc line =>
         match nameOf line with
         | None => acc
         | Some name => pushEntry acc name
         end)
      lines acc
    = (fst acc ++ map JS.dropLast
                    (filter (fun name => JS.endsWith name "/" = true) (omap nameOf lines)),
       snd acc ++ filter (fun name => JS.endsWith name "/" = false) (omap nameOf lines)).
Proof.
  induction lines as [|line lines IH]; intros [ds fs].
  - cbn. now rewrite !app_nil_r.
  - cbn [fold_left omap list_omap]. rewrite IH.
    destruct (nameOf line) as [name|]; [|reflexivity].
    unfold pushEntry. cbn [fst snd]. destruct (JS.endsWith name "/") eqn:Hend; cbn [fst snd].
    + rewrite filter_cons_True by exact Hend.
      rewrite filter_cons_False by (rewrite Hend; discriminate).
      cbn [map]. now rewrite substring_dropLast, <- app_assoc.
    + rewrite filter_cons_False by (rewrite Hend; discriminate).
      rewrite filter_cons_True by exact Hend.
      now rewrite <- app_assoc.
Qed.

(** X11.  The SimpleWebServer, Subversion, Apache and nginx parsers list
    every link they take from the page exactly once and in page order: as
    a directory, less its last character, when the link ends with a
    separator, and as a file otherwise; they return no handles and no page
    source. *)
Theorem line_parsers_list_every_link :
  listsEveryLink simpleWebServerName buildListFromSimpleWebServer /\
  listsEveryLink svnName buildListFromSVN /\
  listsEveryLink apache24Name buildListFromApache24 /\
  listsEveryLink nginxName buildListFromNGINX.
Proof.
  assert (forall nameOf, listsEveryLink nameOf (fun data => entryOf (listNames nameOf (linesOf data))))
    as Hall.
  { intros nameOf data. unfold listNames. rewrite listNames_from.
    cbn [entryOf dirs files handles html fst snd app]. now repeat split. }
  repeat split; apply Hall.
Qed.

Lemma take_length_app (s t : string) : JS.take (String.length s) (s +:+ t) = s.
Proof.
  induction s as [|c s IH]; [now destruct t|].
  change (String c (JS.take (String.length s) (s +:+ t)) = String c s).
  now rewrite IH.
Qed.

Lemma length_snoc (stem : string) :
  String.length (stem +:+ "/") = S (String.length stem).
Proof.
  induction stem as [|c stem IH]; [reflexivity|].
  change (S (String.length (stem +:+ "/")) = S (S (String.length stem))).
  now rewrite IH.
Qed.

Lemma dropLast_snoc (stem : string) : JS.dropLast (stem +:+ "/") = stem.
Proof.
  unfold JS.dropLast. rewrite length_snoc.
  replace (S (String.length stem) - 1)%nat with (String.length stem) by lia.
  apply take_length_app.
Qed.

(** The one name that loses its separator to become [..]. *)
Lemma dropLast_dotdot (name : string) :
  JS.endsWith name "/" = true -> JS.dropLast name = ".." -> name = "../".
Proof.
  intros Hend Hdrop. apply endsWith_spec in Hend as [stem ->].
  rewrite dropLast_snoc in Hdrop. now subst stem.
Qed.

Lemma no_parent_among_dirs (names : list string) :
  (forall name, name ∈ names -> name ≠ "../") ->
  ".." ∉ map JS.dropLast (filter (fun name => JS.endsWith name "/" = true) names).
Proof.
  intros Hnames Hin. apply list_elem_of_fmap in Hin as (name & Hdrop & Hname).
  apply list_elem_of_filter in Hname as [Hend Hname].
  apply (Hnames name Hname). now apply dropLast_dotdot.
Qed.

Lemma apache24Name_not_parent (line name : string) :
  apache24Name line = Some name -> name ≠ "../".
Proof.
  unfold apache24Name.
  destruct (-1 <? JS.indexOf line _); [discriminate|].
  destruct (-1 <? JS.indexOf line _); [discriminate|].
  destruct (JS.indexOf line _ <? 0); [discriminate|].
  destruct (matchQuoted _) as [quoted|]; [|discriminate].
  destruct (String.eqb_spec quoted "../"); [discriminate|congruence].
Qed.

Lemma nginxName_not_parent (line name : string) :
  nginxName line = Some name -> name ≠ "../".
Proof.
  unfold nginxName.
  destruct (JS.indexOf line _ <? 0); [discriminate|].
  destruct (matchQuoted _) as [quoted|]; [|discriminate].
  destruct (String.eqb_spec quoted "../"); [discriminate|congruence].
Qed.

(** X12.  The Apache and nginx parsers, and the parser of the
    authenticated listings that reads the anchors of the document, never
    list the parent folder: no directory they return is named [..]. *)
Theorem parent_folder_never_listed {W} (host : Host W) :
  (forall data : string, ".." ∉ dirs (buildListFromApache24 data)) /\
  (forall data : string, ".." ∉ dirs (buildListFromNGINX data)) /\
  (forall htmlText : string, ".." ∉ snd (parseHtmlDirectoryListing host htmlText)).
Proof.
  repeat split.
  - intros data. unfold buildListFromApache24, listNames. rewrite listNames_from.
    cbn [entryOf dirs fst app]. apply no_parent_among_dirs.
    intros name Hname. apply list_elem_of_omap in Hname as (line & _ & Hline).
    now apply (apache24Name_not_parent line).
  - intros data. unfold buildListFromNGINX, listNames. rewrite listNames_from.
    cbn [entryOf dirs fst app]. apply no_parent_among_dirs.
    intros name Hname. apply list_elem_of_omap in Hname as (line & _ & Hline).
    now apply (nginxName_not_parent line).
  - intros htmlText. unfold parseHtmlDirectoryListing, parseAnchors.
    apply (fold_left_invariant (fun acc => ".." ∉ snd acc)).
    + cbn [snd]. apply not_elem_of_nil.
    + intros acc [href text] _ Hacc. cbn [fst snd].
      destruct (bool_decide (href = Some "../")) eqn:Hparent; cbn [orb]; [exact Hacc|].
      apply bool_decide_eq_false in Hparent.
      destruct (String.eqb (JS.trim text) ".."); [exact Hacc|].
      destruct href as [href|]; [|exact Hacc].
      destruct (JS.truthy href && JS.truthy (JS.trim text)); [|exact Hacc].
      destruct (JS.endsWith href "/") eqn:Hend; cbn [andb negb].
      * destruct (JS.endsWith (JS.trim text) "/"); [|exact Hacc].
        cbn [snd]. rewrite elem_of_app, list_elem_of_singleton.
        intros [Hin|Hdrop]; [now apply Hacc|].
        unfold dropTrailingSlash in Hdrop. rewrite Hend in Hdrop.
        apply Hparent. f_equal. now apply dropLast_dotdot.
      * destruct (negb (JS.endsWith (JS.trim text) "/")); exact Hacc.
Qed.

(** ** Plain HTTP: a response that is not ok *)

(** X13.  On a plain HTTP file system, a listing that the server answers
    with any status that is not ok fails with the error
    [[object Response]]: the response is thrown as it is, and the wrap of
    [getDirectory] prints it, so neither the status nor the URL reaches
    the caller.  The cache is left as it was. *)
Theorem getDirectory_http_failure_loses_status {W} (host : Host W)
  (this : HTTPFileSystem) (scaryPath url : string) (st : State W)
  (partition : gmap string DirectoryEntry) (response : Response) (w : W) :
  fsHandle this = None -> isGithub this = false -> needsAuth this = false ->
  CACHE st !! urlId this = Some partition ->
  partition !! lookupKey scaryPath = None ->
  cleanURL host this (storeKey scaryPath) = Ok url ->
  fetch host url [] (world st) = (Ok response, w) ->
  ok response = false ->
  getDirectory host this scaryPath st
  = (Throw (Error "[object Response]"), {| CACHE := CACHE st; world := w |}).
Proof.
  intros Hhandle Hgithub Hauth Hpartition Hmiss Hclean Hfetch Hok.
  rewrite (getDirectory_miss host this scaryPath st partition Hpartition Hmiss).
  unfold listBackend. rewrite Hhandle, Hgithub, Hauth.
  unfold getDirectoryFromURL, _getFileResponse. rewrite Hhandle, Hgithub.
  unfold _getFileFetchResponse. rewrite Hauth.
  unfold bind, settle, onWorldC, throw. rewrite Hclean, Hfetch, Hok. reflexivity.
Qed.

Lemma getDirectory_http_failure_loses_status_witness :
  getDirectory (Scenario.host [] "granted" true) Scenario.web "/secret" Scenario.fresh
  = (Throw (Error "[object Response]"),
     {| CACHE := CACHE Scenario.fresh;
        world := ["https://example.org/data/secret/"] |}).
Proof.
  apply (getDirectory_http_failure_loses_status (Scenario.host [] "granted" true)
           Scenario.web "/secret" "https://example.org/data/secret/" Scenario.fresh ∅
           {| ok := false; status := 404; statusText := "Not Found"; body := "" |}).
  all: reflexivity.
Defined.

(** ** The authenticated paths *)

(** X14.  Both authenticated paths refuse to go on without credentials:
    when the answer of the parent frame lacks the token or the user name,
    or has an empty one, the listing and the file fetch fail with
    [No token or username received from parent.], and nothing is
    requested from the server.  The second check of the credentials, with
    its own message, can never fire. *)
Theorem authenticated_paths_need_credentials {W} (host : Host W)
  (this : HTTPFileSystem) (scaryPath : string) (st : State W)
  (token username : option string) (w : W) :
  needsAuth this = true ->
  authMessage host (world st) = ((token, username), w) ->
  default "" token = "" \/ default "" username = "" ->
  _getDirectoryFromAWS host this scaryPath st
  = (Throw (Error "No token or username received from parent."),
     {| CACHE := CACHE st; world := w |}) /\
  _getFileFetchResponse host this scaryPath st
  = (Throw (Error "No token or username received from parent."),
     {| CACHE := CACHE st; world := w |}) /\
  (forall st0 : State W,
      fst (requestAuthToken host st0)
      ≠ Throw (Error "No authentication token or username found. Please log in.")).
Proof.
  intros Hauth Hanswer Hmissing.
  assert (requestAuthToken host st
          = (Throw (Error "No token or username received from parent."),
             {| CACHE := CACHE st; world := w |})) as Hrefused.
  { unfold requestAuthToken, bind, onWorld. rewrite Hanswer. cbn [fst snd].
    destruct Hmissing as [-> | ->]; [reflexivity|].
    now rewrite andb_false_r. }
  repeat split.
  - unfold _getDirectoryFromAWS, bind at 1. now rewrite Hrefused.
  - unfold _getFileFetchResponse. rewrite Hauth. unfold bind at 1. now rewrite Hrefused.
  - intros st0. unfold requestAuthToken, bind, onWorld.
    destruct (authMessage host (world st0)) as [[token0 username0] w0]. cbn [fst snd].
    destruct (JS.truthy (default "" token0)); [|discriminate].
    destruct (JS.truthy (default "" username0)); discriminate.
Qed.

Lemma authenticated_paths_need_credentials_witness :
  let h := withAuthMessage (Scenario.host [] "granted" true)
             (fun w => ((Some "token", None), w)) in
  _getDirectoryFromAWS h bucket "/runs/" {| CACHE := {[ "s3" := ∅ ]}; world := [] |}
  = (Throw (Error "No token or username received from parent."),
     {| CACHE := {[ "s3" := ∅ ]}; world := [] |}).
Proof.
  intros h.
  exact (proj1 (authenticated_paths_need_credentials h bucket "/runs/"
                  {| CACHE := {[ "s3" := ∅ ]}; world := [] |} (Some "token") None []
                  eq_refl eq_refl (or_intror eq_refl))).
Defined.

Lemma stripTrailingSlashes_no_trailing (s : string) :
  JS.endsWith (stripTrailingSlashes s) "/" = false.
Proof.
  induction s as [|c s IH]; [reflexivity|].
  cbn [stripTrailingSlashes].
  destruct (String.eqb_spec (stripTrailingSlashes s) "") as [Hr|Hr]; cbn [andb].
  - destruct (Ascii.eqb_spec c "/") as [->|Hc]; [reflexivity|].
    rewrite Hr. cbn [JS.endsWith]. rewrite orb_false_r.
    apply String.eqb_neq. congruence.
  - cbn [JS.endsWith]. rewrite IH, orb_false_r.
    apply String.eqb_neq. intros [= _ Hempty]. contradiction.
Qed.

Lemma allAlnum_trailing (s : string) : JS.endsWith s "/" = true -> allAlnum s = false.
Proof.
  induction s as [|c s IH]; intros Hend; [discriminate Hend|].
  cbn [allAlnum].
  apply endsWith_slash_inv in Hend as [[-> ->]|Hend]; [reflexivity|].
  rewrite (IH Hend). apply andb_false_r.
Qed.

(** A path that ends with a separator has no file extension. *)
Lemma hasDotExtension_trailing (s : string) :
  JS.endsWith s "/" = true -> hasDotExtension s = false.
Proof.
  induction s as [|c s IH]; intros Hend; [reflexivity|].
  cbn [hasDotExtension].
  apply endsWith_slash_inv in Hend as [[-> ->]|Hend]; [reflexivity|].
  rewrite (allAlnum_trailing s Hend), (IH Hend), andb_false_r. reflexivity.
Qed.

Lemma stripLeadingSlashes_trailing (s : string) :
  JS.endsWith s "/" = true ->
  stripLeadingSlashes s = "" \/ JS.endsWith (stripLeadingSlashes s) "/" = true.
Proof.
  induction s as [|c s IH]; intros Hend; [now left|].
  destruct (Ascii.eqb_spec c "/") as [->|Hc].
  - cbn [stripLeadingSlashes].
    apply endsWith_slash_inv in Hend as [[_ ->]|Hend]; [now left|now apply IH].
  - right. replace (stripLeadingSlashes (String c s)) with (String c s); [exact Hend|].
    destruct c as [[] [] [] [] [] [] [] []]; try reflexivity. now destruct Hc.
Qed.

(** X15.  A listing of the authenticated bucket always asks for a
    directory: for a path that ends with a separator, as every path that
    [getDirectory] passes on does, the URL requested is the resolved URL
    with its trailing separators replaced by exactly one, the token is
    sent as a bearer token, a response that is not ok is reported with its
    status text, and an ok response is kept as the page source of the
    listing. *)
Theorem aws_listing_requests_directory {W} (host : Host W) (this : HTTPFileSystem)
  (scaryPath token username fullPath : string) (st : State W) (w1 : W) :
  JS.endsWith scaryPath "/" = true ->
  authMessage host (world st) = ((Some token, Some username), w1) ->
  token ≠ "" -> username ≠ "" ->
  URL_href_base host (stripLeadingSlashes scaryPath) (baseUrl this) = Ok fullPath ->
  JS.endsWith (stripTrailingSlashes fullPath) "/" = false /\
  _getDirectoryFromAWS host this scaryPath st
  = match fetch host (stripTrailingSlashes fullPath +:+ "/")
            [("Authorization", "Bearer " +:+ token)] w1 with
    | (Ok response, w2) =>
        (if ok response
         then Ok {| files := fst (parseHtmlDirectoryListing host (body response));
                    dirs := snd (parseHtmlDirectoryListing host (body response));
                    handles := ∅; html := Some (body response) |}
         else Throw (Error ("Failed to fetch AWS directory: " +:+ statusText response)),
         {| CACHE := CACHE st; world := w2 |})
    | (Throw e, w2) => (Throw e, {| CACHE := CACHE st; world := w2 |})
    end.
Proof.
  intros Hend Hanswer Htoken Huser Hresolved.
  split; [apply stripTrailingSlashes_no_trailing|].
  assert (hasDotExtension (stripLeadingSlashes scaryPath) = false) as Hdir.
  { destruct (stripLeadingSlashes_trailing scaryPath Hend) as [-> |Hslash];
      [reflexivity|now apply hasDotExtension_trailing]. }
  unfold _getDirectoryFromAWS, requestAuthToken, bind, onWorld, onWorldC, settle, ret, throw.
  rewrite Hanswer. cbn [fst snd default from_option id CACHE world].
  unfold JS.truthy.
  destruct (String.eqb_spec token "") as [|_]; [contradiction|].
  destruct (String.eqb_spec username "") as [|_]; [contradiction|].
  cbn [negb andb orb]. rewrite Hresolved, Hdir. cbn [negb fst snd CACHE world].
  destruct (fetch host _ _ w1) as [[response|e] w2]; [|reflexivity].
  now destruct (ok response).
Qed.

Lemma aws_listing_requests_directory_witness :
  snd (_getDirectoryFromAWS (Scenario.host [] "granted" true) bucket "/runs//"
         {| CACHE := {[ "s3" := ∅ ]}; world := [] |})
  = {| CACHE := {[ "s3" := ∅ ]}; world := ["https://bucket.example/user/runs/"] |}.
Proof.
  rewrite (proj2 (aws_listing_requests_directory (Scenario.host [] "granted" true) bucket
                    "/runs//" "token" "user" "https://bucket.example/user/runs//"
                    {| CACHE := {[ "s3" := ∅ ]}; world := [] |} []
                    eq_refl eq_refl ltac:(discriminate) ltac:(discriminate) eq_refl)).
  vm_compute. reflexivity.
Defined.

(** ** [cleanURL]: the scheme *)

(** Collapsing [//] leaves a separator where one was. *)
Lemma collapse_after_slash (s : string) :
  exists rest, JS.replaceAll_go "//" "/" 0 (String "/" s) = String "/" rest.
Proof.
  destruct s as [|c s]; [exists EmptyString; reflexivity|].
  cbn [JS.replaceAll_go String.prefix].
  destruct (ascii_dec "/" "/") as [_|Hne]; [|now destruct Hne].
  destruct (ascii_dec "/" c) as [_|_].
  - destruct s; eexists; reflexivity.
  - eexists. reflexivity.
Qed.

Lemma collapse_keeps_https (s : string) :
  exists rest, JS.replaceAll ("https:/" +:+ s) "//" "/" = "https:/" +:+ rest.
Proof.
  destruct (collapse_after_slash s) as [rest Hrest].
  exists rest. unfold JS.replaceAll.
  change ("https:/" +:+ s) with (String "h" (String "t" (String "t" (String "p"
            (String "s" (String ":" (String "/" s))))))).
  cbn [JS.replaceAll_go String.prefix]. cbn. cbn in Hrest. now rewrite Hrest.
Qed.

Lemma collapse_keeps_http (s : string) :
  exists rest, JS.replaceAll ("http:/" +:+ s) "//" "/" = "http:/" +:+ rest.
Proof.
  destruct (collapse_after_slash s) as [rest Hrest].
  exists rest. unfold JS.replaceAll.
  change ("http:/" +:+ s) with (String "h" (String "t" (String "t" (String "p"
            (String ":" (String "/" s)))))).
  cbn [JS.replaceAll_go String.prefix]. cbn. cbn in Hrest. now rewrite Hrest.
Qed.

Lemma replaceFirst_at_start (scheme rest : string) :
  JS.replaceFirst (scheme +:+ rest) scheme (scheme +:+ "/")
  = (scheme +:+ "/") +:+ rest.
Proof.
  assert (forall s t, String.prefix s (s +:+ t) = true) as Hprefix.
  { clear. induction s as [|c s IH]; intros t; [now destruct t|].
    change (String.prefix (String c s) (String c (s +:+ t)) = true).
    cbn [String.prefix].
    destruct (ascii_dec c c) as [_|Hne]; [apply IH|now destruct Hne]. }
  assert (forall s t, JS.sliceFrom (String.length s) (s +:+ t) = t) as Hslice.
  { clear. induction s as [|c s IH]; intros t; [reflexivity|apply IH]. }
  destruct scheme as [|c scheme].
  - destruct rest; reflexivity.
  - change (JS.replaceFirst (String c scheme +:+ rest) (String c scheme)
              (String c scheme +:+ "/"))
      with (if String.prefix (String c scheme) (String c scheme +:+ rest)
            then (String c scheme +:+ "/")
                 +:+ JS.sliceFrom (String.length (String c scheme))
                       (String c scheme +:+ rest)
            else String c (JS.replaceFirst (scheme +:+ rest) (String c scheme)
                             (String c scheme +:+ "/"))).
    now rewrite Hprefix, Hslice.
Qed.

(** X16.  [cleanURL] keeps the scheme of the base URL: although every
    [//] is collapsed, twice, the URL handed to the URL parser starts with
    [https://] when the base URL does, and with [http://] when the base
    URL does, whatever the path. *)
Theorem cleanURL_keeps_scheme {W} (host : Host W) (this : HTTPFileSystem)
  (scaryPath rest : string) :
  (baseUrl this = "https://" +:+ rest ->
   exists tail, cleanURL host this scaryPath = URL_href host ("https://" +:+ tail)) /\
  (baseUrl this = "http://" +:+ rest ->
   exists tail, cleanURL host this scaryPath = URL_href host ("http://" +:+ tail)).
Proof.
  split; intros Hbase; unfold cleanURL; rewrite Hbase.
  - change (("https://" +:+ rest) +:+ replace_scary scaryPath)
      with ("https:/" +:+ String "/" (rest +:+ replace_scary scaryPath)).
    destruct (collapse_keeps_https (String "/" (rest +:+ replace_scary scaryPath)))
      as [once ->].
    destruct (collapse_keeps_https once) as [twice ->].
    exists (JS.replaceFirst twice "http:/" "http://").
    change "https://" with ("https:/" +:+ "/") at 1.
    rewrite (replaceFirst_at_start "https:/" twice). reflexivity.
  - change (("http://" +:+ rest) +:+ replace_scary scaryPath)
      with ("http:/" +:+ String "/" (rest +:+ replace_scary scaryPath)).
    destruct (collapse_keeps_http (String "/" (rest +:+ replace_scary scaryPath)))
      as [once ->].
    destruct (collapse_keeps_http once) as [twice ->].
    exists (JS.replaceFirst twice "https:/" "https://").
    change (JS.replaceFirst ("http:/" +:+ twice) "https:/" "https://")
      with ("http:/" +:+ JS.replaceFirst twice "https:/" "https://").
    change "http://" with ("http:/" +:+ "/") at 1.
    rewrite (replaceFirst_at_start "http:/"). reflexivity.
Qed.

Lemma cleanURL_keeps_scheme_witness :
  exists tail,
    cleanURL (Scenario.host [] "granted" true) Scenario.web "//a///b//"
    = Ok ("https://" +:+ tail).
Proof.
  apply (proj1 (cleanURL_keeps_scheme (Scenario.host [] "granted" true) Scenario.web
                  "//a///b//" "example.org/data/")).
  reflexivity.
Defined.

(** ** Reading a file *)

Lemma append_assoc (s t u : string) : (s +:+ t) +:+ u = s +:+ (t +:+ u).
Proof.
  induction s as [|c s IH]; [reflexivity|].
  change (String c ((s +:+ t) +:+ u) = String c (s +:+ (t +:+ u))). now rewrite IH.
Qed.

(** X17.  A file of an authenticated file system is requested at the
    base URL followed by the path less its leading and trailing
    separators (nothing else is normalised, and the URL parser is not
    used), with the token as a bearer token; a response that is not ok is
    thrown as it is, and an ok one is returned. *)
Theorem authenticated_file_request {W} (host : Host W) (this : HTTPFileSystem)
  (scaryPath token username : string) (st : State W) (w1 : W) :
  needsAuth this = true ->
  JS.endsWith (baseUrl this) "/" = true ->
  authMessage host (world st) = ((Some token, Some username), w1) ->
  token ≠ "" -> username ≠ "" ->
  _getFileFetchResponse host this scaryPath st
  = match fetch host (baseUrl this +:+ stripTrailingSlashes (stripLeadingSlashes scaryPath))
            [("Authorization", "Bearer " +:+ token)] w1 with
    | (Ok response, w2) =>
        (if ok response then Ok response
         else Throw (ResponseObj (status response) (statusText response)),
         {| CACHE := CACHE st; world := w2 |})
    | (Throw e, w2) => (Throw e, {| CACHE := CACHE st; world := w2 |})
    end.
Proof.
  intros Hauth Hbase Hanswer Htoken Huser.
  unfold _getFileFetchResponse. rewrite Hauth, Hbase.
  assert (JS.dropLast (baseUrl this) +:+ "/" +:+
            stripTrailingSlashes (stripLeadingSlashes scaryPath)
          = baseUrl this +:+ stripTrailingSlashes (stripLeadingSlashes scaryPath)) as ->.
  { apply endsWith_spec in Hbase as [stem ->].
    now rewrite dropLast_snoc, append_assoc. }
  unfold requestAuthToken, bind, onWorld, onWorldC, ret, throw.
  rewrite Hanswer. cbn [fst snd default from_option id CACHE world].
  unfold JS.truthy.
  destruct (String.eqb_spec token "") as [|_]; [contradiction|].
  destruct (String.eqb_spec username "") as [|_]; [contradiction|].
  cbn [negb andb orb fst snd CACHE world].
  destruct (fetch host _ _ w1) as [[response|e] w2]; [|reflexivity].
  now destruct (ok response).
Qed.

Lemma authenticated_file_request_witness :
  _getFileFetchResponse
    (Scenario.host [("https://bucket.example/user/runs/a.csv", "x,y")] "granted" true)
    bucket "//runs/a.csv/" {| CACHE := ∅; world := [] |}
  = (Ok {| ok := true; status := 200; statusText := "OK"; body := "x,y" |},
     {| CACHE := ∅; world := ["https://bucket.example/user/runs/a.csv"] |}).
Proof.
  rewrite (authenticated_file_request
             (Scenario.host [("https://bucket.example/user/runs/a.csv", "x,y")]
                "granted" true)
             bucket "//runs/a.csv/" "token" "user" {| CACHE := ∅; world := [] |} []
             eq_refl eq_refl eq_refl ltac:(discriminate) ltac:(discriminate)).
  vm_compute. reflexivity.
Defined.

(** X18.  A GitHub path with fewer than two segments, which names no
    repository, makes no request at all: the listing of it is empty, and
    the text of it cannot be read, [getFileText] fails with a [TypeError]
    where it calls [text] on the [null] that the file read resolved
    with.  The state is untouched in both. *)
Theorem github_short_path_makes_no_request {W} (host : Host W) (this : HTTPFileSystem)
  (scaryPath : string) (st : State W) :
  fsHandle this = None -> isGithub this = true ->
  (length (githubBits scaryPath) < 2)%nat ->
  listBackend host this scaryPath st = (Ok emptyEntry, st) /\
  getFileText host this scaryPath st
  = (Throw (TypeError "Cannot read properties of null (reading 'text')"), st).
Proof.
  intros Hhandle Hgithub Hshort. split.
  - unfold listBackend. rewrite Hhandle, Hgithub. unfold _getDirectoryFromGitHub.
    destruct (githubBits scaryPath) as [|owner [|repo bits]]; [reflexivity..|].
    cbn [length] in Hshort. lia.
  - unfold getFileText, _getFileResponse. rewrite Hhandle, Hgithub.
    unfold _getFileFromGitHub.
    destruct (githubBits scaryPath) as [|owner [|repo bits]]; [reflexivity..|].
    cbn [length] in Hshort. lia.
Qed.

Lemma github_short_path_makes_no_request_witness :
  getFileText (Scenario.host [] "granted" true) github "/simwrapper//"
    {| CACHE := {[ "github" := ∅ ]}; world := [] |}
  = (Throw (TypeError "Cannot read properties of null (reading 'text')"),
     {| CACHE := {[ "github" := ∅ ]}; world := [] |}).
Proof.
  apply (proj2 (github_short_path_makes_no_request (Scenario.host [] "granted" true)
                  github "/simwrapper//" {| CACHE := {[ "github" := ∅ ]}; world := [] |}
                  eq_refl eq_refl ltac:(vm_compute; lia))).
Defined.

(** ** Config discovery: failures and recorded paths *)

(** X19.  Only the listings of the ancestors may fail in silence.  When
    the listing of a candidate folder fails, of a config folder found in
    an ancestor or of the target folder itself, [findAllYamlConfigs] fails
    with that error: what the candidates before it gave is lost, and the
    candidates after it are not listed. *)
Theorem findAllYamlConfigs_fails_with_candidate {W} (host : Host W)
  (this : HTTPFileSystem) (folder : string) (pre post : list string)
  (configFolder : string) (st st1 st2 st3 : State W) (earlier : YamlConfigs)
  (e : Thrown) :
  findConfigFolders host this folder st = (Ok (pre ++ configFolder :: post), st1) ->
  scanConfigFolders host this pre
    {| dashboards := ∅; topsheets := ∅; vizes := ∅; configs := ∅ |} st1
  = (Ok earlier, st2) ->
  getDirectory host this configFolder st2 = (Throw e, st3) ->
  findAllYamlConfigs host this folder st = (Throw e, st3).
Proof.
  intros Hfolders Hscan Hfail.
  unfold findAllYamlConfigs, bind. rewrite Hfolders.
  unfold scanConfigFolders in *. rewrite foldM_app, Hscan.
  cbn [foldM]. unfold bind. now rewrite Hfail.
Qed.

Lemma findAllYamlConfigs_fails_with_candidate_witness :
  let base := "https://example.org/data/" in
  let h :=
    Scenario.host
      [(base, Scenario.svnPage ["root/"]);
       (base +:+ "root/", Scenario.svnPage ["project/"; "simwrapper/"]);
       (base +:+ "root/simwrapper/", Scenario.svnPage ["dashboard-1.yaml"])]
      "granted" true in
  fst (findAllYamlConfigs h Scenario.web "/root/project" Scenario.fresh)
  = Throw (Error "[object Response]").
Proof.
  intros base h.
  set (none := {| dashboards := ∅; topsheets := ∅; vizes := ∅; configs := ∅ |}).
  set (st1 := snd (findConfigFolders h Scenario.web "/root/project" Scenario.fresh)).
  set (earlier := fst (scanConfigFolders h Scenario.web ["/root/simwrapper"] none st1)).
  set (st2 := snd (scanConfigFolders h Scenario.web ["/root/simwrapper"] none st1)).
  set (st3 := snd (getDirectory h Scenario.web "/root/project" st2)).
  rewrite (findAllYamlConfigs_fails_with_candidate h Scenario.web "/root/project"
             ["/root/simwrapper"] [] "/root/project" Scenario.fresh st1 st2 st3
             {| dashboards := {[ "dashboard-1.yaml" := "/root/simwrapper/dashboard-1.yaml" ]};
                topsheets := ∅; vizes := ∅; configs := ∅ |}
             (Error "[object Response]")).
  - reflexivity.
  - vm_compute. reflexivity.
  - vm_compute. reflexivity.
  - vm_compute. reflexivity.
Defined.

Lemma pointsInto_more (candidates more : list string) (mapping : gmap string string) :
  pointsInto candidates mapping -> pointsInto (candidates ++ more) mapping.
Proof.
  intros Hpoints yaml path Hpath.
  destruct (Hpoints yaml path Hpath) as (configFolder & Hin & ->).
  exists configFolder. split; [apply elem_of_app; now left|reflexivity].
Qed.

Lemma recordMatches_pointsInto (candidates : list string) (configFolder : string)
  (matches : list string) (mapping : gmap string string) :
  pointsInto candidates mapping ->
  pointsInto (candidates ++ [configFolder]) (recordMatches configFolder matches mapping).
Proof.
  intros Hpoints yaml path.
  rewrite (recordMatches_supersedes configFolder matches mapping yaml).
  destruct (decide (yaml ∈ matches)) as [_|_].
  - intros [= <-]. exists configFolder.
    split; [apply elem_of_app; right; now left|reflexivity].
  - now apply pointsInto_more.
Qed.

Lemma scanConfigFolders_pointInto {W} (host : Host W) (this : HTTPFileSystem)
  (configFolders : list string) :
  forall (seen : list string) (yamls0 yamls : YamlConfigs) (st st' : State W),
    allPointInto seen yamls0 ->
    scanConfigFolders host this configFolders yamls0 st = (Ok yamls, st') ->
    allPointInto (seen ++ configFolders) yamls.
Proof.
  induction configFolders as [|configFolder configFolders IH];
    intros seen yamls0 yamls st st' Hseen Hscan.
  - injection Hscan as <- <-. now rewrite app_nil_r.
  - unfold scanConfigFolders in Hscan. cbn [foldM] in Hscan. unfold bind at 1 in Hscan.
    unfold bind at 1 in Hscan.
    destruct (getDirectory host this configFolder st) as [[entry|e] st1]; [|discriminate].
    cbn [ret] in Hscan.
    replace (seen ++ configFolder :: configFolders)
      with ((seen ++ [configFolder]) ++ configFolders) by now rewrite <- app_assoc.
    apply (IH (seen ++ [configFolder])
             (recordFolder host configFolder (files entry) yamls0) yamls st1 st');
      [|exact Hscan].
    destruct Hseen as (Hd & Ht & Hv & Hc).
    repeat split; cbn [recordFolder dashboards topsheets vizes configs];
      now apply recordMatches_pointsInto.
Qed.

(** X20.  Whatever [findAllYamlConfigs] returns, every path in its four
    mappings is the file name it is recorded under, joined to one of the
    candidate folders (the config folders found in the ancestors, or the
    target folder) with the doubled separators collapsed once: no mapping
    points outside the candidates, or at a file of another name. *)
Theorem findAllYamlConfigs_paths_in_candidates {W} (host : Host W)
  (this : HTTPFileSystem) (folder : string) (st st' : State W) (yamls : YamlConfigs) :
  findAllYamlConfigs host this folder st = (Ok yamls, st') ->
  exists (candidates : list string) (st1 : State W),
    findConfigFolders host this folder st = (Ok candidates, st1) /\
    allPointInto candidates yamls.
Proof.
  intros Hrun. unfold findAllYamlConfigs, bind in Hrun.
  destruct (findConfigFolders host this folder st) as [[candidates|e] st1];
    [|discriminate].
  exists candidates, st1. split; [reflexivity|].
  apply (scanConfigFolders_pointInto host this candidates []
           {| dashboards := ∅; topsheets := ∅; vizes := ∅; configs := ∅ |}
           yamls st1 st');
    [|exact Hrun].
  repeat split; intros yaml path Hpath; cbn in Hpath; now rewrite lookup_empty in Hpath.
Qed.

Lemma findAllYamlConfigs_paths_in_candidates_witness :
  let base := "https://example.org/data/" in
  let h :=
    Scenario.host
      [(base, Scenario.svnPage ["root/"]);
       (base +:+ "root/", Scenario.svnPage ["project/"; "simwrapper/"]);
       (base +:+ "root/simwrapper/", Scenario.svnPage ["dashboard-1.yaml"; "viz-map.yaml"]);
       (base +:+ "root/project/", Scenario.svnPage ["dashboard-1.yaml"; "output.csv"])]
      "granted" true in
  exists (candidates : list string) (st1 : State Scenario.Fetches),
    findConfigFolders h Scenario.web "/root/project" Scenario.fresh = (Ok candidates, st1) /\
    allPointInto candidates
      (match fst (findAllYamlConfigs h Scenario.web "/root/project" Scenario.fresh) with
       | Ok yamls => yamls
       | Throw _ => {| dashboards := ∅; topsheets := ∅; vizes := ∅; configs := ∅ |}
       end).
Proof.
  intros base h.
  destruct (findAllYamlConfigs h Scenario.web "/root/project" Scenario.fresh)
    as [[yamls|e] st'] eqn:Hrun; [|vm_compute in Hrun; discriminate Hrun].
  exact (findAllYamlConfigs_paths_in_candidates h Scenario.web "/root/project"
           Scenario.fresh st' yamls Hrun).
Defined.

(** ** [gUnzip]: what comes out *)

(** X21.  What [gUnzip] returns is never gzip data: a buffer it returns
    does not start with the magic number, so unzipping it again returns
    it unchanged.  And it throws in two ways only, each on some buffer
    that starts with the magic number: with the error that
    [pako.inflate] threw on it, or, when [pako.inflate] returned
    [undefined] for it (the input was cut short), with the [TypeError] of
    reading [slice] of [undefined]. *)
Theorem gUnzip_returns_no_gzip {W} (host : Host W) (fuel : nat) :
  forall buffer : list Byte.byte,
    (forall out : list Byte.byte,
        gUnzip host fuel buffer = Some (Ok out) ->
        hasGzipMagic out = false /\
        forall fuel' : nat, gUnzip host (S fuel') out = Some (Ok out)) /\
    (forall e : Thrown,
        gUnzip host fuel buffer = Some (Throw e) ->
        exists layer : list Byte.byte,
          hasGzipMagic layer = true /\
          (pako_inflate host layer = Throw e \/
           (pako_inflate host layer = Ok None /\
            e = TypeError "Cannot read properties of undefined (reading 'slice')"))).
Proof.
  induction fuel as [|fuel IH]; intros buffer; [split; intros ?; discriminate|].
  cbn [gUnzip]. destruct (hasGzipMagic buffer) eqn:Hmagic.
  - destruct (pako_inflate host buffer) as [[inflated|]|e0] eqn:Hinflate.
    + apply IH.
    + split; [intros out; discriminate|].
      intros e [= <-]. exists buffer. split; [exact Hmagic|right; now split].
    + split; [intros out; discriminate|].
      intros e [= <-]. exists buffer. split; [exact Hmagic|now left].
  - split; [|intros e; discriminate].
    intros out [= <-]. split; [exact Hmagic|].
    intros fuel'. cbn [gUnzip]. now rewrite Hmagic.
Qed.

Lemma gUnzip_returns_no_gzip_witness :
  let h := Scenario.host [] "granted" true in
  let cut := withInflate h (fun _ => Ok None) in
  (hasGzipMagic [x68; x69] = false /\
   gUnzip h 1 [x68; x69] = Some (Ok [x68; x69])) /\
  exists layer : list Byte.byte,
    hasGzipMagic layer = true /\
    (pako_inflate cut layer
     = Throw (TypeError "Cannot read properties of undefined (reading 'slice')") \/
     pako_inflate cut layer = Ok None /\
     TypeError "Cannot read properties of undefined (reading 'slice')"
     = TypeError "Cannot read properties of undefined (reading 'slice')").
Proof.
  intros h cut. split.
  - destruct (proj1 (gUnzip_returns_no_gzip h 3
                       (Scenario.frame (Scenario.frame [x68; x69]))) [x68; x69] eq_refl)
      as [Hplain Hagain].
    split; [exact Hplain|exact (Hagain 0%nat)].
  - exact (proj2 (gUnzip_returns_no_gzip cut 2 [x1f; x8b; x68])
             (TypeError "Cannot read properties of undefined (reading 'slice')")
             eq_refl).
Defined.

(** ** The xy-time loader: every failure, and the plain path *)

(** The body of the [try] posts nothing and writes nothing to the
    console. *)
Lemma prepareFetch_quiet {W} (host : Host W) (filepath : string)
  (fileSystem : FileSystemConfig) (ws : WorkerState W) :
  posted (snd (prepareFetch host filepath fileSystem ws)) = posted ws /\
  consoleErrors (snd (prepareFetch host filepath fileSystem ws)) = consoleErrors ws.
Proof.
  destruct (prepareFetch host filepath fileSystem ws) as [c ws'] eqn:Hrun. cbn [snd].
  unfold prepareFetch in Hrun. unfold bind at 1, inFs at 1 in Hrun.
  destruct (new_HTTPFileSystem fileSystem None (fsState ws)) as [[httpFileSystem|e] st1];
    [|injection Hrun as <- <-; now split].
  unfold bind at 1 in Hrun.
  destruct ((-1 <? JS.indexOf filepath "*") || (-1 <? JS.indexOf filepath "?")).
  - unfold bind at 1, inFs at 1 in Hrun. cbn [fsState posted consoleErrors] in Hrun.
    destruct (getDirectory host httpFileSystem _ st1) as [[entry|e] st2];
      [|injection Hrun as <- <-; now split].
    destruct (length (findMatchingGlobInFiles host (files entry) _) =? 0)%nat;
      [injection Hrun as <- <-; now split|].
    destruct (1 <? length (findMatchingGlobInFiles host (files entry) _))%nat;
      injection Hrun as <- <-; now split.
  - injection Hrun as <- <-; now split.
Qed.

(** X22.  Whatever goes wrong while the fetch is prepared (the listing
    fails, no file matches, several do), [step1PrepareFetch] throws one
    error, [LOAD FAIL!] with the path asked for, after it has posted the
    status message and then one error message and has written one line to
    the console; and when it returns a URL it has posted the status
    message only. *)
Theorem step1PrepareFetch_reports_every_failure {W} (host : Host W)
  (filepath : string) (fileSystem : FileSystemConfig) (ws : WorkerState W) :
  let loading := StatusMessage ("Loading " +:+ filepath +:+ "...") in
  let after := snd (step1PrepareFetch host filepath fileSystem ws) in
  match fst (step1PrepareFetch host filepath fileSystem ws) with
  | Ok url =>
      posted after = posted ws ++ [loading] /\
      consoleErrors after = consoleErrors ws
  | Throw e =>
      e = Error ("LOAD FAIL! " +:+ filepath) /\
      posted after
      = (posted ws ++ [loading]) ++ [ErrorMessage ("Error loading: " +:+ filepath)] /\
      exists line, consoleErrors after = consoleErrors ws ++ [line]
  end.
Proof.
  intros loading after. subst after.
  set (ws0 := {| fsState := fsState ws; posted := posted ws ++ [loading];
                 consoleErrors := consoleErrors ws |}).
  assert (step1PrepareFetch host filepath fileSystem ws
          = match prepareFetch host filepath fileSystem ws0 with
            | (Ok url, ws1) => (Ok url, ws1)
            | (Throw e, ws1) =>
                (Throw (Error ("LOAD FAIL! " +:+ filepath)),
                 {| fsState := fsState ws1;
                    posted := posted ws1 ++ [ErrorMessage ("Error loading: " +:+ filepath)];
                    consoleErrors := consoleErrors ws1 ++ ["" +:+ toStr e] |})
            end) as ->.
  { unfold step1PrepareFetch, bind at 1, postMessage at 1, modify at 1, try_catch.
    fold loading. fold ws0.
    now destruct (prepareFetch host filepath fileSystem ws0) as [[url|e] ws1]. }
  destruct (prepareFetch_quiet host filepath fileSystem ws0) as [Hposted Hconsole].
  destruct (prepareFetch host filepath fileSystem ws0) as [[url|e] ws1];
    cbn [fst snd posted consoleErrors] in *.
  - now split.
  - rewrite Hposted, Hconsole.
    split; [reflexivity|]. split; [reflexivity|]. now eexists.
Qed.

(** X23.  A path without [*] and without [?] is not looked up: the loader
    lists no folder and asks the server nothing, it cannot fail, and the
    URL it returns is the configured base URL, a separator, and the path,
    joined as they are. *)
Theorem step1PrepareFetch_plain_path {W} (host : Host W)
  (filepath : string) (fileSystem : FileSystemConfig) (ws : WorkerState W) :
  JS.indexOf filepath "*" = -1 ->
  JS.indexOf filepath "?" = -1 ->
  step1PrepareFetch host filepath fileSystem ws
  = (Ok (baseURL fileSystem +:+ "/" +:+ filepath),
     {| fsState := snd (new_HTTPFileSystem fileSystem None (fsState ws));
        posted := posted ws ++ [StatusMessage ("Loading " +:+ filepath +:+ "...")];
        consoleErrors := consoleErrors ws |}) /\
  world (snd (new_HTTPFileSystem fileSystem None (fsState ws))) = world (fsState ws).
Proof.
  intros Hstar Hquestion. split.
  - unfold step1PrepareFetch, prepareFetch.
    unfold bind at 1, postMessage at 1, modify at 1.
    unfold try_catch, bind at 1, inFs at 1. cbn [fsState posted consoleErrors].
    rewrite Hstar, Hquestion. cbn [Z.ltb Z.compare orb].
    unfold new_HTTPFileSystem.
    destruct (CACHE (fsState ws) !! _); reflexivity.
  - unfold new_HTTPFileSystem. destruct (CACHE (fsState ws) !! _); reflexivity.
Qed.

Lemma step1PrepareFetch_plain_path_witness :
  fst (step1PrepareFetch Scenario.runsHost "/runs/a.xyt.csv" Scenario.runsConfig
         Scenario.idleWorker)
  = Ok "https://example.org/data//runs/a.xyt.csv".
Proof.
  rewrite (proj1 (step1PrepareFetch_plain_path Scenario.runsHost "/runs/a.xyt.csv"
                    Scenario.runsConfig Scenario.idleWorker eq_refl eq_refl)).
  reflexivity.
Defined.

(** ** The parser of the anchors *)

(** What one anchor adds to the files, and to the directories. *)
Lemma parseAnchors_from (fileOf dirOf : option string * string -> option string)
  (links : list (option string * string)) :
  (forall link,
      fileOf link
      = match fst link with
        | Some href =>
            if negb (bool_decide (fst link = Some "../") || String.eqb (JS.trim (snd link)) "..")
               && (JS.truthy href && JS.truthy (JS.trim (snd link)))
               && negb (JS.endsWith href "/") && negb (JS.endsWith (JS.trim (snd link)) "/")
            then Some href else None
        | None => None
        end) ->
  (forall link,
      dirOf link
      = match fst link with
        | Some href =>
            if negb (bool_decide (fst link = Some "../") || String.eqb (JS.trim (snd link)) "..")
               && (JS.truthy href && JS.truthy (JS.trim (snd link)))
               && JS.endsWith href "/" && JS.endsWith (JS.trim (snd link)) "/"
            then Some (dropTrailingSlash href) else None
        | None => None
        end) ->
  parseAnchors links = (omap fileOf links, omap dirOf links).
Proof.
  intros HfileOf HdirOf. unfold parseAnchors.
  match goal with |- fold_left ?f _ _ = _ => set (step := f) end.
  assert (forall acc, fold_left step links acc
                      = (fst acc ++ omap fileOf links, snd acc ++ omap dirOf links)) as Hfrom;
    [|now rewrite Hfrom].
  induction links as [|link links IH]; intros [fs ds].
  - cbn. now rewrite !app_nil_r.
  - cbn [fold_left omap list_omap]. rewrite IH, HfileOf, HdirOf.
    subst step. cbn beta.
    destruct link as [[href|] text]; cbn [fst snd].
    + destruct (bool_decide (Some href = Some "../") || String.eqb (JS.trim text) "..");
        cbn [negb andb]; [reflexivity|].
      destruct (JS.truthy href && JS.truthy (JS.trim text)); cbn [andb]; [|reflexivity].
      destruct (JS.endsWith href "/"), (JS.endsWith (JS.trim text) "/");
        cbn [negb andb fst snd]; rewrite <- ?app_assoc; reflexivity.
    + now destruct (bool_decide (None = Some "../") || String.eqb (JS.trim text) "..").
Qed.

(** X24.  What the parser of the authenticated listings makes of the
    anchors of a page.  A target is listed as a file exactly when some
    anchor that is kept has it and neither the target nor the label ends
    with a separator; a name is listed as a directory exactly when it is
    the target, less its last character, of an anchor that is kept and
    whose target and label both end with a separator.  So an anchor whose
    target and label disagree about the separator is listed nowhere. *)
Theorem parseAnchors_lists_agreeing_links (links : list (option string * string)) :
  (forall f : string,
      f ∈ fst (parseAnchors links) <->
      exists text, (Some f, text) ∈ links /\ keptLink f text /\
                   JS.endsWith f "/" = false /\ JS.endsWith (JS.trim text) "/" = false) /\
  (forall d : string,
      d ∈ snd (parseAnchors links) <->
      exists href text, (Some href, text) ∈ links /\ keptLink href text /\
                        JS.endsWith href "/" = true /\
                        JS.endsWith (JS.trim text) "/" = true /\
                        d = JS.dropLast href).
Proof.
  assert (forall href text : string,
             negb (bool_decide (Some href = Some "../") || String.eqb (JS.trim text) "..")
             && (JS.truthy href && JS.truthy (JS.trim text)) = true
             <-> keptLink href text) as Hkept.
  { intros href text. unfold keptLink, JS.truthy.
    rewrite !andb_true_iff, !negb_true_iff, orb_false_iff, bool_decide_eq_false,
      !String.eqb_neq.
    split.
    - intros [[Hp Hd] [He Ht]]. repeat split; try assumption.
      intros ->. now apply Hp.
    - intros (He & Ht & Hp & Hd). repeat split; try assumption.
      intros [= ->]. now apply Hp. }
  rewrite (parseAnchors_from _ _ links (fun _ => eq_refl) (fun _ => eq_refl)).
  cbn [fst snd]. split.
  - intros f. rewrite list_elem_of_omap. split.
    + intros ([[href|] text] & Hin & Hfile); cbn [fst snd] in Hfile; [|discriminate].
      destruct (negb _ && _) eqn:Hk in Hfile; cbn [andb] in Hfile; [|discriminate].
      destruct (JS.endsWith href "/") eqn:Hh; cbn [negb andb] in Hfile; [discriminate|].
      destruct (JS.endsWith (JS.trim text) "/") eqn:Ht; cbn [negb] in Hfile;
        [discriminate|].
      injection Hfile as <-. exists text. apply Hkept in Hk. tauto.
    + intros (text & Hin & Hk & Hh & Ht). exists (Some f, text). split; [exact Hin|].
      cbn [fst snd]. apply Hkept in Hk. now rewrite Hk, Hh, Ht.
  - intros d. rewrite list_elem_of_omap. split.
    + intros ([[href|] text] & Hin & Hdir); cbn [fst snd] in Hdir; [|discriminate].
      destruct (negb _ && _) eqn:Hk in Hdir; cbn [andb] in Hdir; [|discriminate].
      destruct (JS.endsWith href "/") eqn:Hh; cbn [negb andb] in Hdir; [|discriminate].
      destruct (JS.endsWith (JS.trim text) "/") eqn:Ht; [|discriminate].
      injection Hdir as <-. exists href, text. apply Hkept in Hk.
      unfold dropTrailingSlash. rewrite Hh. tauto.
    + intros (href & text & Hin & Hk & Hh & Ht & ->).
      exists (Some href, text). split; [exact Hin|].
      cbn [fst snd]. apply Hkept in Hk. rewrite Hk, Hh, Ht.
      unfold dropTrailingSlash. now rewrite Hh.
Qed.

(** ** The GitHub adapter: an answer that is no array *)

(** X25.  The GitHub listing asks the contents API for the path under
    [owner/repo] and never looks at the status of the answer.  When the
    answer is JSON but not an array (the error object of a missing
    repository or of a rate limit, or the object that describes a file),
    the listing fails, through [getDirectory], with
    [TypeError: json.forEach is not a function]; what the API said is
    lost, and the cache is left as it was. *)
Theorem getDirectory_github_answer_not_a_listing {W} (host : Host W)
  (this : HTTPFileSystem) (scaryPath owner repo : string) (bits : list string)
  (st : State W) (partition : gmap string DirectoryEntry) (response : Response) (w : W) :
  fsHandle this = None -> isGithub this = true ->
  CACHE st !! urlId this = Some partition ->
  partition !! lookupKey scaryPath = None ->
  githubBits (storeKey scaryPath) = owner :: repo :: bits ->
  fetch host ("https://api.github.com/repos/" +:+ owner +:+ "/" +:+ repo +:+ "/contents/"
              +:+ JS.join "/" bits) (githubHeaders host) (world st)
  = (Ok response, w) ->
  json_listing host (body response) = Ok GhNoArray ->
  getDirectory host this scaryPath st
  = (Throw (Error "TypeError: json.forEach is not a function"),
     {| CACHE := CACHE st; world := w |}).
Proof.
  intros Hhandle Hgithub Hpartition Hmiss Hbits Hfetch Hjson.
  rewrite (getDirectory_miss host this scaryPath st partition Hpartition Hmiss).
  unfold listBackend. rewrite Hhandle, Hgithub.
  unfold _getDirectoryFromGitHub. rewrite Hbits.
  unfold fetchJson, bind, onWorldC, settle, throw. now rewrite Hfetch, Hjson.
Qed.

Lemma getDirectory_github_answer_not_a_listing_witness :
  let st := {| CACHE := {[ "github" := ∅ ]}; world := [] |} in
  getDirectory (Scenario.host [] "granted" true) github "/nobody/nothing/docs" st
  = (Throw (Error "TypeError: json.forEach is not a function"),
     {| CACHE := CACHE st;
        world := ["https://api.github.com/repos/nobody/nothing/contents/docs"] |}).
Proof.
  intros st.
  apply (getDirectory_github_answer_not_a_listing (Scenario.host [] "granted" true)
           github "/nobody/nothing/docs" "nobody" "nothing" ["docs"] st ∅
           {| ok := false; status := 404; statusText := "Not Found"; body := "" |}).
  all: reflexivity.
Defined.

(** ** Reading a file through a folder handle *)

(** X26.  Reading a file through a folder handle lists the folder of the
    file first, and stores that listing in the cache.  When the folder is
    reached and read access is given, [getFile] is called on the entry of
    the folder that has the name of the file (the last one, when there are
    several): a file entry is the handle that is read, and a folder entry,
    which has no [getFile], fails with a [TypeError].  A name that is
    missing fails with [File <name> missing], which names the file and not
    its path, unless [Object.prototype] has the name, and then the failure
    is a [TypeError] too. *)
Theorem fileHandleOf_looks_in_listed_folder {W} (host : Host W) (this : HTTPFileSystem)
  (scaryPath href name : string) (root : FsHandle) (entries : list FsHandle)
  (partition : gmap string DirectoryEntry) (st : State W) :
  let path := JS.substringFrom href 13 in
  let folder := JS.substring path 0 (JS.lastIndexOf path "/") in
  let filename := JS.substringFrom path (JS.lastIndexOf path "/" + 1) in
  fsHandle this = Some root ->
  store this = None \/ fst (queryPermission host root (world st)) = "granted" ->
  fst (queryPermission host root (snd (queryPermission host root (world st)))) = "granted" ->
  URL_href host ("http://local/" +:+ JS.replaceAll (replace_scary scaryPath) "//" "/")
  = Ok href ->
  CACHE st !! urlId this = Some partition ->
  partition !! lookupKey folder = None ->
  walkFolders root (eatDots (filter (fun p => JS.truthy p = true)
                               (JS.split (storeKey folder) "/")))
  = Ok (DirectoryHandle name entries) ->
  fileHandleOf host this scaryPath st
  = (match List.find (fun h => String.eqb (handle_name h) filename) (rev entries) with
     | Some (FileHandle file) => Ok (FileHandle file)
     | Some (DirectoryHandle _ _) =>
         Throw (TypeError "fileHandle.getFile is not a function")
     | None =>
         if bool_decide (filename ∈ Object_prototype)
         then Throw (TypeError "fileHandle.getFile is not a function")
         else Throw (Error ("File " +:+ filename +:+ " missing"))
     end,
     {| CACHE := <[urlId this := <[storeKey folder := sortEntry host (listEntries entries)]>
                                   partition]> (CACHE st);
        world := snd (queryPermission host root (world st)) |}).
Proof.
  intros path folder filename Hroot Hquiet Hread Hhref Hpartition Hmiss Hwalk.
  unfold fileHandleOf. unfold bind at 1, settle at 1. rewrite Hhref.
  fold path. fold folder. fold filename. unfold bind at 1.
  rewrite (getDirectory_miss host this folder st partition Hpartition Hmiss).
  unfold listBackend. rewrite Hroot.
  unfold getDirectoryFromHandle. rewrite Hroot. unfold bind at 1.
  rewrite (getChromePermission_quiet host this root st Hquiet). cbn [negb].
  unfold bind at 1, gets at 1, readPermitted. cbn [world]. rewrite Hread.
  cbn [String.eqb Ascii.eqb Bool.eqb].
  assert (readFolder true root
            (eatDots (filter (fun p => JS.truthy p = true) (JS.split (storeKey folder) "/")))
          = Ok (listEntries entries)) as ->.
  { unfold readFolder. rewrite Hwalk. now destruct root. }
  unfold bind, settle, ret, throw. cbn [CACHE world sortEntry handles].
  rewrite listEntries_handles.
  destruct (List.find _ (rev entries)) as [[file|sub subentries]|]; [reflexivity..|].
  now destruct (bool_decide (filename ∈ Object_prototype)).
Qed.

Lemma fileHandleOf_looks_in_listed_folder_witness :
  let h := Scenario.host [] "granted" true in
  fst (fileHandleOf h Scenario.local "/runs/b.csv" Scenario.freshLocal)
  = Throw (Error "File b.csv missing") /\
  fst (fileHandleOf h Scenario.local "/runs/a.csv" Scenario.freshLocal)
  = Ok (FileHandle "a.csv") /\
  fst (fileHandleOf h Scenario.local "/runs" Scenario.freshLocal)
  = Throw (TypeError "fileHandle.getFile is not a function").
Proof.
  intros h. split; [|split].
  - rewrite (fileHandleOf_looks_in_listed_folder h Scenario.local "/runs/b.csv"
               "http://local//runs/b.csv" "runs"
               (DirectoryHandle "home"
                  [DirectoryHandle "runs" [FileHandle "a.csv"]; FileHandle "notes.txt"])
               [FileHandle "a.csv"] ∅ Scenario.freshLocal
               eq_refl (or_intror eq_refl) eq_refl eq_refl eq_refl eq_refl eq_refl).
    reflexivity.
  - rewrite (fileHandleOf_looks_in_listed_folder h Scenario.local "/runs/a.csv"
               "http://local//runs/a.csv" "runs"
               (DirectoryHandle "home"
                  [DirectoryHandle "runs" [FileHandle "a.csv"]; FileHandle "notes.txt"])
               [FileHandle "a.csv"] ∅ Scenario.freshLocal
               eq_refl (or_intror eq_refl) eq_refl eq_refl eq_refl eq_refl eq_refl).
    reflexivity.
  - rewrite (fileHandleOf_looks_in_listed_folder h Scenario.local "/runs"
               "http://local//runs" "home"
               (DirectoryHandle "home"
                  [DirectoryHandle "runs" [FileHandle "a.csv"]; FileHandle "notes.txt"])
               [DirectoryHandle "runs" [FileHandle "a.csv"]; FileHandle "notes.txt"]
               ∅ Scenario.freshLocal
               eq_refl (or_intror eq_refl) eq_refl eq_refl eq_refl eq_refl eq_refl).
    reflexivity.
Defined.

(** ** fileSystemConfig: the slug of a local folder *)

Import fileSystemConfig.

Lemma digitValue_digit (n : Z) :
  0 <= n < 10 -> digitValue (ascii_of_nat (48 + Z.to_nat n)) = Some n.
Proof.
  intros Hn. rewrite <- (Z2Nat.id n) at 2 by lia.
  assert (Z.to_nat n < 10)%nat as Hsmall by lia.
  set (k := Z.to_nat n) in *. clearbody k.
  do 10 (destruct k as [|k]; [reflexivity|]). lia.
Qed.

(** Reading what [decimal_go] wrote, in front of digits that read as
    [v] over [k] places: the number comes back. *)
Lemma decimal_go_read (fuel : nat) :
  forall (n : Z) (rest : string) (k v : Z),
    0 <= n < 10 ^ (Z.of_nat fuel + 1) -> 0 <= k ->
    (forall a, readDigits 10 digitValue rest (Some a) = Some (a * 10 ^ k + v)) ->
    exists k', 0 <= k' /\
      forall acc, readDigits 10 digitValue (decimal_go fuel n rest) acc
                  = Some ((default 0 acc * 10 ^ k' + n) * 10 ^ k + v).
Proof.
  assert (forall (n : Z) (rest : string) (k v : Z),
             0 <= n < 10 -> 0 <= k ->
             (forall a, readDigits 10 digitValue rest (Some a) = Some (a * 10 ^ k + v)) ->
             forall acc,
               readDigits 10 digitValue
                 (String (ascii_of_nat (48 + Z.to_nat (n mod 10))) rest) acc
               = Some ((default 0 acc * 10 ^ 1 + n) * 10 ^ k + v)) as Hone.
  { intros n rest k v Hn Hk Hrest acc. cbn [readDigits].
    rewrite Z.mod_small by lia. rewrite digitValue_digit by lia.
    rewrite Hrest. rewrite Z.pow_1_r. reflexivity. }
  induction fuel as [|fuel IH]; intros n rest k v Hn Hk Hrest.
  - exists 1. split; [lia|]. cbn [decimal_go]. apply Hone; [|exact Hk|exact Hrest].
    cbn in Hn. lia.
  - cbn [decimal_go]. destruct (Z.ltb_spec n 10) as [Hsmall|Hbig].
    + exists 1. split; [lia|]. apply Hone; [lia|exact Hk|exact Hrest].
    + destruct (IH (n / 10) (String (ascii_of_nat (48 + Z.to_nat (n mod 10))) rest)
                  (k + 1) ((n mod 10) * 10 ^ k + v)) as (k' & Hk' & Hread).
      * split; [apply Z.div_pos; lia|].
        apply Z.div_lt_upper_bound; [lia|].
        replace (Z.of_nat (S fuel) + 1) with (Z.succ (Z.of_nat fuel + 1)) in Hn by lia.
        rewrite Z.pow_succ_r in Hn by lia. lia.
      * lia.
      * intros a. cbn [readDigits].
        rewrite digitValue_digit by (apply Z.mod_pos_bound; lia).
        rewrite Hrest. cbn [default from_option id]. f_equal.
        rewrite Z.pow_add_r by lia. rewrite Z.pow_1_r. ring.
      * exists (k' + 1). split; [lia|]. intros acc. rewrite Hread. f_equal.
        rewrite !Z.pow_add_r by lia. rewrite !Z.pow_1_r.
        pose proof (Z.div_mod n 10 ltac:(lia)) as Hdiv.
        set (q := n / 10) in *. set (r := n mod 10) in *. rewrite Hdiv. ring.
Qed.

Lemma decimal_read (n : Z) :
  0 <= n -> readDigits 10 digitValue (decimal n) None = Some n.
Proof.
  intros Hn. unfold decimal.
  destruct (decimal_go_read (Z.to_nat (Z.log2 n)) n EmptyString 0 0) as (k' & _ & Hread).
  - split; [exact Hn|].
    destruct (Z.eq_dec n 0) as [->|Hpos]; [reflexivity|].
    rewrite Z2Nat.id by apply Z.log2_nonneg.
    pose proof (Z.log2_spec n ltac:(lia)) as [_ Hlog].
    apply Z.lt_le_trans with (1 := Hlog).
    replace (Z.succ (Z.log2 n)) with (Z.log2 n + 1) by lia.
    apply Z.pow_le_mono_l. lia.
  - lia.
  - intros a. cbn. f_equal. lia.
  - rewrite Hread. cbn [default]. f_equal. ring.
Qed.

Lemma decimal_go_digitsOnly (fuel : nat) :
  forall (n : Z) (acc : string),
    0 <= n -> digitsOnly acc = true -> digitsOnly (decimal_go fuel n acc) = true.
Proof.
  assert (forall n acc, 0 <= n -> digitsOnly acc = true ->
                        digitsOnly (String (ascii_of_nat (48 + Z.to_nat (n mod 10))) acc) = true)
    as Hone.
  { intros n acc Hn Hacc. cbn [digitsOnly].
    now rewrite digitValue_digit by (apply Z.mod_pos_bound; lia). }
  induction fuel as [|fuel IH]; intros n acc Hn Hacc; cbn [decimal_go].
  - now apply Hone.
  - destruct (n <? 10); [now apply Hone|].
    apply IH; [apply Z.div_pos; lia|now apply Hone].
Qed.

Lemma decimal_go_nonempty (fuel : nat) :
  forall (n : Z) (acc : string), decimal_go fuel n acc ≠ EmptyString.
Proof.
  induction fuel as [|fuel IH]; intros n acc; cbn [decimal_go]; [discriminate|].
  destruct (n <? 10); [discriminate|apply IH].
Qed.

(** A digit is no white space, no sign, and no [x]. *)
Lemma digit_is_plain (c : ascii) (d : Z) :
  digitValue c = Some d ->
  JS.isTrimmed c = false /\ c ≠ "-"%char /\ c ≠ "+"%char /\ c ≠ "x"%char /\ c ≠ "X"%char.
Proof.
  intros Hdigit. repeat split; try (intros ->; discriminate Hdigit).
  unfold digitValue in Hdigit. unfold JS.isTrimmed.
  destruct ((48 <=? nat_of_ascii c) && (nat_of_ascii c <=? 57))%nat eqn:Hrange;
    [|discriminate].
  apply andb_true_iff in Hrange as [Hlo Hhi].
  apply Nat.leb_le in Hlo. apply Nat.leb_le in Hhi.
  apply orb_false_iff. split; [apply orb_false_iff; split|].
  - apply andb_false_iff. right. apply Nat.leb_gt. lia.
  - apply Nat.eqb_neq. lia.
  - apply Nat.eqb_neq. lia.
Qed.

(** Up to [2^53] an integer is the double nearest to it. *)
Lemma nearestDouble_safe (m : Z) : 0 <= m <= 2 ^ 53 -> nearestDouble m = Int m.
Proof.
  intros Hm. unfold nearestDouble.
  destruct (Z.ltb_spec m (2 ^ 53)) as [_|Hbig]; [reflexivity|].
  assert (m = 2 ^ 53) as -> by lia. vm_compute. reflexivity.
Qed.

(** Up to [2^53] a number is printed with all its digits. *)
Lemma numberToString_safe (k : Z) :
  0 <= k <= 2 ^ 53 -> numberToString (toNumber k) = decimal k.
Proof.
  intros Hk. unfold toNumber.
  destruct (Z.ltb_spec k 0) as [|_]; [lia|].
  rewrite nearestDouble_safe by exact Hk. unfold numberToString.
  destruct (Z.ltb_spec k 0) as [|_]; [lia|]. unfold printDouble.
  destruct (Z.ltb_spec k (2 ^ 53)) as [_|Hbig]; [reflexivity|].
  assert (k = 2 ^ 53) as -> by lia. vm_compute. reflexivity.
Qed.

(** A string of digits is read as it stands, in base ten. *)
Lemma parseInt_digits (s : string) (m : Z) :
  digitsOnly s = true -> s ≠ EmptyString ->
  readDigits 10 digitValue s None = Some m -> 0 <= m <= 2 ^ 53 ->
  parseInt s = Int m.
Proof.
  intros Hdigits Hnonempty Hread Hm.
  destruct s as [|c s]; [contradiction|].
  cbn [digitsOnly] in Hdigits.
  destruct (digitValue c) as [d|] eqn:Hc; [|discriminate].
  destruct (digit_is_plain c d Hc) as (Htrim & Hminus & Hplus & Hx & HX).
  unfold parseInt. cbn [JS.trimStart]. rewrite Htrim.
  unfold JS.startsWith. cbn [String.prefix].
  destruct (ascii_dec "-" c) as [<-|_]; [contradiction|].
  destruct (ascii_dec "+" c) as [<-|_]; [contradiction|].
  cbn [orb].
  assert (forall x : ascii, x ≠ "-"%char -> digitValue x = None ->
            String.prefix (String "0" (String x "")) (String c s) = false) as Hprefix.
  { intros x _ Hnodigit. cbn [String.prefix].
    destruct (ascii_dec "0" c); [|reflexivity].
    destruct s as [|c' s]; [reflexivity|]. cbn [digitsOnly] in Hdigits.
    destruct (digitValue c') as [d'|] eqn:Hc'; [|discriminate].
    cbn [String.prefix].
    destruct (ascii_dec x c') as [<-|_]; [congruence|reflexivity]. }
  rewrite (Hprefix "x"%char), (Hprefix "X"%char) by (discriminate || reflexivity).
  cbn [orb]. rewrite Hread. change (1 <? 0) with false. cbv iota.
  now apply nearestDouble_safe.
Qed.

Lemma prefix_empty (s : string) : String.prefix EmptyString s = true.
Proof. now destruct s. Qed.

(** Splitting at [-] after a run of digits. *)
Lemma split_go_digits (digits : string) :
  forall cur rest : string,
    digitsOnly digits = true ->
    JS.split_go "-" 0 cur (digits +:+ String "-" rest)
    = (cur +:+ digits) :: JS.split_go "-" 0 EmptyString rest.
Proof.
  assert (forall s, s +:+ EmptyString = s) as Hright.
  { induction s as [|c s IH]; [reflexivity|].
    change (String c (s +:+ "") = String c s). now rewrite IH. }
  induction digits as [|c digits IH]; intros cur rest Hdigits.
  - change ("" +:+ String "-" rest) with (String "-" rest).
    cbn [JS.split_go String.prefix].
    destruct (ascii_dec "-" "-") as [_|Hne]; [|now destruct Hne].
    now rewrite prefix_empty, Hright.
  - cbn [digitsOnly] in Hdigits.
    destruct (digitValue c) as [d|] eqn:Hc; [|discriminate].
    destruct (digit_is_plain c d Hc) as (_ & Hminus & _).
    change (String c digits +:+ String "-" rest)
      with (String c (digits +:+ String "-" rest)).
    cbn [JS.split_go String.prefix].
    destruct (ascii_dec "-" c) as [<-|_]; [contradiction|].
    rewrite (IH _ rest Hdigits). f_equal.
    rewrite append_assoc. reflexivity.
Qed.

(** The number of a made-up slug is the number it was made with. *)
Lemma keyNumber_made (k : Z) (name : string) :
  0 <= k <= 2 ^ 53 -> keyNumber ("fs" +:+ decimal k +:+ "-" +:+ name) = Int k.
Proof.
  intros Hk. unfold keyNumber, JS.split.
  change ("fs" +:+ decimal k +:+ "-" +:+ name)
    with (String "f" (String "s" (decimal k +:+ String "-" name))).
  cbn [JS.split_go String.prefix].
  destruct (ascii_dec "-" "f") as [Hne|_]; [discriminate Hne|].
  destruct (ascii_dec "-" "s") as [Hne|_]; [discriminate Hne|].
  assert (digitsOnly (decimal k) = true) as Hdigits
      by (apply decimal_go_digitsOnly; [lia|reflexivity]).
  rewrite (split_go_digits (decimal k) _ name Hdigits). cbn [hd].
  change (JS.substringFrom (("" +:+ "f") +:+ "s" +:+ decimal k) 2) with (decimal k).
  apply parseInt_digits; [exact Hdigits|apply decimal_go_nonempty| |exact Hk].
  apply decimal_read. lia.
Qed.

(** The largest number so far, over keys with numbers below [2^53]: it
    is the number started with or the number of a key, and no key has a
    larger one. *)
Lemma max_of_safe_keys (keys : list string) :
  forall a : Z,
    a < 2 ^ 53 ->
    (forall key, key ∈ keys -> exists n, keyNumber key = Int n /\ n < 2 ^ 53) ->
    exists m : Z,
      fold_left (fun max key => Math_max max (keyNumber key)) keys (Int a) = Int m /\
      a <= m < 2 ^ 53 /\
      (m = a \/ exists key, key ∈ keys /\ keyNumber key = Int m) /\
      (forall key, key ∈ keys -> exists n, keyNumber key = Int n /\ n <= m).
Proof.
  induction keys as [|key keys IH]; intros a Ha Hsafe.
  - exists a. cbn [fold_left]. repeat split; [lia|assumption|now left|].
    intros key Hkey. now apply elem_of_nil in Hkey.
  - destruct (Hsafe key ltac:(left)) as (n & Hn & Hsmall).
    destruct (IH (Z.max a n) ltac:(lia)) as (m & Hfold & Hm & Hattained & Hbound).
    { intros key' Hkey'. apply Hsafe. now right. }
    exists m. cbn [fold_left]. rewrite Hn. cbn [Math_max].
    split; [exact Hfold|]. split; [lia|]. split.
    + destruct Hattained as [->|(key' & Hin & Hkey')].
      * destruct (Z.max_spec a n) as [[_ ->]|[_ ->]]; [|now left].
        right. exists key. split; [left|exact Hn].
      * right. exists key'. split; [now right|exact Hkey'].
    + intros key' Hin. apply elem_of_cons in Hin as [->|Hin]; [|now apply Hbound].
      exists n. split; [exact Hn|lia].
Qed.

Lemma Math_max_NaN (a b : JsNumber) : Math_max a b = NaN <-> a = NaN \/ b = NaN.
Proof.
  destruct a as [|x|[|]], b as [|y|[|]]; cbn [Math_max];
    split; first [intros [H|H]; discriminate H|intros H; discriminate H|tauto].
Qed.

Lemma max_is_NaN (keys : list string) :
  forall start : JsNumber,
    fold_left (fun max key => Math_max max (keyNumber key)) keys start = NaN <->
    start = NaN \/ exists key, key ∈ keys /\ keyNumber key = NaN.
Proof.
  induction keys as [|key keys IH]; intros start; cbn [fold_left].
  - split; [now left|]. intros [H|(key & Hin & _)]; [exact H|now apply elem_of_nil in Hin].
  - rewrite IH, Math_max_NaN. split.
    + intros [[Hstart|Hkey]|(key' & Hin & Hnan)].
      * now left.
      * right. exists key. split; [left|exact Hkey].
      * right. exists key'. split; [now right|exact Hnan].
    + intros [->|(key' & Hin & Hnan)]; [now left; left|].
      apply elem_of_cons in Hin as [->|Hin].
      * left. now right.
      * right. now exists key'.
Qed.

(** X27.  A slug that [addLocalFilesystem] makes up is new while the
    numbers in use are below [2^53].  When no key is given and every key
    in use has such a number after its first two characters, the slug is
    [fs], the largest of these numbers (or [0]) and one more, a dash and
    the name of the folder; it is none of the keys in use; and the folder
    is put at the front of the list with that slug, an empty base URL and
    its handle.  This ends at [2^53]: one more than [2^53] is [2^53] again
    as a double, so with the key [fs9007199254740992-] and the name of the
    folder in use, the slug made up is that same key. *)
Theorem addLocalFilesystem_slug_is_new (keys : list string) (handle : FsHandle)
  (key : option string) (fileSystems : list FileSystemConfig) :
  default EmptyString key = EmptyString ->
  ((forall used, used ∈ keys -> exists n, keyNumber used = Int n /\ n < 2 ^ 53) ->
   exists max : Z,
     0 <= max < 2 ^ 53 /\
     (max = 0 \/ exists used, used ∈ keys /\ keyNumber used = Int max) /\
     (forall used, used ∈ keys -> exists n, keyNumber used = Int n /\ n <= max) /\
     let slug := "fs" +:+ decimal (max + 1) +:+ "-" +:+ handle_name handle in
     addLocalFilesystem keys handle key fileSystems
     = (slug, localFolder slug handle :: fileSystems) /\
     (slug ∉ keys)) /\
  (let used := "fs9007199254740992-" +:+ handle_name handle in
   keyNumber used = Int (2 ^ 53) /\
   addLocalFilesystem [used] handle key fileSystems
   = (used, localFolder used handle :: fileSystems)).
Proof.
  intros Hkey. split.
  - intros Hsafe.
    destruct (max_of_safe_keys keys 0 ltac:(lia) Hsafe)
      as (m & Hfold & Hm & Hattained & Hbound).
    exists m. split; [lia|]. split; [exact Hattained|]. split; [exact Hbound|].
    cbv zeta. split.
    + unfold addLocalFilesystem. rewrite Hkey. cbn [JS.truthy String.eqb negb].
      unfold nextSlug. rewrite Hfold. cbn [plusOne].
      now rewrite numberToString_safe by lia.
    + intros Hused. destruct (Hbound _ Hused) as (n & Hn & Hle).
      rewrite keyNumber_made in Hn by lia. injection Hn as <-. lia.
  - cbv zeta.
    assert (keyNumber ("fs9007199254740992-" +:+ handle_name handle) = Int (2 ^ 53))
      as Hnumber.
    { change ("fs9007199254740992-" +:+ handle_name handle)
        with ("fs" +:+ decimal (2 ^ 53) +:+ "-" +:+ handle_name handle).
      apply keyNumber_made. lia. }
    split; [exact Hnumber|].
    unfold addLocalFilesystem. rewrite Hkey. cbn [JS.truthy String.eqb negb].
    unfold nextSlug. cbn [fold_left]. rewrite Hnumber. cbn [Math_max].
    replace (numberToString (plusOne (Int (Z.max 0 (2 ^ 53))))) with "9007199254740992"
      by (vm_compute; reflexivity).
    reflexivity.
Qed.

Lemma addLocalFilesystem_slug_is_new_witness :
  let runs := DirectoryHandle "runs" [] in
  addLocalFilesystem ["fs1-data"; "fs07-old"; "fs2-runs"] runs None []
  = ("fs8-runs", [localFolder "fs8-runs" runs]) /\
  ("fs8-runs" ∉ ["fs1-data"; "fs07-old"; "fs2-runs"]) /\
  addLocalFilesystem ["fs9007199254740992-runs"] runs None []
  = ("fs9007199254740992-runs", [localFolder "fs9007199254740992-runs" runs]).
Proof.
  intros runs.
  destruct (proj1 (addLocalFilesystem_slug_is_new ["fs1-data"; "fs07-old"; "fs2-runs"]
                     runs None [] eq_refl))
    as (max & Hmax & Hattained & Hbound & Hrun & Hnew).
  { intros used Hused.
    repeat (apply elem_of_cons in Hused as [->|Hused];
            [eexists; split; [vm_compute; reflexivity|reflexivity]|]).
    now apply elem_of_nil in Hused. }
  assert (max = 7) as ->.
  { destruct (Hbound "fs07-old" ltac:(right; left)) as (n & Hn & Hle).
    vm_compute in Hn. injection Hn as <-.
    destruct Hattained as [->|(used & Hused & Hnumber)]; [lia|].
    repeat (apply elem_of_cons in Hused as [->|Hused];
            [vm_compute in Hnumber; injection Hnumber as <-; lia|]).
    now apply elem_of_nil in Hused. }
  split; [exact Hrun|]. split; [exact Hnew|].
  exact (proj2 (proj2 (addLocalFilesystem_slug_is_new [] runs None [] eq_refl))).
Defined.

(** X28.  One key without a number spoils every slug made up after it.
    When some key in use has no number after its first two characters
    (a key that the caller chose, such as [data]), the slug made up is
    [fsNaN-] and the name of the folder, whatever the other keys are: two
    folders of the same name get the same slug.  That slug has no number
    either, so this goes on once it is among the keys. *)
Theorem addLocalFilesystem_slug_without_number (keys : list string) (handle : FsHandle)
  (key : option string) (fileSystems : list FileSystemConfig) (unnumbered : string) :
  default EmptyString key = EmptyString ->
  unnumbered ∈ keys -> keyNumber unnumbered = NaN ->
  addLocalFilesystem keys handle key fileSystems
  = ("fsNaN-" +:+ handle_name handle,
     localFolder ("fsNaN-" +:+ handle_name handle) handle :: fileSystems) /\
  keyNumber ("fsNaN-" +:+ handle_name handle) = NaN.
Proof.
  intros Hkey Hin Hnan. split.
  - unfold addLocalFilesystem. rewrite Hkey. cbn [JS.truthy String.eqb negb].
    unfold nextSlug.
    assert (fold_left (fun max used => Math_max max (keyNumber used)) keys (Int 0) = NaN)
      as -> by (apply max_is_NaN; right; now exists unnumbered).
    reflexivity.
  - unfold keyNumber, JS.split.
    change ("fsNaN-" +:+ handle_name handle)
      with (String "f" (String "s" (String "N" (String "a" (String "N"
              (String "-" (handle_name handle))))))).
    cbn [JS.split_go String.prefix].
    destruct (ascii_dec "-" "f") as [Heq|_]; [discriminate Heq|].
    destruct (ascii_dec "-" "s") as [Heq|_]; [discriminate Heq|].
    destruct (ascii_dec "-" "N") as [Heq|_]; [discriminate Heq|].
    destruct (ascii_dec "-" "a") as [Heq|_]; [discriminate Heq|].
    destruct (ascii_dec "-" "-") as [_|Hne]; [|now destruct Hne].
    rewrite prefix_empty. reflexivity.
Qed.

Lemma addLocalFilesystem_slug_without_number_witness :
  let runs := DirectoryHandle "runs" [] in
  addLocalFilesystem ["fs1-data"; "data"; "fsNaN-runs"] runs (Some EmptyString) []
  = ("fsNaN-runs", [localFolder "fsNaN-runs" runs]).
Proof.
  intros runs.
  apply (proj1 (addLocalFilesystem_slug_without_number
                  ["fs1-data"; "data"; "fsNaN-runs"] runs (Some EmptyString) [] "data"
                  eq_refl ltac:(right; left) eq_refl)).
Defined.

(** X29.  [addInitialLocalFilesystems] puts the folders at the front of
    the list in the reverse of the order they are given in, the last one
    first, each with its key as its slug and with an empty base URL; the
    file systems that were in the list follow, as they were. *)
Theorem addInitialLocalFilesystems_reverses (filesystems : list (FsHandle * string))
  (fileSystems : list FileSystemConfig) :
  addInitialLocalFilesystems filesystems fileSystems
  = rev (map (fun fsystem => localFolder (snd fsystem) (fst fsystem)) filesystems)
    ++ fileSystems.
Proof.
  unfold addInitialLocalFilesystems. revert fileSystems.
  induction filesystems as [|fsystem filesystems IH]; intros fileSystems; [reflexivity|].
  cbn [fold_left map rev]. rewrite IH, <- app_assoc. reflexivity.
Qed.

(** ** fileSystemConfig: the base URL of the bucket *)

(** Setting the base URL touches the first [s3] entry only, and only its
    base URL. *)
Lemma setS3_changes_base_only (s3BaseURL : string) (fileSystems : list FileSystemConfig) :
  map slug (setS3 s3BaseURL fileSystems) = map slug fileSystems /\
  map handle (setS3 s3BaseURL fileSystems) = map handle fileSystems /\
  map needPassword (setS3 s3BaseURL fileSystems) = map needPassword fileSystems /\
  forall fs, fs ∈ setS3 s3BaseURL fileSystems ->
             fs ∈ fileSystems \/ (slug fs = "s3" /\ baseURL fs = s3BaseURL).
Proof.
  induction fileSystems as [|fs0 rest (Hslug & Hhandle & Hpassword & Hin)];
    cbn [setS3 map]; [repeat split; intros fs Hfs; now left|].
  destruct (String.eqb_spec (slug fs0) "s3") as [Hs3|_]; cbn [map slug handle needPassword].
  - repeat split. intros fs Hfs. apply elem_of_cons in Hfs as [->|Hfs].
    + right. now split.
    + left. now right.
  - rewrite Hslug, Hhandle, Hpassword. repeat split.
    intros fs Hfs. apply elem_of_cons in Hfs as [->|Hfs]; [left; now left|].
    destruct (Hin fs Hfs) as [Hold|Hnew]; [left; now right|now right].
Qed.

(** X30.  Setting the base URL of the bucket never throws.  With a token
    and a user name from the parent frame, the first file system with the
    slug [s3], and no other, gets the base URL made of the fixed prefix,
    the user name as it is and a separator, which the constructor of
    [HTTPFileSystem] then takes as it is; no line is logged.  Without
    one of them the list is left as it was and two lines are logged, the
    failure of the exchange and then [User is not logged in]. *)
Theorem setS3BaseURL_sets_or_logs {W} (host : Host W)
  (fileSystems : list FileSystemConfig) (st : ConfigState W)
  (token username : option string) (w : W) :
  authMessage host (outside st) = ((token, username), w) ->
  let url := "https://d3o15hrk68p27o.cloudfront.net/user-scenarios/"
             +:+ default EmptyString username +:+ "/" in
  (default EmptyString token ≠ EmptyString ->
   default EmptyString username ≠ EmptyString ->
   setS3BaseURL host fileSystems st
   = (Ok (setS3 url fileSystems), mkConfigState w (logged st)) /\
   map slug (setS3 url fileSystems) = map slug fileSystems /\
   (forall fs, fs ∈ setS3 url fileSystems ->
               fs ∈ fileSystems \/ (slug fs = "s3" /\ baseURL fs = url)) /\
   forall (fs : FileSystemConfig) (store : option Store) (fsState : State W),
     baseURL fs = url ->
     exists this, fst (new_HTTPFileSystem fs store fsState) = Ok this /\ baseUrl this = url) /\
  (default EmptyString token = EmptyString \/ default EmptyString username = EmptyString ->
   setS3BaseURL host fileSystems st
   = (Ok fileSystems,
      mkConfigState w
        ((logged st
          ++ [("Failed to fetch username:",
               Error "No token or username received from parent.")])
         ++ [("Failed to set S3 baseURL:",
              Error "User is not logged in. Please log in to access the S3 bucket.")]))).
Proof.
  intros Hanswer url. split.
  - intros Htoken Huser. split; [|split; [|split]].
    + unfold setS3BaseURL, getS3BaseURL, getAuthTokenAndUsername, try_catch, bind, ret.
      rewrite Hanswer. cbn [fst snd]. unfold JS.truthy.
      destruct (String.eqb_spec (default "" token) "") as [|_]; [contradiction|].
      destruct (String.eqb_spec (default "" username) "") as [|_]; [contradiction|].
      reflexivity.
    + apply setS3_changes_base_only.
    + apply setS3_changes_base_only.
    + intros fs store fsState Hbase. unfold new_HTTPFileSystem. cbn [urlId].
      assert (JS.endsWith url "/" = true) as Hend.
      { apply endsWith_spec.
        exists ("https://d3o15hrk68p27o.cloudfront.net/user-scenarios/"
                +:+ default "" username).
        unfold url. now rewrite append_assoc. }
      rewrite Hbase, Hend.
      destruct (CACHE fsState !! slug fs); eexists; split; reflexivity.
  - intros Hmissing.
    unfold setS3BaseURL, getS3BaseURL, getAuthTokenAndUsername, try_catch, bind, ret,
      throw, console_error, modify.
    rewrite Hanswer. cbn [fst snd outside logged].
    assert (JS.truthy (default "" token) && JS.truthy (default "" username) = false) as ->.
    { destruct Hmissing as [-> | ->]; [reflexivity|apply andb_false_r]. }
    reflexivity.
Qed.

Lemma setS3BaseURL_sets_or_logs_witness :
  let bucketConfig := {| slug := "s3"; baseURL := EmptyString; needPassword := true;
                         handle := None; cfg_isGithub := false |} in
  fst (setS3BaseURL (Scenario.host [] "granted" true)
         [Scenario.runsConfig; bucketConfig] (mkConfigState [] []))
  = Ok [Scenario.runsConfig;
        {| slug := "s3";
           baseURL := "https://d3o15hrk68p27o.cloudfront.net/user-scenarios/user/";
           needPassword := true; handle := None; cfg_isGithub := false |}].
Proof.
  intros bucketConfig.
  destruct (setS3BaseURL_sets_or_logs (Scenario.host [] "granted" true)
              [Scenario.runsConfig; bucketConfig] (mkConfigState [] [])
              (Some "token") (Some "user") [] eq_refl) as [Hset _].
  destruct Hset as [Hrun _]; [discriminate|discriminate|].
  rewrite Hrun. reflexivity.
Defined.
